(** * contas-luz: embedding cache and FAISS index management

    A shallow embedding of [app/services/faiss_service.py] and
    [app/services/embeddings_service.py], with the properties of the
    vector-index store, the slot mapping, the embedding cache and the
    filtered search that the design document states about them.

    Conventions of the embedding.
    - Python dictionaries are finite maps ([gmap]); a dictionary that is
      only iterated is an association list in iteration order.
    - A method that mutates [self] takes the service record and returns the
      new one next to its result.  A [try ... except Exception] block that
      returns [False] (or [[]]) returns the state as mutated up to the
      statement that raised.
    - A float is a finite number, an infinity or NaN.  The embedding does
      no float arithmetic: the distances that FAISS computes are left to
      the library, and the similarity that the services derive from a
      distance is kept as the expression that computes it.
    - A row of an array in memory has fewer than [2^31] components.
    - The fields of a document hold values that JSON can write.
    - [int] and [str] are those of Python without its limit on the number
      of digits of a conversion.
    - The methods are coroutines; a call is run to its end, with no other
      call in between.
    - [datetime.now()] is an argument [agora] of the operation.
    - What the code takes from outside is a [Variable] of the section that
      uses it: the settings, MD5, the embeddings API, [strftime], whether
      a file can be created, what FAISS computes in a search, and the
      attributes of Python's classes.
    - Calls to [logger] have no effect on the modelled state and are left
      out. *)

From Stdlib Require Import ZArith QArith Lia Ascii String.
From stdpp Require Import gmap strings list fin_maps sorting.

Open Scope Z_scope.

(** ** numpy arrays *)

(** A 32-bit float: a finite number, given by its value, or an infinity,
    or NaN.  The embedding does no arithmetic on floats: what FAISS and
    Python compute with them is left to the library ([Faiss.biblioteca])
    or kept as an expression ([pontuacao]).  The embeddings that the API
    returns are lists of Python floats; they are kept in the same type,
    a finite double being a rational number as well. *)
Inductive float32 :=
  | Finito (q : Q)
  | Infinito (negativo : bool)
  | NaN.

Definition vetor := list float32.

(** The similarity that the services derive from a distance of FAISS,
    [1.0 - float(distancia) / 2.0], a Python [float]: it is kept as this
    expression of the distance. *)
Inductive pontuacao :=
  | UmMenosMetade (distancia : float32).

Definition distancia_de (p : pontuacao) : float32 :=
  match p with UmMenosMetade distancia => distancia end.

(** The arrays the services receive: rank 1 ([shape = (n,)]), rank 2
    ([shape = (len linhas, ncols)]) or any other rank. *)
Inductive ndarray :=
  | Arr1 (v : vetor)
  | Arr2 (ncols : Z) (linhas : list vetor)
  | ArrN (shape : list Z).

Definition len {A} (l : list A) : Z := Z.of_nat (length l).

Definition shape (a : ndarray) : list Z :=
  match a with
  | Arr1 v => [len v]
  | Arr2 ncols linhas => [len linhas; ncols]
  | ArrN sh => sh
  end.

(** [np.zeros(n, dtype=np.float32)] *)
Definition zeros (n : Z) : vetor := replicate (Z.to_nat n) (Finito 0).

(** ** Python built-ins the services call *)

Module Py.

(** [s.startswith(p)] and [s.endswith(p)] *)
Definition startswith (p s : string) : bool := String.prefix p s.
Definition endswith (p s : string) : bool :=
  String.prefix (String.rev p) (String.rev s).

(** [s.split(c)] for a one-character separator [c]. *)
Fixpoint split_go (c : ascii) (cur : string) (s : string) : list string :=
  match s with
  | EmptyString => [String.rev cur]
  | String a s' =>
      if bool_decide (a = c) then String.rev cur :: split_go c "" s'
      else split_go c (String a cur) s'
  end.
Definition split (c : ascii) (s : string) : list string := split_go c "" s.

(** [s.replace(old, "")] for a non-empty [old]: the occurrences of [old]
    are removed, leftmost first. *)
Fixpoint replace_go (old : string) (pular : nat) (s : string) : string :=
  match s with
  | EmptyString => ""
  | String a s' =>
      match pular with
      | S n => replace_go old n s'
      | O =>
          if String.prefix old s
          then replace_go old (String.length old - 1) s'
          else String a (replace_go old 0 s')
      end
  end.
Definition remove_all (old s : string) : string :=
  if bool_decide (old = "") then s else replace_go old 0 s.

(** [posixpath.split]: the reversed path is cut at its first ["/"]. *)
Fixpoint corta (r : string) (tail : string) : string * string :=
  match r with
  | EmptyString => ("", tail)
  | String a r' =>
      if bool_decide (a = "/"%char) then (String.rev r, tail)
      else corta r' (String a tail)
  end.

Fixpoint lstrip_barras (s : string) : string :=
  match s with
  | String a s' => if bool_decide (a = "/"%char) then lstrip_barras s' else s
  | EmptyString => ""
  end.

(** [os.path.basename] and [os.path.dirname] *)
Definition basename (p : string) : string := (corta (String.rev p) "").2.
Definition dirname (p : string) : string :=
  let head := (corta (String.rev p) "").1 in
  let sem_barras := lstrip_barras (String.rev head) in
  if bool_decide (sem_barras = "") then head else String.rev sem_barras.

(** [os.path.join(a, b)] *)
Definition join (a b : string) : string :=
  if startswith "/" b then b
  else if bool_decide (a = "") || endswith "/" a then a +:+ b
  else a +:+ "/" +:+ b.

(** [lista.sort(reverse=True)] on strings. *)
Definition sort_reverse (l : list string) : list string :=
  merge_sort (λ a b, String.le b a) l.

(** [int(s)] for a string of ASCII characters: white space around (tab,
    line feed, vertical tab, form feed, carriage return and space), an
    optional sign, then decimal digits, where single underscores may
    separate digits.  [None] is [ValueError]. *)
Definition is_space (c : ascii) : bool :=
  let n := nat_of_ascii c in
  ((9 <=? n) && (n <=? 13) || (n =? 32))%nat.

Fixpoint lstrip (s : string) : string :=
  match s with
  | String a s' => if is_space a then lstrip s' else s
  | EmptyString => ""
  end.
Definition strip (s : string) : string :=
  String.rev (lstrip (String.rev (lstrip s))).

Fixpoint digitos (s : string) (acc : Z) (apos_digito : bool) : option Z :=
  match s with
  | EmptyString => if apos_digito then Some acc else None
  | String a s' =>
      match Ascii.is_nat a with
      | Some n => digitos s' (10 * acc + Z.of_nat n) true
      | None =>
          if bool_decide (a = "_"%char) && apos_digito
          then digitos s' acc false
          else None
      end
  end.

Definition int (s : string) : option Z :=
  match strip s with
  | String "-" r => Z.opp <$> digitos r 0 false
  | String "+" r => digitos r 0 false
  | r => digitos r 0 false
  end.

(** [str(z)] for an integer: the decimal digits, most significant first,
    after a minus sign when [z] is negative.  [str_digitos] writes the
    digits of [n] in front of [acc]; the bits of [n] bound its turns. *)
Definition digito (n : Z) : ascii := ascii_of_nat (48 + Z.to_nat n).

Fixpoint str_digitos (voltas : nat) (n : Z) (acc : string) : string :=
  match voltas with
  | O => acc
  | S voltas' =>
      let acc' := String (digito (n mod 10)) acc in
      if n <? 10 then acc' else str_digitos voltas' (n / 10) acc'
  end.

Definition str (z : Z) : string :=
  if z <? 0
  then String "-" (str_digitos (S (Z.to_nat (Z.log2 (- z)))) (- z) "")
  else str_digitos (S (Z.to_nat (Z.log2 z))) z "".

(** No character of the string is white space. *)
Definition sem_espacos (s : string) : Prop :=
  Forall (λ c, is_space c = false) (list_ascii_of_string s).

End Py.

(** A key of a JSON object, as [int(k)] treats it.  A string of ASCII
    characters (all below 128) is [ChaveAscii] and is parsed as [Py.int]
    does.  For a string with a character outside ASCII, Python first
    rewrites the white space and the decimal digits that its Unicode
    tables list; the embedding does not carry those tables, and such a
    key is a [ChaveUnicode], given with what [int] makes of it: [lido] is
    the integer, or [None] when [int] raises. *)
Inductive chave_json :=
  | ChaveAscii (s : string)
  | ChaveUnicode (lido : option Z).

Definition int_chave (k : chave_json) : option Z :=
  match k with
  | ChaveAscii s => Py.int s
  | ChaveUnicode lido => lido
  end.

(** ** Documents stored in the slot mappings *)

(** Field values: the JSON scalars, and [VOutro] for every other value (a
    nested object such as [endereco], a list, a number that is not an
    integer), known up to Python's [==] by a tag: two such values are equal
    when their tags are. *)
Inductive valor :=
  | VNone
  | VBool (b : bool)
  | VInt (z : Z)
  | VStr (s : string)
  | VOutro (tag : nat).

(** Python's [==] on these values ([True == 1] and [False == 0]). *)
Definition py_eq (a b : valor) : bool :=
  match a, b with
  | VNone, VNone => true
  | VBool x, VBool y => Bool.eqb x y
  | VBool x, VInt y | VInt y, VBool x => (if x then 1 else 0) =? y
  | VInt x, VInt y => x =? y
  | VStr x, VStr y => bool_decide (x = y)
  | VOutro x, VOutro y => bool_decide (x = y)
  | _, _ => false
  end.

(** A document is a pydantic model ([ClienteDocumento], [FaturaDocumento],
    [AnaliseDocumento]: the fields by name) or the [dict] read back from a
    mapping file. *)
Inductive documento :=
  | Modelo (campos : gmap string valor)
  | Dict (itens : gmap string valor).

(** The data a document holds under a key. *)
Definition campo (doc : documento) (chave : string) : option valor :=
  match doc with
  | Modelo campos => campos !! chave
  | Dict itens => itens !! chave
  end.

(** ** The FAISS library, as far as the services use it *)

Module Faiss.

Inductive classe :=
  | IndexFlatL2
  | IndexIVFFlat (nlist nprobe : Z)
  | IndexHNSWFlat (M : Z).

(** [xb] holds the stored vectors in slot order: slot [i] is [xb !! i]. *)
Record index := {
  cls : classe;
  d : Z;
  is_trained : bool;
  xb : list vetor
}.

Definition ntotal (ix : index) : Z := len (xb ix).

(** The empty indexes that the constructors make of a dimension that is
    a C [int]. *)
Definition novo_IndexFlatL2 (dim : Z) : index :=
  {| cls := IndexFlatL2; d := dim; is_trained := true; xb := [] |}.

Definition set_nprobe (ix : index) (n : Z) : index :=
  match cls ix with
  | IndexIVFFlat nlist _ =>
      {| cls := IndexIVFFlat nlist n; d := d ix;
         is_trained := is_trained ix; xb := xb ix |}
  | _ => ix
  end.

Definition novo_IndexHNSWFlat (dim M : Z) : index :=
  {| cls := IndexHNSWFlat M; d := dim; is_trained := true; xb := [] |}.

(** The constructors as Python calls them with an integer [dim].  The
    wrapper converts [dim] to the C type of the parameter and raises
    ([None]) when it does not fit: [idx_t] (64 bits, signed) for
    [IndexFlatL2], [size_t] (64 bits, unsigned) for [IndexIVFFlat], [int]
    (32 bits, signed) for [IndexHNSWFlat].  The field [d] of an index is a
    C [int], so a wider dimension is cut to its low 32 bits ([int32]).
    [IndexIVFFlat] also raises when its dimension is not the [d] of the
    quantizer it is given, and starts trained only with a trained
    quantizer of [nlist] vectors: with the empty quantizer that
    [criar_indice] gives it, it needs [train] before the first [add]. *)
Definition int32 (z : Z) : Z := (z + 2 ^ 31) mod 2 ^ 32 - 2 ^ 31.

Definition py_IndexFlatL2 (dim : Z) : option index :=
  if (- 2 ^ 63 <=? dim) && (dim <? 2 ^ 63)
  then Some (novo_IndexFlatL2 (int32 dim)) else None.

Definition py_IndexIVFFlat (quantizer : index) (dim nlist : Z) : option index :=
  if (0 <=? dim) && (dim <? 2 ^ 64) && (dim =? d quantizer mod 2 ^ 64)
  then Some {| cls := IndexIVFFlat nlist 1; d := int32 dim;
               is_trained :=
                 is_trained quantizer && (ntotal quantizer =? nlist);
               xb := [] |}
  else None.

Definition py_IndexHNSWFlat (dim M : Z) : option index :=
  if (- 2 ^ 31 <=? dim) && (dim <? 2 ^ 31)
  then Some (novo_IndexHNSWFlat dim M) else None.

(** [index.add(x)] for a rank-2 [x]: raises ([None]) when the row length
    is not [d] or the index is not trained, and appends the rows
    otherwise. *)
Definition add (ix : index) (ncols : Z) (linhas : list vetor) : option index :=
  if negb (ncols =? d ix) then None
  else if negb (is_trained ix) then None
  else Some {| cls := cls ix; d := d ix; is_trained := is_trained ix;
               xb := xb ix ++ linhas |}.

(** [x < y] on floats: false when one of them is NaN. *)
Definition ltb (x y : float32) : bool :=
  match x, y with
  | NaN, _ | _, NaN => false
  | Finito a, Finito b => negb (Qle_bool b a)
  | Finito _, Infinito negativo => negb negativo
  | Infinito negativo, Finito _ => negativo
  | Infinito a, Infinito b => a && negb b
  end.

(** The order of the floats as numbers, from minus infinity to plus
    infinity, with NaN put last. *)
Definition leb (x y : float32) : bool :=
  match x, y with
  | _, NaN => true
  | NaN, _ => false
  | Infinito true, _ => true
  | _, Infinito true => false
  | _, Infinito false => true
  | Infinito false, _ => false
  | Finito a, Finito b => Qle_bool a b
  end.

Definition le (x y : float32) : Prop := leb x y = true.

#[global] Instance le_dec : RelDecision le.
Proof. intros x y. unfold le. apply _. Defined.

(** The largest finite float, [(2 - 2^-23) * 2^127]: the distance in the
    entries of a result that have no neighbour. *)
Definition FLT_MAX : float32 :=
  Finito (340282346638528859811704183484516925440 # 1).

(** What FAISS makes of a stored vector in a search: whether the
    structure of an approximate index (IVF, HNSW) reaches its slot, the
    distance it computes, in 32-bit floats, and the rank of the slot
    among the slots at the same distance (the lower comes first). *)
Record exame := {
  visto : bool;
  medida : float32;
  prioridade : Z
}.

(** What the embedding leaves to the library in a call
    [index.search(x, k)]: whether the result arrays for [n] queries and
    [k] neighbours can be allocated ([k] fits the C type and the memory
    is there), and the examination of the slot [slot] for the query [q],
    which may depend on the whole call. *)
Record biblioteca := {
  aloca : nat → Z → bool;
  examinar : index → list vetor → Z → vetor → nat → exame
}.

Section search.
Variable faiss : biblioteca.

(** A flat index examines every slot. *)
Definition visita (ix : index) (e : exame) : bool :=
  match cls ix with
  | IndexFlatL2 => true
  | _ => visto e
  end.

(** The slots whose distance to the query is below [FLT_MAX]: FAISS keeps
    a candidate only when its distance is less than the worst one kept
    so far, which starts at [FLT_MAX]; a distance that overflowed or is
    NaN is never kept. *)
Definition finitos (ix : index) (consultas : list vetor) (k : Z) (q : vetor)
    : list nat :=
  filter (λ slot, ltb (medida (examinar faiss ix consultas k q slot)) FLT_MAX
                  = true)
         (seq 0 (length (xb ix))).

Definition candidatos (ix : index) (consultas : list vetor) (k : Z) (q : vetor)
    : list nat :=
  filter (λ slot, visita ix (examinar faiss ix consultas k q slot) = true)
         (finitos ix consultas k q).

(** The order of the candidates in a result: by distance, then by
    [prioridade]. *)
Definition antes (ix : index) (consultas : list vetor) (k : Z) (q : vetor)
    (a b : nat) : Prop :=
  let ea := examinar faiss ix consultas k q a in
  let eb := examinar faiss ix consultas k q b in
  le (medida ea) (medida eb)
  ∧ (le (medida eb) (medida ea) → prioridade ea ≤ prioridade eb).

#[global] Instance antes_dec (ix : index) (consultas : list vetor) (k : Z)
    (q : vetor) : RelDecision (antes ix consultas k q).
Proof. intros a b. unfold antes, le. apply _. Defined.

(** The entry of a result for a slot. *)
Definition entrada (ix : index) (consultas : list vetor) (k : Z) (q : vetor)
    (slot : nat) : Z * float32 :=
  (Z.of_nat slot, medida (examinar faiss ix consultas k q slot)).

(** The [k] entries of one query: the nearest candidates in ascending
    distance, then [(-1, FLT_MAX)] up to [k] entries. *)
Definition search1 (ix : index) (consultas : list vetor) (k : Z) (q : vetor)
    : list (Z * float32) :=
  let r := take (Z.to_nat k)
             (merge_sort (antes ix consultas k q)
                (candidatos ix consultas k q)) in
  (entrada ix consultas k q <$> r)
  ++ replicate (Z.to_nat k - length r)%nat (-1, FLT_MAX).

(** [D, I = index.search(x, k)] for a rank-2 [x]: one row of distances
    and one row of labels per query.  It raises ([None]) when the row
    length is not [d], when [k] is not positive, when the result arrays
    cannot be allocated and when the index is not trained. *)
Definition search (ix : index) (ncols : Z) (consultas : list vetor) (k : Z)
    : option (list (list float32) * list (list Z)) :=
  if negb (ncols =? d ix) then None
  else if negb (0 <? k) then None
  else if negb (aloca faiss (length consultas) k) then None
  else if negb (is_trained ix) then None
  else
    let r := map (search1 ix consultas k) consultas in
    Some (map (map snd) r, map (map fst) r).
End search.

End Faiss.

(** ** [IndiceMetadata] (models/embeddings.py) *)

Module IndiceMetadata.
Record t := {
  id : string;
  nome : string;
  dimensao : Z;
  modelo_embeddings : string;
  num_vetores : Z;
  data_criacao : Z;
  ultima_atualizacao : Z;
  tem_mapeamento_ids : bool
}.

Definition set_num_vetores (m : t) (n : Z) : t :=
  {| id := id m; nome := nome m; dimensao := dimensao m;
     modelo_embeddings := modelo_embeddings m; num_vetores := n;
     data_criacao := data_criacao m;
     ultima_atualizacao := ultima_atualizacao m;
     tem_mapeamento_ids := tem_mapeamento_ids m |}.

Definition set_ultima_atualizacao (m : t) (quando : Z) : t :=
  {| id := id m; nome := nome m; dimensao := dimensao m;
     modelo_embeddings := modelo_embeddings m; num_vetores := num_vetores m;
     data_criacao := data_criacao m;
     ultima_atualizacao := quando;
     tem_mapeamento_ids := tem_mapeamento_ids m |}.
End IndiceMetadata.

(** ** The files of the index directory *)

(** What a file holds, seen through the call that reads it:
    [faiss.read_index] succeeds on [ArqIndice] only; [json.load] followed by
    [int(k)] on the keys reads an [ArqMapeamento] (a JSON object whose
    values are documents: [raw] lists the items of the dictionary that
    [json.load] returns, in its order); [json.load] followed by the
    [IndiceMetadata] constructor succeeds on [ArqMetadata] only.  Every
    other read raises. *)
Inductive arquivo :=
  | ArqIndice (ix : Faiss.index)
  | ArqMapeamento (raw : list (chave_json * gmap string valor))
  | ArqMetadata (m : IndiceMetadata.t)
  | ArqOutro.

Module Disco.
(** The disk maps the full path of each regular file to its content. *)
Abbreviation t := (gmap string arquivo).

Definition exists_ (fs : t) (caminho : string) : bool :=
  bool_decide (is_Some (fs !! caminho)).

(** The name of [caminho] inside directory [dir], when it lies there. *)
Definition nome_em (dir caminho : string) : option string :=
  let pre := if Py.endswith "/" dir then dir else dir +:+ "/" in
  if Py.startswith pre caminho then
    let n := String.substring (String.length pre)
               (String.length caminho - String.length pre) caminho in
    if bool_decide (n = "") || negb (bool_decide (Py.split "/" n = [n]))
    then None else Some n
  else None.

(** [os.listdir(dir)] *)
Definition listdir (fs : t) (dir : string) : list string :=
  omap (λ e, nome_em dir e.1) (map_to_list fs).

Definition read_index (fs : t) (caminho : string) : option Faiss.index :=
  match fs !! caminho with Some (ArqIndice ix) => Some ix | _ => None end.

Definition ler_mapeamento (fs : t) (caminho : string)
    : option (list (chave_json * gmap string valor)) :=
  match fs !! caminho with Some (ArqMapeamento raw) => Some raw | _ => None end.

Definition ler_metadata (fs : t) (caminho : string) : option IndiceMetadata.t :=
  match fs !! caminho with Some (ArqMetadata m) => Some m | _ => None end.

(** Creating or overwriting the file at [caminho], as [open(caminho, 'w')]
    and [faiss.write_index] do: they raise ([None]) when the file cannot
    be created, as when its directory is missing.  The directories are
    not part of the disk modelled here; [pode_gravar fs caminho] says
    whether the file can be created. *)
Definition gravar (pode_gravar : t → string → bool) (fs : t)
    (caminho : string) (a : arquivo) : option t :=
  if pode_gravar fs caminho then Some (<[caminho := a]> fs) else None.
End Disco.

(** [{int(k): v for k, v in mapeamento_raw.items()}]: [None] when some
    [int(k)] raises. *)
Definition inserir_convertida (acc : option (gmap Z documento))
    (e : chave_json * gmap string valor) : option (gmap Z documento) :=
  m ← acc; z ← int_chave e.1; Some (<[z := Dict e.2]> m).

Definition converter_chaves (raw : list (chave_json * gmap string valor))
    : option (gmap Z documento) :=
  foldl inserir_convertida (Some ∅) raw.

(** What [salvar_indice] writes for a document: [doc.dict()] when the
    document has that method (the pydantic models), the document itself
    otherwise (a [dict]). *)
Definition a_dict (doc : documento) : gmap string valor :=
  match doc with
  | Modelo campos => campos
  | Dict itens => itens
  end.

(** What [json.load] reads back for a document that was written: a
    dictionary with the fields of the document. *)
Definition como_dict (doc : documento) : documento := Dict (a_dict doc).

(** The object [mapeamento_serializavel] that [json.dump] writes: the
    entries of the mapping under the keys [str(idx)]. *)
Definition serializar (m : gmap Z documento)
    : list (chave_json * gmap string valor) :=
  (λ e, (ChaveAscii (Py.str e.1), a_dict e.2)) <$> map_to_list m.

(** The three files of a snapshot can be read: the index file holds [ix],
    the keys of the mapping file all convert and give [m], and the
    metadata file holds [meta].  Nothing relates [ix], [m] and [meta]. *)
Definition snapshot_legivel (fs : Disco.t)
    (caminho_indice caminho_mapeamento caminho_metadata : string)
    (ix : Faiss.index) (m : gmap Z documento) (meta : IndiceMetadata.t) : Prop :=
  Disco.read_index fs caminho_indice = Some ix
  ∧ (∃ raw, fs !! caminho_mapeamento = Some (ArqMapeamento raw)
            ∧ converter_chaves raw = Some m)
  ∧ fs !! caminho_metadata = Some (ArqMetadata meta).

(** ** [DocumentoEmbedding] (models/embeddings.py) *)

(** A document with its embedding, when it has one.  The [timestamp] of
    the model is not read by the services and is left out. *)
Module DocumentoEmbedding.
Record t := {
  documento : documento;
  embedding : option vetor
}.
End DocumentoEmbedding.

(** ** [FaissService] *)

Module FaissService.

Record t := {
  indices : gmap string Faiss.index;
  metadados : gmap string IndiceMetadata.t;
  mapeamentos : gmap string (gmap Z documento)
}.

(** [FaissService()] *)
Definition novo : t :=
  {| indices := ∅; metadados := ∅; mapeamentos := ∅ |}.

Definition set_indices (s : t) (ixs : gmap string Faiss.index) : t :=
  {| indices := ixs; metadados := metadados s; mapeamentos := mapeamentos s |}.
Definition set_metadados (s : t) (ms : gmap string IndiceMetadata.t) : t :=
  {| indices := indices s; metadados := ms; mapeamentos := mapeamentos s |}.
Definition set_mapeamentos (s : t) (mp : gmap string (gmap Z documento)) : t :=
  {| indices := indices s; metadados := metadados s; mapeamentos := mp |}.

(** A value under a key of the optional [metadados] argument of
    [criar_indice]: one that the validation of [IndiceMetadata] accepts for
    the field of that name, given as the value [v] the field then has, or
    one that it refuses. *)
Inductive dado (T : Type) :=
  | Aceito (v : T)
  | Recusado.
Arguments Aceito {T} v.
Arguments Recusado {T}.

(** The optional [metadados] argument of [criar_indice], restricted to the
    keys [IndiceMetadata] has; [None] in a field is an absent key.  The
    keys [id], [dimensao] and [data_criacao] are ignored by the code and
    are not represented. *)
Record extras := {
  ex_nome : option (dado string);
  ex_modelo_embeddings : option (dado string);
  ex_ultima_atualizacao : option (dado Z);
  ex_num_vetores : option (dado Z);
  ex_tem_mapeamento_ids : option (dado bool)
}.

(** The field that the constructor of [IndiceMetadata] gets from the
    default [padrao] of [metadados_base] and the value given for it, if
    any: [None] when the validation raises. *)
Definition validado {T} (padrao : T) (dado : option (dado T)) : option T :=
  match dado with
  | None => Some padrao
  | Some (Aceito v) => Some v
  | Some Recusado => None
  end.

(** No value of [extra] is refused by [IndiceMetadata]. *)
Definition aceito {T} (dado : option (dado T)) : bool :=
  match dado with
  | Some Recusado => false
  | _ => true
  end.

Definition aceitos (extra : option extras) : bool :=
  match extra with
  | None => true
  | Some e =>
      aceito (ex_nome e) && aceito (ex_modelo_embeddings e)
      && aceito (ex_ultima_atualizacao e) && aceito (ex_num_vetores e)
      && aceito (ex_tem_mapeamento_ids e)
  end.

(** The metadata [criar_indice] builds: [metadados_base] with the values of
    [extra] over its defaults, validated by [IndiceMetadata]. *)
Definition validar_metadados (indice_id : string) (dimensao : Z)
    (extra : option extras) (agora : Z) : option IndiceMetadata.t :=
  nome ← validado ("Índice " +:+ indice_id) (extra ≫= ex_nome);
  modelo ← validado "não especificado" (extra ≫= ex_modelo_embeddings);
  num_vetores ← validado 0 (extra ≫= ex_num_vetores);
  ultima ← validado agora (extra ≫= ex_ultima_atualizacao);
  tem_mapeamento ← validado true (extra ≫= ex_tem_mapeamento_ids);
  Some {|
    IndiceMetadata.id := indice_id;
    IndiceMetadata.nome := nome;
    IndiceMetadata.dimensao := dimensao;
    IndiceMetadata.modelo_embeddings := modelo;
    IndiceMetadata.num_vetores := num_vetores;
    IndiceMetadata.data_criacao := agora;
    IndiceMetadata.ultima_atualizacao := ultima;
    IndiceMetadata.tem_mapeamento_ids := tem_mapeamento
  |}.

(** The index [criar_indice] constructs for a kind: [None] when a
    constructor raises. *)
Definition construir (tipo : string) (dimensao : Z) : option Faiss.index :=
  if bool_decide (tipo = "flat") then Faiss.py_IndexFlatL2 dimensao
  else if bool_decide (tipo = "ivf") then
    quantizer ← Faiss.py_IndexFlatL2 dimensao;
    index ← Faiss.py_IndexIVFFlat quantizer dimensao 100;
    Some (Faiss.set_nprobe index 10)
  else if bool_decide (tipo = "hnsw") then Faiss.py_IndexHNSWFlat dimensao 32
  else Faiss.py_IndexFlatL2 dimensao.

(** [criar_indice]: the constructor of FAISS may raise, with nothing
    stored yet; the constructor of [IndiceMetadata] may raise, with the
    index and its empty mapping already stored.  Either way the method
    returns [False]. *)
Definition criar_indice (s : t) (indice_id : string) (dimensao : Z)
    (tipo : string) (extra : option extras) (agora : Z) : bool * t :=
  if bool_decide (is_Some (indices s !! indice_id)) then (false, s)
  else
    match construir tipo dimensao with
    | None => (false, s)
    | Some index =>
      let s1 := set_indices s (<[indice_id := index]> (indices s)) in
      let s2 := set_mapeamentos s1 (<[indice_id := ∅]> (mapeamentos s1)) in
      match validar_metadados indice_id dimensao extra agora with
      | None => (false, s2)
      | Some meta =>
          (true, set_metadados s2 (<[indice_id := meta]> (metadados s2)))
      end
    end.

(** The loop [for idx, doc in mapeamento.items():
    self.mapeamentos[indice_id][offset + idx] = doc].  The keys
    [offset + idx] of one batch are distinct, so the order of the turns
    does not show in the result. *)
Definition deslocar (offset : Z) (mapeamento anterior : gmap Z documento)
    : gmap Z documento :=
  map_fold (λ idx doc acc, <[offset + idx := doc]> acc) anterior mapeamento.

(** [if mapeamento:] is false for [None] and for the empty dictionary. *)
Definition fornecido (mapeamento : option (gmap Z documento)) : bool :=
  match mapeamento with
  | Some m => negb (bool_decide (m = ∅))
  | None => false
  end.

Definition adicionar_vetores (s : t) (indice_id : string)
    (vetores : ndarray) (mapeamento : option (gmap Z documento))
    (agora : Z) : bool * t :=
  match indices s !! indice_id with
  | None => (false, s)
  | Some ix =>
    match vetores with
    | Arr2 ncols linhas =>
      if negb (ncols =? Faiss.d ix) then (false, s)
      else
        let offset := Faiss.ntotal ix in
        match Faiss.add ix ncols linhas with
        | None => (false, s)
        | Some ix' =>
          let s1 := set_indices s (<[indice_id := ix']> (indices s)) in
          let atualizado :=
            if fornecido mapeamento then
              match mapeamentos s1 !! indice_id with
              | None => None
              | Some anterior =>
                  Some (set_mapeamentos s1
                    (<[indice_id := deslocar offset (default ∅ mapeamento) anterior]>
                       (mapeamentos s1)))
              end
            else Some s1 in
          match atualizado with
          | None => (false, s1)
          | Some s2 =>
            match metadados s2 !! indice_id with
            | None => (false, s2)
            | Some meta =>
              let meta' :=
                IndiceMetadata.set_ultima_atualizacao
                  (IndiceMetadata.set_num_vetores meta (Faiss.ntotal ix'))
                  agora in
              (true, set_metadados s2 (<[indice_id := meta']> (metadados s2)))
            end
          end
        end
    | _ => (false, s)
    end
  end.

(** [self.indices[indice_id].ntotal] and [self.mapeamentos[indice_id]], read
    from outside. *)
Definition contagem (s : t) (indice_id : string) : Z :=
  default 0 (Faiss.ntotal <$> indices s !! indice_id).
Definition slots (s : t) (indice_id : string) : gmap Z documento :=
  default ∅ (mapeamentos s !! indice_id).

(** A batch handed to [adicionar_vetores]: the array, the mapping and
    the time of the call. *)
Definition lote : Type := ndarray * option (gmap Z documento) * Z.

(** [vetores.shape[0]] *)
Definition tamanho (l : lote) : Z := default 0 (head (shape l.1.1)).

(** One step of a run: the state before the call, what the call returned,
    and the state after it. *)
Definition passo : Type := t * bool * t.

(** The calls [adicionar_vetores(indice_id, ...)] for the batches of
    [lotes], one after the other. *)
Fixpoint adicionar_lotes (s : t) (indice_id : string) (lotes : list lote)
    : list passo :=
  match lotes with
  | [] => []
  | l :: lotes' =>
      let r := adicionar_vetores s indice_id l.1.1 l.1.2 l.2 in
      (s, r.1, r.2) :: adicionar_lotes r.2 indice_id lotes'
  end.

(** An index that takes additions: it is in the store with its mapping
    and its metadata, has dimension [dim] and is trained. *)
Definition apto (s : t) (indice_id : string) (dim : Z) : Prop :=
  ∃ ix, indices s !! indice_id = Some ix
        ∧ Faiss.d ix = dim
        ∧ Faiss.is_trained ix = true
        ∧ is_Some (mapeamentos s !! indice_id)
        ∧ is_Some (metadados s !! indice_id).

(** What one accepted batch does. *)
Definition lote_aceito (indice_id : string) (l : lote) (p : passo) : Prop :=
  let '(antes, ok, depois) := p in
  ok = true
  ∧ contagem depois indice_id = contagem antes indice_id + tamanho l
  ∧ (IndiceMetadata.num_vetores <$> metadados depois !! indice_id)
    = Some (contagem depois indice_id)
  ∧ ∀ slot doc, l.1.2 ≫= (.!! slot) = Some doc →
      slots depois indice_id !! (contagem antes indice_id + slot) = Some doc.

Section carga.
(** [settings.DIRETORIO_FAISS] *)
Variable diretorio_indices : string.

Definition mais_recente (fs : Disco.t) (indice_id : string) : option string :=
  head (Py.sort_reverse
          (filter (λ f, Py.startswith (indice_id +:+ "_") f
                        && Py.endswith ".index" f = true)
                  (Disco.listdir fs diretorio_indices))).

(** [partes[1].split('.')[0] if len(partes) > 1 else None], then the
    test [if timestamp]. *)
Definition timestamp_de (nome_arquivo : string) : option string :=
  let partes := Py.split "_" nome_arquivo in
  ts ← (if 1 <? len partes then partes !! 1%nat ≫= (λ p, head (Py.split "." p))
        else None);
  if bool_decide (ts = "") then None else Some ts.

(** The file [carregar_indice] reads the index from. *)
Definition escolhido (fs : Disco.t) (indice_id : string)
    (nome_arquivo : option string) : option string :=
  match nome_arquivo with
  | Some n => Some n
  | None => mais_recente fs indice_id
  end.

Definition caminho_mapeamento (indice_id nome_arquivo : string) : option string :=
  (λ ts, Py.join diretorio_indices
           (indice_id +:+ "_" +:+ ts +:+ "_mapping.json"))
    <$> timestamp_de nome_arquivo.

Definition caminho_metadata (indice_id nome_arquivo : string) : option string :=
  (λ ts, Py.join diretorio_indices
           (indice_id +:+ "_" +:+ ts +:+ "_metadata.json"))
    <$> timestamp_de nome_arquivo.

Definition se_existe (fs : Disco.t) (caminho : string) : option string :=
  if Disco.exists_ fs caminho then Some caminho else None.

Definition carregar_indice (s : t) (fs : Disco.t) (indice_id : string)
    (nome_arquivo : option string) (agora : Z) : bool * t :=
  match escolhido fs indice_id nome_arquivo with
  | None => (false, s)
  | Some nome_arquivo =>
    let caminho_indice := Py.join diretorio_indices nome_arquivo in
    match Disco.read_index fs caminho_indice with
    | None => (false, s)
    | Some ix =>
      let s1 := set_indices s (<[indice_id := ix]> (indices s)) in
      let s2 := set_mapeamentos s1 (<[indice_id := ∅]> (mapeamentos s1)) in
      let com_mapeamento :=
        match caminho_mapeamento indice_id nome_arquivo ≫= se_existe fs with
        | Some c =>
            raw ← Disco.ler_mapeamento fs c;
            m ← converter_chaves raw;
            Some (set_mapeamentos s2 (<[indice_id := m]> (mapeamentos s2)))
        | None => Some s2
        end in
      match com_mapeamento with
      | None => (false, s2)
      | Some s3 =>
        match caminho_metadata indice_id nome_arquivo ≫= se_existe fs with
        | Some c =>
            match Disco.ler_metadata fs c with
            | None => (false, s3)
            | Some meta =>
                (true, set_metadados s3 (<[indice_id := meta]> (metadados s3)))
            end
        | None =>
            let basicos := {|
              IndiceMetadata.id := indice_id;
              IndiceMetadata.nome := "Índice " +:+ indice_id;
              IndiceMetadata.dimensao := Faiss.d ix;
              IndiceMetadata.modelo_embeddings := "desconhecido";
              IndiceMetadata.num_vetores := Faiss.ntotal ix;
              IndiceMetadata.data_criacao := agora;
              IndiceMetadata.ultima_atualizacao := agora;
              IndiceMetadata.tem_mapeamento_ids :=
                bool_decide (0 < Z.of_nat (size (default ∅ (mapeamentos s3 !! indice_id))))
            |} in
            (true, set_metadados s3 (<[indice_id := basicos]> (metadados s3)))
        end
      end
    end
  end.
End carga.

(** [1.0 - float(score) / 2.0] *)
Definition similaridade (score : float32) : pontuacao := UmMenosMetade score.

(** The body of the loop of [buscar_documentos] over
    [zip(indices, scores)]: [None] when the entry adds no result. *)
Definition documento_de (mapeamento : gmap Z documento)
    (e : Z * float32) : option (documento * pontuacao) :=
  let '(idx, score) := e in
  if bool_decide (idx ≠ -1) then
    doc ← mapeamento !! idx; Some (doc, similaridade score)
  else None.

(** The array [a] is a query for the vector [q] on an index of dimension
    [dim]: the vector itself, or a matrix with [q] as its first row. *)
Definition consulta_de (a : ndarray) (q : vetor) (dim : Z) : Prop :=
  (a = Arr1 q ∧ len q = dim) ∨ (∃ resto, a = Arr2 dim (q :: resto)).

(** The rows of the array that [buscar] hands to FAISS. *)
Definition linhas_de (a : ndarray) : list vetor :=
  match a with
  | Arr1 v => [v]
  | Arr2 _ linhas => linhas
  | ArrN _ => []
  end.

Section busca.
(** The library at work in [index.search]. *)
Variable faiss : Faiss.biblioteca.

Definition buscar (s : t) (indice_id : string) (vetor_consulta : ndarray)
    (k : Z) : list Z * list float32 :=
  match indices s !! indice_id with
  | None => ([], [])
  | Some ix =>
    let vetor_consulta :=
      match vetor_consulta with
      | Arr1 v => Arr2 (len v) [v]
      | a => a
      end in
    match vetor_consulta with
    | Arr2 ncols consultas =>
      if negb (ncols =? Faiss.d ix) then ([], [])
      else
        match Faiss.search faiss ix ncols consultas k with
        | None => ([], [])
        | Some (D_, I_) =>
          match I_ !! 0%nat, D_ !! 0%nat with
          | Some indices, Some scores => (indices, scores)
          | _, _ => ([], [])
          end
        end
    | _ => ([], [])
    end
  end.

Definition buscar_documentos (s : t) (indice_id : string)
    (vetor_consulta : ndarray) (k : Z) : list (documento * pontuacao) :=
  match indices s !! indice_id, mapeamentos s !! indice_id with
  | Some _, Some mapeamento =>
    if bool_decide (mapeamento = ∅) then []
    else
      let '(indices, scores) := buscar s indice_id vetor_consulta k in
      omap (documento_de mapeamento) (zip indices scores)
  | _, _ => []
  end.
End busca.

(** *** Removing, describing and saving an index *)

Definition remover_indice (s : t) (indice_id : string) : bool * t :=
  match indices s !! indice_id with
  | None => (false, s)
  | Some _ =>
      (true,
       {| indices := delete indice_id (indices s);
          metadados := delete indice_id (metadados s);
          mapeamentos := delete indice_id (mapeamentos s) |})
  end.

(** [type(index).__name__] *)
Definition nome_da_classe (ix : Faiss.index) : string :=
  match Faiss.cls ix with
  | Faiss.IndexFlatL2 => "IndexFlatL2"
  | Faiss.IndexIVFFlat _ _ => "IndexIVFFlat"
  | Faiss.IndexHNSWFlat _ => "IndexHNSWFlat"
  end.

(** The dictionary [obter_info_indice] returns.  The keys [id],
    [dimensao] and [num_vetores] are first taken from the index and then
    overwritten by [info.update(metadata.dict())] when the index has
    metadata; [info_metadata] holds the keys that only the metadata has. *)
Record info := {
  info_id : string;
  info_tipo : string;
  info_dimensao : Z;
  info_num_vetores : Z;
  info_tem_mapeamento : bool;
  info_num_documentos : Z;
  info_metadata : option IndiceMetadata.t
}.

Definition obter_info_indice (s : t) (indice_id : string) : option info :=
  match indices s !! indice_id with
  | None => None
  | Some index =>
      let metadata := metadados s !! indice_id in
      Some {|
        info_id := default indice_id (IndiceMetadata.id <$> metadata);
        info_tipo := nome_da_classe index;
        info_dimensao :=
          default (Faiss.d index) (IndiceMetadata.dimensao <$> metadata);
        info_num_vetores :=
          default (Faiss.ntotal index) (IndiceMetadata.num_vetores <$> metadata);
        info_tem_mapeamento :=
          match mapeamentos s !! indice_id with
          | Some m => negb (bool_decide (m = ∅))
          | None => false
          end;
        info_num_documentos := Z.of_nat (size (slots s indice_id));
        info_metadata := metadata
      |}
  end.

(** [[self.obter_info_indice(indice_id) for indice_id in self.indices.keys()]] *)
Definition listar_indices (s : t) : list (option info) :=
  (λ e, obter_info_indice s e.1) <$> map_to_list (indices s).

Section persistencia.
(** [settings.DIRETORIO_FAISS] and [datetime.now().strftime(formato)] *)
Variable diretorio_indices : string.
Variable strftime : Z → string → string.
(** Whether a file can be created at a path of the disk. *)
Variable pode_gravar : Disco.t → string → bool.

Definition arquivo_de (indice_id timestamp sufixo : string) : string :=
  Py.join diretorio_indices (indice_id +:+ "_" +:+ timestamp +:+ sufixo).

(** The files of the snapshot of [indice_id] at [timestamp] can be
    created, whatever is on the disk. *)
Definition gravavel (indice_id timestamp : string) : Prop :=
  ∀ fs sufixo, pode_gravar fs (arquivo_de indice_id timestamp sufixo) = true.

(** [salvar_indice]: the index file, the mapping file when the mapping is
    not empty, then the metadata.  A file that cannot be created ends the
    method with [False], with what was written before on the disk.
    [json.dump] of [self.metadados[indice_id].dict()] raises [TypeError]:
    the dictionary holds the [datetime] objects of [data_criacao] and
    [ultima_atualizacao], which [json] cannot encode.  The file it had
    opened for writing is left with the text before the first of them,
    which is not a JSON document, and the method returns [False].  The
    two readings of the clock are taken to give the same [agora]. *)
Definition salvar_indice (s : t) (fs : Disco.t) (indice_id : string)
    (agora : Z) : bool * t * Disco.t :=
  match indices s !! indice_id with
  | None => (false, s, fs)
  | Some ix =>
    let timestamp := strftime agora "%Y%m%d%H%M%S" in
    match Disco.gravar pode_gravar fs
            (arquivo_de indice_id timestamp ".index") (ArqIndice ix) with
    | None => (false, s, fs)
    | Some fs1 =>
      let com_mapeamento :=
        match mapeamentos s !! indice_id with
        | Some m =>
            if bool_decide (m = ∅) then Some fs1
            else Disco.gravar pode_gravar fs1
                   (arquivo_de indice_id timestamp "_mapping.json")
                   (ArqMapeamento (serializar m))
        | None => Some fs1
        end in
      match com_mapeamento with
      | None => (false, s, fs1)
      | Some fs2 =>
        match metadados s !! indice_id with
        | None => (true, s, fs2)
        | Some meta =>
          let s1 :=
            set_metadados s
              (<[indice_id := IndiceMetadata.set_ultima_atualizacao meta agora]>
                 (metadados s)) in
          match Disco.gravar pode_gravar fs2
                  (arquivo_de indice_id timestamp "_metadata.json") ArqOutro with
          | None => (false, s1, fs2)
          | Some fs3 => (false, s1, fs3)
          end
        end
      end
    end
  end.
End persistencia.

(** *** Loading what the directory has *)

(** [indices_por_id[indice_id].append(arquivo)], the dictionary as the
    list of its items in insertion order. *)
Fixpoint anexar (indice_id arquivo : string)
    (grupos : list (string * list string)) : list (string * list string) :=
  match grupos with
  | [] => [(indice_id, [arquivo])]
  | (i, arquivos) :: resto =>
      if bool_decide (i = indice_id) then (i, arquivos ++ [arquivo]) :: resto
      else (i, arquivos) :: anexar indice_id arquivo resto
  end.

(** The loop that groups the index files by [arquivo.split('_')[0]]; a
    name without ["_"] is skipped. *)
Definition agrupar (arquivos : list string) : list (string * list string) :=
  foldl (λ grupos arquivo,
           match Py.split "_" arquivo with
           | indice_id :: _ :: _ => anexar indice_id arquivo grupos
           | _ => grupos
           end)
        [] arquivos.

Section inicializacao.
Variable diretorio_indices : string.

(** One turn of the loop over [indices_por_id.items()]; a group is never
    empty, so [arquivos[0]] is there. *)
Definition carregar_grupo (fs : Disco.t) (agora : Z) (s : t)
    (grupo : string * list string) : t :=
  match Py.sort_reverse grupo.2 with
  | arquivo_mais_recente :: _ =>
      (carregar_indice diretorio_indices s fs grupo.1
         (Some arquivo_mais_recente) agora).2
  | [] => s
  end.

(** [inicializar], with the flag [self.inicializado] as an argument and as
    the first component of the result. *)
Definition inicializar (inicializado : bool) (s : t) (fs : Disco.t)
    (agora : Z) : bool * t :=
  if inicializado then (true, s)
  else
    let arquivos_indice :=
      filter (λ f, Py.endswith ".index" f = true)
             (Disco.listdir fs diretorio_indices) in
    (true, foldl (carregar_grupo fs agora) s (agrupar arquivos_indice)).
End inicializacao.

(** *** Invariants of the store *)

(** Every key of the slot mapping of [indice_id] is a slot of its index. *)
Definition slots_validos (s : t) (indice_id : string) : Prop :=
  ∀ slot, is_Some (slots s indice_id !! slot) → 0 ≤ slot < contagem s indice_id.

(** The metadata of [indice_id] describes its index. *)
Definition metadados_coerentes (s : t) (indice_id : string) : Prop :=
  ∃ ix meta,
    indices s !! indice_id = Some ix
    ∧ metadados s !! indice_id = Some meta
    ∧ IndiceMetadata.id meta = indice_id
    ∧ IndiceMetadata.dimensao meta = Faiss.d ix
    ∧ IndiceMetadata.num_vetores meta = Faiss.ntotal ix.

(** The metadata describes the index and the id has a slot mapping: the
    state [criar_indice] leaves. *)
Definition integro (s : t) (indice_id : string) : Prop :=
  metadados_coerentes s indice_id ∧ is_Some (mapeamentos s !! indice_id).

(** [self.indices[indice_id]]'s stored vectors, in slot order. *)
Definition vetores (s : t) (indice_id : string) : list vetor :=
  default [] (Faiss.xb <$> indices s !! indice_id).

(** [indice_id] is nowhere in the store. *)
Definition ausente (s : t) (indice_id : string) : Prop :=
  indices s !! indice_id = None
  ∧ metadados s !! indice_id = None
  ∧ mapeamentos s !! indice_id = None.

(** The two states agree on every id but [indice_id]. *)
Definition iguais_fora (s s' : t) (indice_id : string) : Prop :=
  ∀ outro, outro ≠ indice_id →
    indices s' !! outro = indices s !! outro
    ∧ metadados s' !! outro = metadados s !! outro
    ∧ mapeamentos s' !! outro = mapeamentos s !! outro.

End FaissService.

(** ** [EmbeddingsService] *)

Module EmbeddingsService.

(** The service with the part of the world its methods act on:
    [chamadas] lists the inputs of the requests sent to the embeddings
    API and [salvamentos] the cache contents handed to each call of
    [salvar_cache], oldest first. *)
Record t := {
  cache_embeddings : gmap string vetor;
  index : option Faiss.index;
  indice_metadata : option IndiceMetadata.t;
  id_para_documento : gmap Z documento;
  chamadas : list (list string);
  salvamentos : list (gmap string vetor)
}.

(** [EmbeddingsService()] *)
Definition novo : t :=
  {| cache_embeddings := ∅; index := None; indice_metadata := None;
     id_para_documento := ∅; chamadas := []; salvamentos := [] |}.

Definition set_cache (s : t) (c : gmap string vetor) : t :=
  {| cache_embeddings := c; index := index s;
     indice_metadata := indice_metadata s;
     id_para_documento := id_para_documento s;
     chamadas := chamadas s; salvamentos := salvamentos s |}.

Definition registrar_chamada (s : t) (entrada : list string) : t :=
  {| cache_embeddings := cache_embeddings s; index := index s;
     indice_metadata := indice_metadata s;
     id_para_documento := id_para_documento s;
     chamadas := chamadas s ++ [entrada]; salvamentos := salvamentos s |}.

(** [salvar_cache]: writes the whole cache to a new file; its own
    [try ... except] swallows every I/O error, so it never raises. *)
Definition salvar_cache (s : t) : t :=
  {| cache_embeddings := cache_embeddings s; index := index s;
     indice_metadata := indice_metadata s;
     id_para_documento := id_para_documento s;
     chamadas := chamadas s;
     salvamentos := salvamentos s ++ [cache_embeddings s] |}.

Definition set_indice (s : t) (ix : option Faiss.index)
    (meta : option IndiceMetadata.t) (docs : gmap Z documento) : t :=
  {| cache_embeddings := cache_embeddings s; index := ix;
     indice_metadata := meta; id_para_documento := docs;
     chamadas := chamadas s; salvamentos := salvamentos s |}.

(** *** The files of the cache directory *)

(** A file of the cache directory as [carregar_cache] reads it: a JSON
    object, given by its entries in file order, each with the vector that
    [np.array(dados["embedding"], dtype=np.float32)] gives, or [None] when
    that expression raises; or a file that [json.load] does not read as
    an object. *)
Inductive arquivo_cache :=
  | CacheJson (entradas : list (string * option vetor))
  | CacheIlegivel.

(** The loop over [cache_data.items()]: the entry that raises ends the
    work on its file, the entries before it stay in the cache. *)
Fixpoint carregar_entradas (entradas : list (string * option vetor))
    (cache : gmap string vetor) : gmap string vetor :=
  match entradas with
  | [] => cache
  | (chave, Some embedding) :: entradas' =>
      carregar_entradas entradas' (<[chave := embedding]> cache)
  | (_, None) :: _ => cache
  end.

Definition carregar_arquivo (cache : gmap string vetor) (a : arquivo_cache)
    : gmap string vetor :=
  match a with
  | CacheJson entradas => carregar_entradas entradas cache
  | CacheIlegivel => cache
  end.

(** [carregar_cache], given the [.json] files of the cache directory in
    the order [os.listdir] has them (none when [os.listdir] raises). *)
Definition carregar_cache (s : t) (arquivos_cache : list arquivo_cache) : t :=
  set_cache s (foldl carregar_arquivo (cache_embeddings s) arquivos_cache).

(** The file [salvar_cache] writes for the cache it is handed: one entry
    per key, with the list of the vector under ["embedding"]. *)
Definition arquivo_salvo (cache : gmap string vetor) : arquivo_cache :=
  CacheJson ((λ e, (e.1, Some e.2)) <$> map_to_list cache).

(** Every cache file written so far holds entries that the cache in
    memory still has, with the same vectors. *)
Definition salvos_no_cache (s : t) : Prop :=
  Forall (λ c, c ⊆ cache_embeddings s) (salvamentos s).

Section servico.
(** [settings.MODELO_EMBEDDINGS], [settings.DIMENSAO_EMBEDDINGS] and
    [settings.DIRETORIO_FAISS] *)
Variable modelo_embeddings : string.
Variable dimensao_embeddings : Z.
Variable diretorio_faiss : string.

(** [hashlib.md5(texto.encode()).hexdigest()] *)
Variable md5 : string → string.

(** [self.client.embeddings.create(model, input)]: the answer of the
    API to the request number [n] (counting from 0) with the given
    inputs, one embedding per element of [response.data]; [None] when
    the call raises. *)
Variable openai : nat → list string → option (list vetor).

Definition chave_cache (texto : string) : string :=
  md5 texto +:+ "_" +:+ modelo_embeddings.

Definition gerar_embedding (s : t) (texto : string) : vetor * t :=
  let chave := chave_cache texto in
  match cache_embeddings s !! chave with
  | Some embedding => (embedding, s)
  | None =>
    let response := openai (length (chamadas s)) [texto] in
    let s1 := registrar_chamada s [texto] in
    match response with
    | Some (embedding :: _) =>
      let s2 := set_cache s1 (<[chave := embedding]> (cache_embeddings s1)) in
      let s3 :=
        if Z.of_nat (size (cache_embeddings s2)) mod 10 =? 0
        then salvar_cache s2 else s2 in
      (embedding, s3)
    | _ => (zeros dimensao_embeddings, s1)
    end
  end.

(** The loop over [enumerate(response.data)]: [pendentes] pairs
    [indices_para_processar] with [textos_para_processar]; the flag is
    false when [indices_para_processar[i]] raises [IndexError]. *)
Fixpoint processar (pendentes : list (nat * string)) (data : list vetor)
    (cache : gmap string vetor) (embeddings : list (option vetor))
    {struct data} : bool * gmap string vetor * list (option vetor) :=
  match data with
  | [] => (true, cache, embeddings)
  | embedding :: data' =>
    match pendentes with
    | [] => (false, cache, embeddings)
    | (idx, texto) :: pendentes' =>
        processar pendentes' data'
          (<[chave_cache texto := embedding]> cache)
          (<[idx := Some embedding]> embeddings)
    end
  end.

(** [for idx in indices_para_processar: if embeddings[idx] is None: ...] *)
Definition preencher_zeros (indices_para_processar : list nat)
    (embeddings : list (option vetor)) : list (option vetor) :=
  foldl (λ acc idx,
           match acc !! idx with
           | Some None => <[idx := Some (zeros dimensao_embeddings)]> acc
           | _ => acc
           end)
        embeddings indices_para_processar.

(** The texts that are not in the cache, with their positions:
    [indices_para_processar] and [textos_para_processar]. *)
Definition pendentes (s : t) (textos : list string) : list (nat * string) :=
  omap (λ c, c)
    (imap (λ i texto,
             match cache_embeddings s !! chave_cache texto with
             | Some _ => None
             | None => Some (i, texto)
             end) textos).

(** An element [None] of the result is a position left unfilled. *)
Definition gerar_embeddings_batch (s : t) (textos : list string)
    : list (option vetor) * t :=
  let embeddings := map (λ texto, cache_embeddings s !! chave_cache texto) textos in
  let indices_para_processar := (pendentes s textos).*1 in
  let textos_para_processar := (pendentes s textos).*2 in
  match textos_para_processar with
  | [] => (embeddings, s)
  | _ =>
    let response := openai (length (chamadas s)) textos_para_processar in
    let s1 := registrar_chamada s textos_para_processar in
    match response with
    | Some data =>
      let '(ok, cache, embeddings) :=
        processar (pendentes s textos) data (cache_embeddings s1) embeddings in
      let s2 := set_cache s1 cache in
      if ok then (embeddings, salvar_cache s2)
      else (preencher_zeros indices_para_processar embeddings, s2)
    | None => (preencher_zeros indices_para_processar embeddings, s1)
    end
  end.

(** *** Loading the index *)

(** [datetime.now().strftime(formato)] *)
Variable strftime : Z → string → string.

Definition primeiro_com (fs : Disco.t) (prefixo sufixo : string) : option string :=
  Py.join diretorio_faiss <$>
    head (Py.sort_reverse
            (filter (λ f, Py.startswith prefixo f && Py.endswith sufixo f = true)
                    (Disco.listdir fs diretorio_faiss))).

Definition se_existe (fs : Disco.t) (caminho : string) : option string :=
  if Disco.exists_ fs caminho then Some caminho else None.

(** The three paths [carregar_indice_faiss] settles on before it reads
    anything, without an explicit path ([not caminho_indice]); [None]
    when the directory has no index file. *)
Definition caminhos_recentes (fs : Disco.t)
    : option (string * option string * option string) :=
  match Py.sort_reverse
          (filter (λ f, Py.endswith ".index" f = true)
                  (Disco.listdir fs diretorio_faiss)) with
  | [] => None
  | arquivo :: _ =>
    let prefixo := default "" (head (Py.split "_" arquivo)) in
    Some (Py.join diretorio_faiss arquivo,
          primeiro_com fs prefixo "_mapping.json",
          primeiro_com fs prefixo "_metadata.json")
  end.

(** The same with an explicit path. *)
Definition caminhos_derivados (fs : Disco.t) (caminho_indice : string)
    : string * option string * option string :=
  let base_name := Py.remove_all ".index" (Py.basename caminho_indice) in
  let dir_name := Py.dirname caminho_indice in
  (caminho_indice,
   se_existe fs (Py.join dir_name (base_name +:+ "_mapping.json")),
   se_existe fs (Py.join dir_name (base_name +:+ "_metadata.json"))).

Definition caminhos (fs : Disco.t) (caminho_indice : option string)
    : option (string * option string * option string) :=
  match caminho_indice with
  | Some c =>
      if bool_decide (c = "") then caminhos_recentes fs
      else Some (caminhos_derivados fs c)
  | None => caminhos_recentes fs
  end.

Definition carregar_indice_faiss (s : t) (fs : Disco.t)
    (caminho_indice : option string) (agora : Z) : bool * t :=
  match caminhos fs caminho_indice with
  | None => (false, s)
  | Some (caminho_indice, caminho_mapeamento, caminho_metadata) =>
    match Disco.read_index fs caminho_indice with
    | None => (false, s)
    | Some ix =>
      let s1 := set_indice s (Some ix) (indice_metadata s) (id_para_documento s) in
      let com_mapeamento :=
        match caminho_mapeamento ≫= se_existe fs with
        | Some c =>
            raw ← Disco.ler_mapeamento fs c;
            m ← converter_chaves raw;
            Some (set_indice s1 (index s1) (indice_metadata s1) m)
        | None => Some (set_indice s1 (index s1) (indice_metadata s1) ∅)
        end in
      match com_mapeamento with
      | None => (false, s1)
      | Some s2 =>
        match caminho_metadata ≫= se_existe fs with
        | Some c =>
            match Disco.ler_metadata fs c with
            | None => (false, s2)
            | Some meta =>
                (true, set_indice s2 (index s2) (Some meta) (id_para_documento s2))
            end
        | None =>
            let basicos := {|
              IndiceMetadata.id :=
                "indice_carregado_" +:+ strftime agora "%Y%m%d%H%M%S";
              IndiceMetadata.nome :=
                "Índice carregado em " +:+ strftime agora "%d/%m/%Y %H:%M";
              IndiceMetadata.dimensao := Faiss.d ix;
              IndiceMetadata.modelo_embeddings := modelo_embeddings;
              IndiceMetadata.num_vetores := Faiss.ntotal ix;
              IndiceMetadata.data_criacao := agora;
              IndiceMetadata.ultima_atualizacao := agora;
              IndiceMetadata.tem_mapeamento_ids :=
                bool_decide (0 < Z.of_nat (size (id_para_documento s2)))
            |} in
            (true, set_indice s2 (index s2) (Some basicos) (id_para_documento s2))
        end
      end
    end
  end.

(** *** Filtered search *)

(** The library at work in [index.search]. *)
Variable faiss : Faiss.biblioteca.

(** What [getattr(doc, chave)] finds: a value ([Dado]), or an object that
    no filter value equals such as a bound method ([Objeto]). *)
Inductive atributo :=
  | Dado (v : valor)
  | Objeto.

(** The attributes Python resolves on the class of the object rather than
    in its data: those of [dict] ([keys] and [items] are methods,
    [__doc__] is a string) and those of the pydantic models ([dict] and
    [json] are methods).  [None] is a name the class does not have. *)
Variable atributo_dict : string → option atributo.
Variable atributo_modelo : string → option atributo.

Definition da_classe (doc : documento) (chave : string) : option atributo :=
  match doc with
  | Modelo _ => atributo_modelo chave
  | Dict _ => atributo_dict chave
  end.

(** [hasattr(doc, chave)] is [is_Some (getattr doc chave)]: the fields of a
    model are attributes, the items of a [dict] are not. *)
Definition getattr (doc : documento) (chave : string) : option atributo :=
  match doc with
  | Modelo campos =>
      match campos !! chave with
      | Some v => Some (Dado v)
      | None => da_classe doc chave
      end
  | Dict _ => da_classe doc chave
  end.

(** [chave in doc] and [doc[chave]]: membership in a pydantic model
    iterates over its [(name, value)] pairs, which a string never
    equals. *)
Definition getitem (doc : documento) (chave : string) : option valor :=
  match doc with
  | Modelo _ => None
  | Dict itens => itens !! chave
  end.

(** One turn of the loop over [filtro.items()]: false is
    [atende_filtro = False; break]. *)
Definition atende (doc : documento) (par : string * valor) : bool :=
  let '(chave, valor) := par in
  match getattr doc chave with
  | Some (Dado v) => py_eq v valor
  | Some Objeto => false
  | None =>
      match getitem doc chave with
      | Some v => py_eq v valor
      | None => false
      end
  end.

Definition atende_filtro (doc : documento)
    (filtro : option (list (string * valor))) : bool :=
  match filtro with
  | None | Some [] => true
  | Some pares => forallb (atende doc) pares
  end.

(** [1.0 - float(distances[0][i]) / 2.0] *)
Definition score_de (distancia : float32) : pontuacao :=
  UmMenosMetade distancia.

(** The body of the loop over [enumerate(indices[0])]. *)
Definition resultado (docs : gmap Z documento)
    (filtro : option (list (string * valor)))
    (distancias : list float32) (i : nat) (idx : Z)
    : option (documento * pontuacao) :=
  if bool_decide (idx = -1) then None
  else
    doc ← docs !! idx;
    distancia ← distancias !! i;
    if atende_filtro doc filtro then Some (doc, score_de distancia) else None.

(** The body of the loop on one entry [(idx, distancia)] of the ranking. *)
Definition entrada (docs : gmap Z documento)
    (filtro : option (list (string * valor)))
    (e : Z * float32) : option (documento * pontuacao) :=
  resultado docs filtro [e.2] 0 e.1.

(** The value a document has under a key, as Python looks it up: the
    attribute of that name when there is one, the item of that key
    otherwise. *)
Definition valor_sob (doc : documento) (chave : string) : option valor :=
  match getattr doc chave with
  | Some (Dado v) => Some v
  | Some Objeto => None
  | None => getitem doc chave
  end.

(** A document satisfies a filter when it has, under every key of the
    filter, a value equal to the one the filter asks for; for a key that
    is not the name of an attribute of its class, that value is a stored
    field of the document. *)
Definition satisfaz (doc : documento) (filtro : option (list (string * valor)))
    : Prop :=
  ∀ chave valor, (chave, valor) ∈ default [] filtro →
    ∃ v, valor_sob doc chave = Some v ∧ py_eq v valor = true
         ∧ (da_classe doc chave = None → campo doc chave = Some v).

Definition buscar (s : t) (texto_consulta : string) (k : Z)
    (filtro : option (list (string * valor)))
    : list (documento * pontuacao) * t :=
  match index s with
  | None => ([], s)
  | Some ix =>
    let '(embedding_consulta, s1) := gerar_embedding s texto_consulta in
    match Faiss.search faiss ix (len embedding_consulta)
            [embedding_consulta] k with
    | None => ([], s1)
    | Some (distances, indices) =>
      match indices !! 0%nat, distances !! 0%nat with
      | Some indices0, Some distances0 =>
        (omap (λ c, c)
           (imap (resultado (id_para_documento s1) filtro distances0) indices0),
         s1)
      | _, _ => ([], s1)
      end
    end
  end.
(** *** Building and saving the index *)

(** The loop over [enumerate(documentos)]: the embeddings that are there,
    in order, and the documents that have one under their position in
    [documentos]. *)
Definition extrair (documentos : list DocumentoEmbedding.t)
    : list vetor * gmap Z documento :=
  foldl (λ acc p,
           match DocumentoEmbedding.embedding p.2 with
           | Some e =>
               (acc.1 ++ [e],
                <[Z.of_nat p.1 := DocumentoEmbedding.documento p.2]> acc.2)
           | None => acc
           end)
        ([], ∅) (imap pair documentos).

(** [nome_indice or padrao] *)
Definition nome_ou (nome_indice : option string) (padrao : string) : string :=
  match nome_indice with
  | Some n => if bool_decide (n = "") then padrao else n
  | None => padrao
  end.

(** Whether a file can be created at a path of the disk. *)
Variable pode_gravar : Disco.t → string → bool.

(** [salvar_indice_faiss]: the index file, the mapping file, then the
    metadata.  A file that cannot be created ends the method with
    [False].  As in [FaissService.salvar_indice], [json.dump] of
    [self.indice_metadata.dict()] raises [TypeError] on the [datetime] of
    [data_criacao]: the metadata file is left unreadable and the method
    returns [False]; its [return True] is never reached. *)
Definition salvar_indice_faiss (s : t) (fs : Disco.t) (agora : Z)
    : bool * t * Disco.t :=
  match index s, indice_metadata s with
  | Some ix, Some meta =>
    let timestamp := strftime agora "%Y%m%d%H%M%S" in
    let indice_id := IndiceMetadata.id meta in
    let caminho_indice :=
      Py.join diretorio_faiss (indice_id +:+ "_" +:+ timestamp +:+ ".index") in
    match Disco.gravar pode_gravar fs caminho_indice (ArqIndice ix) with
    | None => (false, s, fs)
    | Some fs1 =>
      let caminho_mapeamento :=
        Py.join diretorio_faiss
          (indice_id +:+ "_" +:+ timestamp +:+ "_mapping.json") in
      match Disco.gravar pode_gravar fs1 caminho_mapeamento
              (ArqMapeamento (serializar (id_para_documento s))) with
      | None => (false, s, fs1)
      | Some fs2 =>
        let s1 :=
          set_indice s (index s)
            (Some (IndiceMetadata.set_ultima_atualizacao meta agora))
            (id_para_documento s) in
        let caminho_metadata :=
          Py.join diretorio_faiss
            (indice_id +:+ "_" +:+ timestamp +:+ "_metadata.json") in
        match Disco.gravar pode_gravar fs2 caminho_metadata ArqOutro with
        | None => (false, s1, fs2)
        | Some fs3 => (false, s1, fs3)
        end
      end
    end
  | _, _ => (false, s, fs)
  end.

(** [construir_indice_faiss].  [np.array(embeddings, dtype=np.float32)]
    raises when the embeddings differ in length.  The dimension handed
    to [faiss.IndexFlatL2] is the row length of that array, which fits a
    C [int]: the constructor does not raise and the index has that
    dimension.  What [salvar_indice_faiss] returns is not looked at. *)
Definition construir_indice_faiss (s : t) (fs : Disco.t)
    (documentos : list DocumentoEmbedding.t) (nome_indice : option string)
    (agora : Z) : bool * t * Disco.t :=
  match documentos with
  | [] => (false, s, fs)
  | _ =>
    let '(embeddings, ids) := extrair documentos in
    match embeddings with
    | [] => (false, s, fs)
    | e :: _ =>
      if negb (forallb (λ v, len v =? len e) embeddings) then (false, s, fs)
      else
        let dimension := len e in
        let vazio := Faiss.novo_IndexFlatL2 dimension in
        match Faiss.add vazio dimension embeddings with
        | None =>
            (false, set_indice s (Some vazio) (indice_metadata s)
                      (id_para_documento s), fs)
        | Some ix =>
          let indice_id :=
            nome_ou nome_indice ("indice_" +:+ strftime agora "%Y%m%d%H%M%S") in
          let meta := {|
            IndiceMetadata.id := indice_id;
            IndiceMetadata.nome :=
              nome_ou nome_indice
                ("Índice FAISS " +:+ strftime agora "%d/%m/%Y %H:%M");
            IndiceMetadata.dimensao := dimension;
            IndiceMetadata.modelo_embeddings := modelo_embeddings;
            IndiceMetadata.num_vetores := len embeddings;
            IndiceMetadata.data_criacao := agora;
            IndiceMetadata.ultima_atualizacao := agora;
            IndiceMetadata.tem_mapeamento_ids := true
          |} in
          let s1 := set_indice s (Some ix) (Some meta) ids in
          let salvo := salvar_indice_faiss s1 fs agora in
          (true, salvo.1.2, salvo.2)
        end
    end
  end.

(** *** Looking up a client and its invoices *)

(** [hasattr(doc, "matricula") and doc.matricula == matricula], or else
    [isinstance(doc, dict) and doc.get("matricula") == matricula]. *)
Definition e_o_cliente (doc : documento) (matricula : string) : bool :=
  match getattr doc "matricula" with
  | Some (Dado v) => py_eq v (VStr matricula)
  | _ => false
  end
  || match doc with
     | Dict itens =>
         match itens !! "matricula" with
         | Some v => py_eq v (VStr matricula)
         | None => false
         end
     | Modelo _ => false
     end.

(** [buscar_cliente_por_matricula], given what
    [db.buscar_documentos("clientes", {"numeroCliente": matricula})]
    returned. *)
Definition buscar_cliente_por_matricula (s : t) (clientes : list documento)
    (matricula : string) : option documento * t :=
  match clientes with
  | cliente :: _ => (Some cliente, s)
  | [] =>
    match index s with
    | Some _ =>
      let consulta := "Informações do cliente com matrícula " +:+ matricula in
      let '(resultados, s1) :=
        buscar s consulta 5 (Some [("tipo", VStr "cliente_info")]) in
      (head (filter (λ doc, e_o_cliente doc matricula = true) resultados.*1), s1)
    | None => (None, s)
    end
  end.

(** [buscar_faturas_cliente], given what
    [db.buscar_documentos("faturas", {"cliente_id": cliente_id})]
    returned. *)
Definition buscar_faturas_cliente (s : t) (faturas : list documento)
    (cliente_id : string) : list documento * t :=
  match faturas with
  | _ :: _ => (faturas, s)
  | [] =>
    match index s with
    | Some _ =>
      let consulta := "Faturas do cliente " +:+ cliente_id in
      let '(resultados, s1) :=
        buscar s consulta 20
          (Some [("tipo", VStr "fatura"); ("cliente_id", VStr cliente_id)]) in
      (resultados.*1, s1)
    | None => ([], s)
    end
  end.
End servico.

End EmbeddingsService.

Module Exemplos.
Import FaissService.

Definition doc (nome : string) : documento :=
  Dict {[ "id" := VStr nome ]}.

(** The vectors of the examples have integer components. *)
Definition vec (l : list Z) : vetor := (λ z, Finito (inject_Z z)) <$> l.
Definition linhas (l : list (list Z)) : list vetor := vec <$> l.

Definition s0 : t := (criar_indice novo "idx" 3 "flat" None 0).2.
Definition s1 : t :=
  (adicionar_vetores s0 "idx" (Arr2 3 (linhas [[1;0;0]; [0;1;0]; [0;0;1]]))
     (Some {[ 0 := doc "A"; 1 := doc "B"; 2 := doc "C" ]}) 1).2.

Definition ix1 : Faiss.index :=
  {| Faiss.cls := Faiss.IndexFlatL2; Faiss.d := 3; Faiss.is_trained := true;
     Faiss.xb := linhas [[1;0;0]; [0;1;0]; [0;0;1]] |}.

(** The library of the examples.  It allocates the results for any [k]
    that fits 31 bits and reaches every slot.  Its distance is the
    squared Euclidean distance in exact arithmetic, which is what 32-bit
    floats give on the vectors of small integers of the examples; a
    vector with a component that is not finite is at distance NaN.  No
    two candidates of the examples are at the same distance from the
    query, so that the rank of a slot among equals plays no part. *)
Definition l2sqr (x y : vetor) : float32 :=
  foldr (λ par acc,
           match par, acc with
           | (Finito a, Finito b), Finito total =>
               Finito (Qred ((a - b) * (a - b) + total))
           | _, _ => NaN
           end)
        (Finito 0) (zip x y).

Definition exata : Faiss.biblioteca :=
  {| Faiss.aloca := λ _ k, k <? 2 ^ 31;
     Faiss.examinar := λ ix _ _ q slot,
       {| Faiss.visto := true;
          Faiss.medida := l2sqr q (default [] (Faiss.xb ix !! slot));
          Faiss.prioridade := Z.of_nat slot |} |}.

(** A snapshot on disk whose three files disagree: the index file has one
    vector of dimension 3, the metadata says dimension 5 and ten vectors,
    and the mapping has an entry for slot 7. *)
Definition ix_um : Faiss.index :=
  {| Faiss.cls := Faiss.IndexFlatL2; Faiss.d := 3; Faiss.is_trained := true;
     Faiss.xb := linhas [[1;0;0]] |}.

Definition meta_outra : IndiceMetadata.t :=
  {| IndiceMetadata.id := "idx"; IndiceMetadata.nome := "faturas";
     IndiceMetadata.dimensao := 5; IndiceMetadata.modelo_embeddings := "m";
     IndiceMetadata.num_vetores := 10; IndiceMetadata.data_criacao := 0;
     IndiceMetadata.ultima_atualizacao := 0;
     IndiceMetadata.tem_mapeamento_ids := true |}.

Definition raw_7 : list (chave_json * gmap string valor) :=
  [ (ChaveAscii "0", {[ "id" := VStr "A" ]});
    (ChaveAscii "7", {[ "id" := VStr "B" ]}) ].

Definition disco : Disco.t :=
  {[ "faiss/idx_20240101.index" := ArqIndice ix_um;
     "faiss/idx_20240101_mapping.json" := ArqMapeamento raw_7;
     "faiss/idx_20240101_metadata.json" := ArqMetadata meta_outra ]}.

(** The same snapshot with a mapping key that is not an integer. *)
Definition disco_chave_ruim : Disco.t :=
  <[ "faiss/idx_20240101_mapping.json" :=
       ArqMapeamento [ (ChaveAscii "zero", {[ "id" := VStr "A" ]}) ] ]> disco.

(** An [EmbeddingsService] with the three unit vectors indexed: two
    invoices, as the [dict]s a load leaves, and a client, as a model. *)
Definition documentos : gmap Z documento :=
  {[ 0 := Dict {[ "tipo" := VStr "fatura"; "cliente_id" := VStr "c1" ]};
     1 := Modelo {[ "tipo" := VStr "cliente_info"; "cliente_id" := VStr "c1" ]};
     2 := Dict {[ "tipo" := VStr "fatura"; "cliente_id" := VStr "c2" ]} ]}.

Definition es1 : EmbeddingsService.t :=
  EmbeddingsService.set_indice EmbeddingsService.novo (Some ix1) None documentos.

(** The same index with three [dict]s, as a load leaves them. *)
Definition es_dicts : EmbeddingsService.t :=
  EmbeddingsService.set_indice EmbeddingsService.novo (Some ix1) None
    (como_dict <$> documentos).

(** Of the attributes of the classes, the examples know the method
    [keys] of [dict]. *)
Definition so_keys : string → option EmbeddingsService.atributo :=
  λ chave, if bool_decide (chave = "keys")
           then Some EmbeddingsService.Objeto else None.

(** The same with the attribute [__hash__] of [dict], which is [None]: a
    [dict] cannot be hashed. *)
Definition com_hash : string → option EmbeddingsService.atributo :=
  λ chave, if bool_decide (chave = "__hash__")
           then Some (EmbeddingsService.Dado VNone) else so_keys chave.

(** A disk on which every file can be created, and one on which none
    can. *)
Definition sempre_grava : Disco.t → string → bool := λ _ _, true.
Definition nunca_grava : Disco.t → string → bool := λ _ _, false.

Definition sem_relogio : Z → string → string := λ _ _, "".
Definition relogio_fixo : Z → string → string := λ _ _, "20240101120000".

(** A stand-in for MD5 in the examples: the text itself. *)
Definition md5 : string → string := λ texto, texto.
End Exemplos.

(** * Properties of the search of FAISS *)

Module FaissProps.
Import Faiss.

Lemma Qle_bool_total (a b : Q) : Qle_bool a b = true ∨ Qle_bool b a = true.
Proof.
  destruct (Qlt_le_dec a b) as [H|H].
  - left. apply Qle_bool_iff, Qlt_le_weak, H.
  - right. by apply Qle_bool_iff.
Qed.

Global Instance le_total : Total le.
Proof.
  intros [a|[]|] [b|[]|]; unfold le; cbn; auto. apply Qle_bool_total.
Qed.

Global Instance le_trans : Transitive le.
Proof.
  intros [a|[]|] [b|[]|] [c|[]|]; unfold le; cbn; auto; try discriminate.
  rewrite !Qle_bool_iff. apply Qle_trans.
Qed.

Global Instance le_refl : Reflexive le.
Proof. intros [a|[]|]; unfold le; cbn; auto. apply Qle_bool_iff, Qle_refl. Qed.

(** [x < y] gives [x ≤ y] in the order of the ranking. *)
Lemma ltb_le (x y : float32) : ltb x y = true → le x y.
Proof.
  destruct x as [a|[]|], y as [b|[]|]; unfold le; cbn; auto; try discriminate.
  intros H. apply negb_true_iff in H.
  destruct (Qle_bool_total a b) as [Hab|Hba]; [exact Hab|congruence].
Qed.

(** A list cut from the front of a sorted list is sorted. *)
Lemma StronglySorted_take {A} (R : relation A) (n : nat) (l : list A) :
  StronglySorted R l → StronglySorted R (take n l).
Proof.
  intros H. revert n. induction H as [|x l Hl IH Hx]; intros [|n]; cbn;
    try constructor.
  - apply IH.
  - apply Forall_take, Hx.
Qed.

Lemma StronglySorted_replicate {A} (R : relation A) `{!Reflexive R}
    (n : nat) (x : A) :
  StronglySorted R (replicate n x).
Proof.
  induction n as [|n IH]; cbn; constructor; [exact IH|].
  apply Forall_replicate. reflexivity.
Qed.

(** Sortedness goes through a partial map that respects the orders on the
    elements it keeps. *)
Lemma StronglySorted_omap {A B} (R : relation A) (R' : relation B)
    (f : A → option B) (l : list A) :
  (∀ x y x' y', x ∈ l → y ∈ l → R x y → f x = Some x' → f y = Some y' → R' x' y') →
  StronglySorted R l → StronglySorted R' (omap f l).
Proof.
  intros Hf H. induction H as [|x l Hl IH Hx]; cbn; [constructor|].
  assert (IH' : StronglySorted R' (omap f l)).
  { apply IH. intros a b a' b' Ha Hb. apply Hf; by constructor. }
  destruct (f x) as [x'|] eqn:Ex; [|exact IH'].
  constructor; [exact IH'|].
  apply Forall_forall. intros y' Hy'.
  apply list_elem_of_omap in Hy' as (y & Hy & Ey).
  rewrite Forall_forall in Hx.
  apply (Hf x y); auto; by constructor.
Qed.

Lemma length_omap_le {A B} (f : A → option B) (l : list A) :
  (length (omap f l) ≤ length l)%nat.
Proof. induction l as [|x l IH]; cbn; [lia|]. destruct (f x); cbn; lia. Qed.

Lemma filter_todos {A} (P : A → Prop) `{∀ x, Decision (P x)} (l : list A) :
  Forall P l → filter P l = l.
Proof.
  induction 1 as [|x l Hx Hl IH]; [reflexivity|].
  rewrite filter_cons_True by exact Hx. by f_equal.
Qed.

Section search.
Variable faiss : biblioteca.

Global Instance antes_total (ix : index) (consultas : list vetor) (k : Z)
    (q : vetor) : Total (antes faiss ix consultas k q).
Proof.
  intros a b. unfold antes. cbn zeta.
  set (ea := examinar faiss ix consultas k q a).
  set (eb := examinar faiss ix consultas k q b).
  destruct (decide (le (medida ea) (medida eb))) as [Hab|Hab],
    (decide (le (medida eb) (medida ea))) as [Hba|Hba].
  - destruct (Z.le_ge_cases (prioridade ea) (prioridade eb));
      [left|right]; split; auto.
  - left. split; [exact Hab|]. intros; contradiction.
  - right. split; [exact Hba|]. intros; contradiction.
  - destruct (le_total (medida ea) (medida eb)); contradiction.
Qed.

Global Instance antes_trans (ix : index) (consultas : list vetor) (k : Z)
    (q : vetor) : Transitive (antes faiss ix consultas k q).
Proof.
  intros a b c. unfold antes. cbn zeta. intros [Hab Hpab] [Hbc Hpbc].
  split; [by etrans|].
  intros Hca. etrans; [apply Hpab|apply Hpbc]; by etrans.
Qed.

Lemma finitos_elem (ix : index) (consultas : list vetor) (k : Z) (q : vetor)
    (slot : nat) :
  slot ∈ finitos faiss ix consultas k q
  ↔ ltb (medida (examinar faiss ix consultas k q slot)) FLT_MAX = true
    ∧ (slot < length (xb ix))%nat.
Proof.
  unfold finitos. rewrite list_elem_of_filter, elem_of_seq.
  split; intros [? ?]; split; auto; lia.
Qed.

(** The candidates are slots of the index at a distance below [FLT_MAX],
    each at most once; in a flat index every such slot is one. *)
Lemma candidatos_elem (ix : index) (consultas : list vetor) (k : Z)
    (q : vetor) (slot : nat) :
  slot ∈ candidatos faiss ix consultas k q
  ↔ visita ix (examinar faiss ix consultas k q slot) = true
    ∧ ltb (medida (examinar faiss ix consultas k q slot)) FLT_MAX = true
    ∧ (slot < length (xb ix))%nat.
Proof.
  unfold candidatos. by rewrite list_elem_of_filter, finitos_elem.
Qed.

Lemma finitos_length (ix : index) (consultas : list vetor) (k : Z)
    (q : vetor) :
  (length (finitos faiss ix consultas k q) ≤ length (xb ix))%nat.
Proof.
  unfold finitos. etrans; [apply length_filter|]. by rewrite length_seq.
Qed.

Lemma candidatos_length (ix : index) (consultas : list vetor) (k : Z)
    (q : vetor) :
  (length (candidatos faiss ix consultas k q)
   ≤ length (finitos faiss ix consultas k q))%nat.
Proof. apply length_filter. Qed.

Lemma candidatos_NoDup (ix : index) (consultas : list vetor) (k : Z)
    (q : vetor) :
  NoDup (candidatos faiss ix consultas k q).
Proof. apply NoDup_filter, NoDup_filter, NoDup_seq. Qed.

Lemma candidatos_flat (ix : index) (consultas : list vetor) (k : Z)
    (q : vetor) :
  cls ix = IndexFlatL2 →
  candidatos faiss ix consultas k q = finitos faiss ix consultas k q.
Proof.
  intros Hflat. unfold candidatos, visita. rewrite Hflat.
  apply filter_todos, Forall_forall. reflexivity.
Qed.

Lemma search1_partes (ix : index) (consultas : list vetor) (k : Z)
    (q : vetor) :
  let reais := take (Z.to_nat k)
                 (merge_sort (antes faiss ix consultas k q)
                    (candidatos faiss ix consultas k q)) in
  search1 faiss ix consultas k q
    = (entrada faiss ix consultas k q <$> reais)
      ++ replicate (Z.to_nat k - length reais) (-1, FLT_MAX)
  ∧ length reais
    = (Z.to_nat k `min` length (candidatos faiss ix consultas k q))%nat
  ∧ Forall (λ slot,
              (slot < length (xb ix))%nat
              ∧ ltb (medida (examinar faiss ix consultas k q slot)) FLT_MAX
                = true) reais
  ∧ NoDup reais.
Proof.
  intros reais.
  pose proof (merge_sort_Permutation (antes faiss ix consultas k q)
                (candidatos faiss ix consultas k q)) as Hperm.
  split; [reflexivity|]. split.
  { unfold reais. rewrite length_take. by rewrite Hperm. }
  split.
  - unfold reais. apply Forall_take. rewrite Hperm.
    apply Forall_forall. intros slot Hslot.
    apply candidatos_elem in Hslot as (_ & Hlt & Hlen). by split.
  - unfold reais. eapply sublist_NoDup; [|apply sublist_take].
    rewrite Hperm. apply candidatos_NoDup.
Qed.

Lemma search1_length (ix : index) (consultas : list vetor) (k : Z)
    (q : vetor) :
  length (search1 faiss ix consultas k q) = Z.to_nat k.
Proof.
  unfold search1.
  rewrite length_app, length_replicate, length_fmap, length_take.
  lia.
Qed.

(** The distances of a result are in ascending order. *)
Lemma search1_sorted (ix : index) (consultas : list vetor) (k : Z)
    (q : vetor) :
  StronglySorted (λ a b : Z * float32, le a.2 b.2)
    (search1 faiss ix consultas k q).
Proof.
  destruct (search1_partes ix consultas k q) as (Heq & _ & Hreais & _).
  rewrite Heq. apply StronglySorted_app. split; [|split].
  - intros x y Hx Hy. apply elem_of_replicate in Hy as [-> _].
    apply list_elem_of_fmap in Hx as (slot & -> & Hslot).
    rewrite Forall_forall in Hreais. destruct (Hreais slot Hslot) as [_ Hlt].
    apply ltb_le, Hlt.
  - eapply (StronglySorted_fmap _ (antes faiss ix consultas k q)).
    + intros a b [Hab _]. exact Hab.
    + apply StronglySorted_take, StronglySorted_merge_sort; apply _.
  - apply StronglySorted_replicate. intros x. apply le_refl.
Qed.

End search.
End FaissProps.

(** * Properties of [FaissService] *)

Module FaissServiceProps.
Import FaissService.

(** ** Creating an index *)

Lemma int32_faixa (z : Z) : - 2 ^ 31 ≤ z < 2 ^ 31 → Faiss.int32 z = z.
Proof. intros H. unfold Faiss.int32. rewrite Z.mod_small by lia. lia. Qed.

Lemma py_IndexFlatL2_faixa (dim : Z) :
  - 2 ^ 31 ≤ dim < 2 ^ 31 →
  Faiss.py_IndexFlatL2 dim = Some (Faiss.novo_IndexFlatL2 dim).
Proof.
  intros H. unfold Faiss.py_IndexFlatL2. rewrite int32_faixa by exact H.
  destruct (Z.leb_spec (- 2 ^ 63) dim), (Z.ltb_spec dim (2 ^ 63));
    try lia; reflexivity.
Qed.

Lemma validado_aceito {T} (padrao : T) (dado : option (dado T)) :
  aceito dado = true → is_Some (validado padrao dado).
Proof. destruct dado as [[v|]|]; cbn; by eauto. Qed.

(** What the validated metadata say, and when the validation succeeds. *)
Lemma validar_metadados_Some (indice_id : string) (dimensao : Z)
    (extra : option extras) (agora : Z) (meta : IndiceMetadata.t) :
  validar_metadados indice_id dimensao extra agora = Some meta →
  IndiceMetadata.id meta = indice_id
  ∧ IndiceMetadata.dimensao meta = dimensao
  ∧ validado 0 (extra ≫= ex_num_vetores)
    = Some (IndiceMetadata.num_vetores meta).
Proof.
  unfold validar_metadados. intros H.
  destruct (validado _ (extra ≫= ex_nome)); [|discriminate].
  destruct (validado _ (extra ≫= ex_modelo_embeddings)); [|discriminate].
  destruct (validado _ (extra ≫= ex_num_vetores)); [|discriminate].
  destruct (validado _ (extra ≫= ex_ultima_atualizacao)); [|discriminate].
  destruct (validado _ (extra ≫= ex_tem_mapeamento_ids)); [|discriminate].
  cbn in H. injection H as <-. done.
Qed.

Lemma validar_metadados_aceitos (indice_id : string) (dimensao : Z)
    (extra : option extras) (agora : Z) :
  aceitos extra = true →
  is_Some (validar_metadados indice_id dimensao extra agora).
Proof.
  intros H. unfold validar_metadados.
  assert (Hcampos :
    aceito (extra ≫= ex_nome) = true
    ∧ aceito (extra ≫= ex_modelo_embeddings) = true
    ∧ aceito (extra ≫= ex_num_vetores) = true
    ∧ aceito (extra ≫= ex_ultima_atualizacao) = true
    ∧ aceito (extra ≫= ex_tem_mapeamento_ids) = true).
  { destruct extra as [e|]; [|done]. cbn in H |- *.
    repeat (apply andb_true_iff in H as [H ?]). done. }
  destruct Hcampos as (H1 & H2 & H3 & H4 & H5).
  destruct (validado_aceito ("Índice " +:+ indice_id) _ H1) as [? ->].
  destruct (validado_aceito "não especificado" _ H2) as [? ->].
  destruct (validado_aceito 0 _ H3) as [? ->].
  destruct (validado_aceito agora _ H4) as [? ->].
  destruct (validado_aceito true _ H5) as [? ->].
  cbn. by eexists.
Qed.

(** The index constructed for a kind is empty, and has the dimension asked
    for when that fits a C [int]; for a positive dimension that fits, the
    construction succeeds. *)
Lemma construir_Some (tipo : string) (dimensao : Z) (ix : Faiss.index) :
  construir tipo dimensao = Some ix →
  Faiss.xb ix = [] ∧ (- 2 ^ 31 ≤ dimensao < 2 ^ 31 → Faiss.d ix = dimensao).
Proof.
  unfold construir, Faiss.py_IndexFlatL2, Faiss.py_IndexIVFFlat,
    Faiss.py_IndexHNSWFlat.
  intros H.
  repeat case_bool_decide;
    repeat (case_match; simplify_option_eq);
    (split; [reflexivity|intros Hd; cbn; by rewrite ?int32_faixa]).
Qed.

Lemma construir_faixa (tipo : string) (dimensao : Z) :
  0 < dimensao < 2 ^ 31 → is_Some (construir tipo dimensao).
Proof.
  intros H. unfold construir, Faiss.py_IndexIVFFlat, Faiss.py_IndexHNSWFlat.
  rewrite py_IndexFlatL2_faixa by lia. cbn [mbind option_bind Faiss.d
    Faiss.novo_IndexFlatL2].
  rewrite (Z.mod_small dimensao) by lia.
  rewrite Z.eqb_refl.
  destruct (Z.leb_spec 0 dimensao), (Z.ltb_spec dimensao (2 ^ 64)),
    (Z.leb_spec (- 2 ^ 31) dimensao), (Z.ltb_spec dimensao (2 ^ 31));
    try lia.
  cbn. by repeat case_bool_decide.
Qed.

(** C10, as the code has it: a kind outside flat, ivf and hnsw is treated
    as the kind "flat": [criar_indice] does with it exactly what it does
    with "flat", in every case.  With a free id, a positive dimension
    that fits a C [int] and extra metadata that [IndiceMetadata] accepts,
    it returns true and stores an empty exact flat L2 index of the
    requested dimension, with an empty slot mapping and the metadata of
    that dimension. *)
Theorem criar_indice_tipo_desconhecido
    (s : t) (indice_id tipo : string) (dimensao : Z)
    (extra : option extras) (agora : Z) :
  tipo ≠ "flat" → tipo ≠ "ivf" → tipo ≠ "hnsw" →
  let r := criar_indice s indice_id dimensao tipo extra agora in
  r = criar_indice s indice_id dimensao "flat" extra agora
  ∧ (indices s !! indice_id = None →
     0 < dimensao < 2 ^ 31 →
     aceitos extra = true →
     r.1 = true
     ∧ indices r.2 !! indice_id = Some (Faiss.novo_IndexFlatL2 dimensao)
     ∧ mapeamentos r.2 !! indice_id = Some ∅
     ∧ (IndiceMetadata.dimensao <$> metadados r.2 !! indice_id)
       = Some dimensao).
Proof.
  intros Hflat Hivf Hhnsw. cbn zeta. unfold criar_indice, construir.
  rewrite !(bool_decide_eq_false_2 (tipo = _)) by assumption.
  rewrite (bool_decide_eq_true_2 ("flat" = "flat")) by reflexivity.
  split; [reflexivity|].
  intros Hlivre Hdim Hextra. rewrite Hlivre.
  rewrite (bool_decide_eq_false_2 (is_Some None)) by (intros [? ?]; discriminate).
  rewrite py_IndexFlatL2_faixa by lia.
  destruct (validar_metadados_aceitos indice_id dimensao extra agora Hextra)
    as [meta Hmeta].
  rewrite Hmeta.
  destruct (validar_metadados_Some _ _ _ _ _ Hmeta) as (_ & Hd & _).
  cbn [fst snd indices mapeamentos metadados set_indices set_mapeamentos
       set_metadados].
  rewrite !lookup_insert_eq. cbn. by rewrite Hd.
Qed.

Lemma criar_indice_tipo_desconhecido_witness :
  let r := criar_indice novo "idx" 3 "lsh" None 0 in
  r = criar_indice novo "idx" 3 "flat" None 0
  ∧ r.1 = true
  ∧ indices r.2 !! "idx" = Some (Faiss.novo_IndexFlatL2 3)
  ∧ mapeamentos r.2 !! "idx" = Some ∅
  ∧ (IndiceMetadata.dimensao <$> metadados r.2 !! "idx") = Some 3.
Proof.
  destruct (criar_indice_tipo_desconhecido novo "idx" "lsh" 3 None 0)
    as [H1 H2]; [discriminate..|].
  split; [exact H1|].
  apply H2; [reflexivity|lia|reflexivity].
Defined.

(** C10 fails as stated: with a kind outside flat, ivf and hnsw and a
    free id, [criar_indice] returns false and stores nothing for the
    dimension [2^63], which the constructor of FAISS refuses; and it
    returns false, leaving the index and its mapping in the store without
    metadata, when [IndiceMetadata] refuses a value of the extra
    metadata.  For the dimension [2^31] it returns true, but the index
    has the dimension [-2^31]. *)
Lemma criar_indice_tipo_desconhecido_falha :
  criar_indice novo "idx" (2 ^ 63) "lsh" None 0 = (false, novo)
  ∧ (let r := criar_indice novo "idx" 3 "lsh"
                (Some {| ex_nome := None; ex_modelo_embeddings := None;
                         ex_ultima_atualizacao := None;
                         ex_num_vetores := Some Recusado;
                         ex_tem_mapeamento_ids := None |}) 0 in
     r.1 = false
     ∧ indices r.2 !! "idx" = Some (Faiss.novo_IndexFlatL2 3)
     ∧ metadados r.2 !! "idx" = None)
  ∧ (let r := criar_indice novo "idx" (2 ^ 31) "lsh" None 0 in
     r.1 = true
     ∧ (Faiss.d <$> indices r.2 !! "idx") = Some (- 2 ^ 31)).
Proof. vm_compute. repeat split. Qed.

(** ** Adding vectors *)

(** C5: a batch whose row length differs from the dimension of the index
    is rejected: [adicionar_vetores] returns false and the service is
    unchanged, so the vector count, the slot mapping and the stored
    vectors are what they were. *)
Theorem adicionar_vetores_dimensao_errada
    (s : t) (indice_id : string) (ix : Faiss.index) (ncols : Z)
    (linhas : list vetor) (mapeamento : option (gmap Z documento)) (agora : Z) :
  indices s !! indice_id = Some ix →
  ncols ≠ Faiss.d ix →
  adicionar_vetores s indice_id (Arr2 ncols linhas) mapeamento agora = (false, s).
Proof.
  intros Hix Hdim. unfold adicionar_vetores. rewrite Hix.
  destruct (ncols =? Faiss.d ix) eqn:E; [apply Z.eqb_eq in E; contradiction|].
  reflexivity.
Qed.

Lemma adicionar_vetores_dimensao_errada_witness :
  adicionar_vetores Exemplos.s1 "idx" (Arr2 2 (Exemplos.linhas [[1; 0]]))
    (Some {[ 0 := Exemplos.doc "D" ]}) 2 = (false, Exemplos.s1).
Proof.
  apply (adicionar_vetores_dimensao_errada Exemplos.s1 "idx" Exemplos.ix1);
    [vm_compute; reflexivity | vm_compute; discriminate].
Defined.

(** The shifted entries are all there after the loop. *)
Lemma deslocar_lookup (offset : Z) (mapeamento anterior : gmap Z documento)
    (slot : Z) (doc : documento) :
  mapeamento !! slot = Some doc →
  deslocar offset mapeamento anterior !! (offset + slot) = Some doc.
Proof.
  unfold deslocar. revert slot doc.
  apply (map_fold_weak_ind
           (λ acc m, ∀ slot doc, m !! slot = Some doc →
                                 acc !! (offset + slot) = Some doc)).
  - intros slot doc H. rewrite lookup_empty in H. discriminate.
  - intros i x m acc Hi IH slot doc H.
    destruct (decide (i = slot)) as [->|Hne].
    + rewrite lookup_insert_eq in H. rewrite lookup_insert_eq. exact H.
    + rewrite lookup_insert_ne in H by exact Hne.
      rewrite lookup_insert_ne by lia. apply IH, H.
Qed.

Lemma adicionar_vetores_apto (s : t) (indice_id : string) (dim : Z)
    (linhas : list vetor) (mapeamento : option (gmap Z documento)) (agora : Z) :
  apto s indice_id dim →
  let l : lote := (Arr2 dim linhas, mapeamento, agora) in
  let r := adicionar_vetores s indice_id (Arr2 dim linhas) mapeamento agora in
  lote_aceito indice_id l (s, r.1, r.2) ∧ apto r.2 indice_id dim.
Proof.
  intros ([c d0 tr xb0] & Hix & Hd & Htr & [ant Hant] & [meta Hmeta]).
  cbn in Hd, Htr. subst d0 tr.
  unfold adicionar_vetores. rewrite Hix. cbn [Faiss.d].
  rewrite Z.eqb_refl. cbn [negb].
  unfold Faiss.add. cbn [Faiss.d Faiss.is_trained Faiss.cls Faiss.xb].
  rewrite Z.eqb_refl. cbn [negb].
  cbn [mapeamentos set_indices].
  rewrite Hant.
  set (ix := {| Faiss.cls := c; Faiss.d := dim; Faiss.is_trained := true;
                Faiss.xb := xb0 |}) in *.
  set (ix' := {| Faiss.cls := c; Faiss.d := dim; Faiss.is_trained := true;
                 Faiss.xb := xb0 ++ linhas |}).
  assert (Hcont : Faiss.ntotal ix' = Faiss.ntotal ix + len linhas).
  { unfold Faiss.ntotal, len, ix', ix. cbn. rewrite length_app. lia. }
  destruct (fornecido mapeamento) eqn:Hforn;
    cbn [metadados set_mapeamentos set_indices]; rewrite Hmeta;
    cbn [fst snd]; (split; [|]).
  - unfold lote_aceito, contagem, slots, tamanho.
    cbn [indices mapeamentos metadados set_metadados set_mapeamentos
         set_indices fst snd shape head].
    rewrite Hix, !lookup_insert_eq. cbn.
    repeat split; [exact Hcont|].
    intros slot doc Hslot. destruct mapeamento as [m|]; [|discriminate].
    cbn in Hslot |- *. apply deslocar_lookup, Hslot.
  - exists ix'.
    cbn [indices mapeamentos metadados set_metadados set_mapeamentos set_indices].
    rewrite !lookup_insert_eq. unfold ix'. cbn. eauto.
  - unfold lote_aceito, contagem, slots, tamanho.
    cbn [indices mapeamentos metadados set_metadados set_mapeamentos
         set_indices fst snd shape head].
    rewrite Hix, !lookup_insert_eq. cbn.
    repeat split; [exact Hcont|].
    intros slot doc Hslot. destruct mapeamento as [m|]; [|discriminate].
    cbn in Hslot, Hforn.
    destruct (bool_decide (m = ∅)) eqn:E; [|discriminate].
    apply bool_decide_eq_true in E. subst m.
    rewrite lookup_empty in Hslot. discriminate.
  - exists ix'.
    cbn [indices mapeamentos metadados set_metadados set_mapeamentos set_indices].
    rewrite !lookup_insert_eq, Hant. unfold ix'. cbn. eauto.
Qed.

(** C1, as the code has it: in every run of add batches whose arrays are
    2-D with the row length of the index, on an index that is in the
    store with its mapping and metadata and is trained, every call
    returns true, the vector count after it is the count before plus the
    number of rows, the metadata records that count, and every entry of
    the supplied mapping sits at the slot (count before + local slot). *)
Theorem adicionar_lotes_offsets
    (s : t) (indice_id : string) (dim : Z) (lotes : list lote) :
  apto s indice_id dim →
  Forall (λ l : lote, ∃ linhas, l.1.1 = Arr2 dim linhas) lotes →
  Forall2 (lote_aceito indice_id) lotes (adicionar_lotes s indice_id lotes).
Proof.
  intros Hapto Hlotes. revert s Hapto.
  induction Hlotes as [|[[v m] agora] lotes [linhas Hv] _ IH]; intros s Hapto.
  - constructor.
  - cbn in Hv. subst v. cbn [adicionar_lotes fst snd].
    destruct (adicionar_vetores_apto s indice_id dim linhas m agora Hapto)
      as [Hpasso Hapto'].
    constructor; [exact Hpasso | apply IH, Hapto'].
Qed.

Lemma apto_s0 : apto Exemplos.s0 "idx" 3.
Proof.
  exists (Faiss.novo_IndexFlatL2 3).
  repeat split; try reflexivity; eexists; vm_compute; reflexivity.
Defined.

Lemma adicionar_lotes_offsets_witness :
  let lotes : list lote :=
    [ (Arr2 3 (Exemplos.linhas [[1;0;0]; [0;1;0]]),
       Some {[ 0 := Exemplos.doc "A"; 1 := Exemplos.doc "B" ]}, 1);
      (Arr2 3 (Exemplos.linhas [[0;0;1]]),
       Some {[ 0 := Exemplos.doc "C" ]}, 2) ] in
  Forall2 (lote_aceito "idx") lotes (adicionar_lotes Exemplos.s0 "idx" lotes).
Proof.
  apply (adicionar_lotes_offsets Exemplos.s0 "idx" 3).
  - exact apto_s0.
  - repeat constructor; eexists; reflexivity.
Defined.

(** C1 fails as stated: the index that [criar_indice] makes for the kind
    "ivf" is in the store and is never trained, so FAISS refuses the
    vectors and [adicionar_vetores] returns false, count unchanged. *)
Lemma adicionar_vetores_ivf_recusa :
  let s := (criar_indice novo "idx" 3 "ivf" None 0).2 in
  (Faiss.d <$> indices s !! "idx") = Some 3
  ∧ adicionar_vetores s "idx" (Arr2 3 (Exemplos.linhas [[1; 0; 0]]))
      (Some {[ 0 := Exemplos.doc "A" ]}) 1 = (false, s)
  ∧ contagem s "idx" = 0.
Proof. vm_compute. repeat split; reflexivity. Qed.

(** An id can also be in the store without metadata: a load that was
    refused after it had read the index file leaves it so.  There
    [adicionar_vetores] adds the vectors and the mapping and then returns
    false. *)
Lemma adicionar_vetores_sem_metadados :
  let s := (carregar_indice "faiss" novo Exemplos.disco_chave_ruim "idx" None 0).2 in
  let r := adicionar_vetores s "idx" (Arr2 3 (Exemplos.linhas [[0; 1; 0]]))
             (Some {[ 0 := Exemplos.doc "B" ]}) 1 in
  contagem s "idx" = 1
  ∧ r.1 = false
  ∧ contagem r.2 "idx" = 2
  ∧ slots r.2 "idx" !! 1 = Some (Exemplos.doc "B").
Proof. vm_compute. repeat split. Qed.

(** ** Searching *)

Section busca.
Variable faiss : Faiss.biblioteca.

(** The query, as [buscar] reads it from the array. *)
Lemma consulta_de_linhas (a : ndarray) (q : vetor) (dim : Z) :
  consulta_de a q dim → ∃ resto, linhas_de a = q :: resto.
Proof. intros [[-> _]|[resto ->]]; by eexists. Qed.

(** [buscar] on a query of the dimension of the index: the first row of
    what [index.search] returns, and nothing when that raises. *)
Lemma buscar_search (s : t) (indice_id : string) (ix : Faiss.index)
    (a : ndarray) (q : vetor) (k : Z) :
  indices s !! indice_id = Some ix →
  consulta_de a q (Faiss.d ix) →
  buscar faiss s indice_id a k
  = match Faiss.search faiss ix (Faiss.d ix) (linhas_de a) k with
    | Some _ =>
        ((Faiss.search1 faiss ix (linhas_de a) k q).*1,
         (Faiss.search1 faiss ix (linhas_de a) k q).*2)
    | None => ([], [])
    end.
Proof.
  intros Hix Hq. unfold buscar. rewrite Hix.
  destruct Hq as [[-> Hlen]|[resto ->]]; cbn [linhas_de];
    rewrite ?Hlen, Z.eqb_refl; cbn [negb]; unfold Faiss.search;
    rewrite Z.eqb_refl; cbn [negb];
    (destruct (negb (0 <? k)); [reflexivity|]);
    (destruct (negb (Faiss.aloca faiss _ k)); [reflexivity|]);
    (destruct (negb (Faiss.is_trained ix)); reflexivity).
Qed.

Lemma search_None (ix : Faiss.index) (consultas : list vetor) (k : Z) :
  k ≤ 0 ∨ Faiss.aloca faiss (length consultas) k = false
  ∨ Faiss.is_trained ix = false →
  Faiss.search faiss ix (Faiss.d ix) consultas k = None.
Proof.
  intros H. unfold Faiss.search. rewrite Z.eqb_refl. cbn [negb].
  destruct (Z.ltb_spec 0 k) as [Hk|Hk]; [|reflexivity]. cbn [negb].
  destruct (Faiss.aloca faiss (length consultas) k); [|reflexivity].
  cbn [negb].
  destruct (Faiss.is_trained ix); [|reflexivity].
  destruct H as [H|[H|H]]; [lia|discriminate..].
Qed.

Lemma search_Some (ix : Faiss.index) (consultas : list vetor) (k : Z) :
  0 < k → Faiss.aloca faiss (length consultas) k = true →
  Faiss.is_trained ix = true →
  is_Some (Faiss.search faiss ix (Faiss.d ix) consultas k).
Proof.
  intros Hk Ha Ht. unfold Faiss.search. rewrite Z.eqb_refl, Ha, Ht.
  destruct (Z.ltb_spec 0 k); [|lia]. by eexists.
Qed.

Lemma documento_de_padding (mapeamento : gmap Z documento) (n : nat) :
  omap (documento_de mapeamento) (replicate n (-1, Faiss.FLT_MAX)) = [].
Proof. induction n as [|n IH]; [reflexivity|exact IH]. Qed.

(** The documents of a ranking: at most one for each real entry, in the
    order of the entries. *)
Lemma documentos_do_ranking (mapeamento : gmap Z documento)
    (ix : Faiss.index) (consultas : list vetor) (k : Z) (q : vetor) :
  let docs := omap (documento_de mapeamento)
                (Faiss.search1 faiss ix consultas k q) in
  (length docs
   ≤ Z.to_nat k `min` length (Faiss.candidatos faiss ix consultas k q))%nat
  ∧ StronglySorted
      (λ x y : documento * pontuacao,
         Faiss.le (distancia_de x.2) (distancia_de y.2)) docs.
Proof.
  intros docs.
  destruct (FaissProps.search1_partes faiss ix consultas k q)
    as (Heq & Hlen & _ & _).
  split.
  - unfold docs. rewrite Heq, omap_app, documento_de_padding, app_nil_r.
    etrans; [apply FaissProps.length_omap_le|].
    by rewrite length_fmap, Hlen.
  - unfold docs.
    eapply (FaissProps.StronglySorted_omap
              (λ a b : Z * float32, Faiss.le a.2 b.2));
      [|apply FaissProps.search1_sorted].
    intros [idx sc] [idy sd] x' y' _ _ Hxy Ex Ey. cbn in Ex, Ey.
    destruct (bool_decide (idx ≠ -1)); [|discriminate].
    destruct (bool_decide (idy ≠ -1)); [|discriminate].
    destruct (mapeamento !! idx); [|discriminate].
    destruct (mapeamento !! idy); [|discriminate].
    cbn in Ex, Ey. injection Ex as <-. injection Ey as <-. exact Hxy.
Qed.


End busca.



End FaissServiceProps.

(** * Properties of [EmbeddingsService] *)

Module EmbeddingsServiceProps.
Import EmbeddingsService.

Section servico.
Variable modelo_embeddings : string.
Variable dimensao_embeddings : Z.
Variable md5 : string → string.
Variable openai : nat → list string → option (list vetor).

Local Abbreviation chave := (chave_cache modelo_embeddings md5).
Local Abbreviation gerar :=
  (gerar_embedding modelo_embeddings dimensao_embeddings md5 openai).
Local Abbreviation gerar_batch :=
  (gerar_embeddings_batch modelo_embeddings dimensao_embeddings md5 openai).
Local Abbreviation pendentes := (pendentes modelo_embeddings md5).

(** ** The cache *)

Lemma gerar_hit (s : t) (texto : string) (e : vetor) :
  cache_embeddings s !! chave texto = Some e → gerar s texto = (e, s).
Proof. intros H. unfold gerar_embedding. by rewrite H. Qed.

Lemma gerar_miss_falha (s : t) (texto : string) :
  cache_embeddings s !! chave texto = None →
  (∀ e es, openai (length (chamadas s)) [texto] ≠ Some (e :: es)) →
  gerar s texto = (zeros dimensao_embeddings, registrar_chamada s [texto]).
Proof.
  intros H Hf. unfold gerar_embedding. rewrite H.
  destruct (openai (length (chamadas s)) [texto]) as [[|e es]|] eqn:E;
    try reflexivity.
  by destruct (Hf e es).
Qed.

Lemma gerar_miss_chamadas (s : t) (texto : string) :
  cache_embeddings s !! chave texto = None →
  chamadas (gerar s texto).2 = chamadas s ++ [[texto]].
Proof.
  intros H. unfold gerar_embedding. rewrite H.
  destruct (openai (length (chamadas s)) [texto]) as [[|e es]|];
    try reflexivity.
  cbn [snd]. by destruct (_ =? 0).
Qed.

Lemma gerar_miss_sucesso (s : t) (texto : string) (e : vetor) (es : list vetor) :
  cache_embeddings s !! chave texto = None →
  openai (length (chamadas s)) [texto] = Some (e :: es) →
  (gerar s texto).1 = e
  ∧ cache_embeddings (gerar s texto).2 = <[chave texto := e]> (cache_embeddings s)
  ∧ chamadas (gerar s texto).2 = chamadas s ++ [[texto]].
Proof.
  intros H Hr. unfold gerar_embedding. rewrite H, Hr. cbn [fst snd].
  by destruct (_ =? 0).
Qed.

(** C4, as the code has it: when the text is in the cache, or the request
    of the first call returns an embedding, two calls of [gerar_embedding]
    with the same text return the same vector, the second call sends no
    request, and at most one request is sent in total. *)
Theorem gerar_embedding_duas_vezes (s : t) (texto : string) :
  is_Some (cache_embeddings s !! chave texto)
  ∨ (∃ e es, openai (length (chamadas s)) [texto] = Some (e :: es)) →
  let r1 := gerar s texto in
  let r2 := gerar r1.2 texto in
  r1.1 = r2.1
  ∧ chamadas r2.2 = chamadas r1.2
  ∧ (length (chamadas r2.2) ≤ length (chamadas s) + 1)%nat.
Proof.
  intros H r1 r2.
  destruct (cache_embeddings s !! chave texto) as [e|] eqn:Ec.
  - unfold r2, r1. rewrite !(gerar_hit s texto e Ec). cbn [fst snd].
    rewrite (gerar_hit s texto e Ec). cbn. repeat split. lia.
  - destruct H as [[? ?]|(e & es & Hr)]; [discriminate|].
    destruct (gerar_miss_sucesso s texto e es Ec Hr) as (H1 & Hc & Hch).
    fold r1 in H1, Hc, Hch.
    assert (Hhit : cache_embeddings r1.2 !! chave texto = Some e).
    { rewrite Hc. apply lookup_insert_eq. }
    unfold r2. rewrite (gerar_hit r1.2 texto e Hhit). cbn [fst snd].
    rewrite H1, Hch, length_app. cbn. repeat split. lia.
Qed.

Lemma preencher_zeros_lookup (idxs : list nat)
    (embeddings : list (option vetor)) (i : nat) :
  preencher_zeros dimensao_embeddings idxs embeddings !! i
  = match embeddings !! i with
    | Some None =>
        if bool_decide (i ∈ idxs)
        then Some (Some (zeros dimensao_embeddings)) else Some None
    | o => o
    end.
Proof.
  unfold preencher_zeros. revert embeddings.
  induction idxs as [|idx idxs IH]; intros embeddings.
  - cbn. by destruct (embeddings !! i) as [[?|]|].
  - cbn [foldl]. rewrite IH.
    destruct (decide (i = idx)) as [->|Hne].
    + destruct (embeddings !! idx) as [[e|]|] eqn:E.
      * by rewrite E.
      * rewrite list_lookup_insert_eq by (by eapply lookup_lt_Some).
        rewrite bool_decide_eq_true_2 by (by left). reflexivity.
      * by rewrite E.
    + assert (Hi : (match embeddings !! idx with
                    | Some None =>
                        <[idx:=Some (zeros dimensao_embeddings)]> embeddings
                    | _ => embeddings
                    end) !! i = embeddings !! i).
      { destruct (embeddings !! idx) as [[?|]|]; try reflexivity.
        by rewrite list_lookup_insert_ne. }
      rewrite Hi. destruct (embeddings !! i) as [[?|]|]; try reflexivity.
      rewrite (bool_decide_ext (i ∈ idx :: idxs) (i ∈ idxs)); [reflexivity|].
      rewrite elem_of_cons. split; [intros [?|?]; [contradiction|assumption]|].
      intros ?. by right.
Qed.

Lemma pendentes_indices (s : t) (textos : list string) (i : nat) (texto : string) :
  textos !! i = Some texto →
  cache_embeddings s !! chave texto = None →
  i ∈ (pendentes s textos).*1.
Proof.
  intros Hi Hmiss. apply list_elem_of_fmap. exists (i, texto). split; [done|].
  unfold EmbeddingsService.pendentes. apply list_elem_of_omap.
  exists (Some (i, texto)). split; [|done].
  apply elem_of_lookup_imap. exists i, texto. by rewrite Hmiss.
Qed.

Lemma gerar_batch_falha_zeros (s : t) (textos : list string) :
  openai (length (chamadas s)) (pendentes s textos).*2 = None →
  (gerar_batch s textos).1
  = map (λ texto,
           Some (default (zeros dimensao_embeddings)
                   (cache_embeddings s !! chave texto))) textos.
Proof.
  intros H. unfold gerar_embeddings_batch. rewrite H.
  apply list_eq. intros i.
  assert (Halvo :
    preencher_zeros dimensao_embeddings (pendentes s textos).*1
      (map (λ texto, cache_embeddings s !! chave texto) textos) !! i
    = map (λ texto, Some (default (zeros dimensao_embeddings)
                            (cache_embeddings s !! chave texto))) textos !! i).
  { rewrite preencher_zeros_lookup.
    change (map ?f textos) with (f <$> textos). rewrite !list_lookup_fmap.
    destruct (textos !! i) as [texto|] eqn:Ei; [|reflexivity].
    cbn. destruct (cache_embeddings s !! chave texto) as [e|] eqn:Ec;
      [reflexivity|].
    by rewrite bool_decide_eq_true_2 by (by eapply pendentes_indices). }
  destruct ((pendentes s textos).*2) eqn:Ep; cbn [fst]; [|exact Halvo].
  (* no text to request: every text is in the cache *)
  change (map ?f textos) with (f <$> textos). rewrite !list_lookup_fmap.
  destruct (textos !! i) as [texto|] eqn:Ei; [|reflexivity].
  cbn. destruct (cache_embeddings s !! chave texto) as [e|] eqn:Ec;
    [reflexivity|].
  pose proof (pendentes_indices s textos i texto Ei Ec) as Hin.
  apply (f_equal length) in Ep. rewrite length_fmap in Ep.
  destruct (pendentes s textos); [|discriminate].
  by apply elem_of_nil in Hin.
Qed.

Lemma gerar_batch_falha (s : t) (textos : list string) :
  openai (length (chamadas s)) (pendentes s textos).*2 = None →
  cache_embeddings (gerar_batch s textos).2 = cache_embeddings s
  ∧ salvamentos (gerar_batch s textos).2 = salvamentos s.
Proof.
  intros H. unfold gerar_embeddings_batch. rewrite H.
  by destruct ((pendentes s textos).*2).
Qed.

(** C9: when the request of [gerar_embedding] raises, the cache in memory
    is what it was before the call and nothing is written to disk: the
    zero vector is returned, not stored.  The same holds, on its own, when
    the request of [gerar_embeddings_batch] raises: the texts that were
    not in the cache get zero vectors in the answer, and the cache is
    what it was.  A later call with a text that was not in the cache
    therefore sends a request again. *)
Theorem falha_do_provedor_preserva_cache (s : t) (texto : string)
    (textos : list string) :
  let r := gerar s texto in
  let rb := gerar_batch s textos in
  (cache_embeddings s !! chave texto = None →
   openai (length (chamadas s)) [texto] = None →
   r.1 = zeros dimensao_embeddings
   ∧ cache_embeddings r.2 = cache_embeddings s
   ∧ salvamentos r.2 = salvamentos s
   ∧ chamadas (gerar r.2 texto).2 = chamadas r.2 ++ [[texto]])
  ∧ (openai (length (chamadas s)) (pendentes s textos).*2 = None →
     cache_embeddings rb.2 = cache_embeddings s
     ∧ salvamentos rb.2 = salvamentos s
     ∧ (∀ t, t ∈ textos → cache_embeddings s !! chave t = None →
             chamadas (gerar rb.2 t).2 = chamadas rb.2 ++ [[t]])
     ∧ rb.1 = map (λ t, Some (default (zeros dimensao_embeddings)
                                (cache_embeddings s !! chave t))) textos).
Proof.
  intros r rb. split.
  - intros Hmiss Hfalha.
    assert (Hr : r = (zeros dimensao_embeddings, registrar_chamada s [texto])).
    { apply gerar_miss_falha; [exact Hmiss|]. intros e es. by rewrite Hfalha. }
    rewrite Hr. cbn [fst snd].
    repeat split. apply gerar_miss_chamadas. exact Hmiss.
  - intros Hfalha_b.
    pose proof (gerar_batch_falha_zeros s textos Hfalha_b) as Hzeros.
    fold rb in Hzeros.
    destruct (gerar_batch_falha s textos Hfalha_b) as [Hcb Hsb].
    fold rb in Hcb, Hsb.
    repeat split; try assumption.
    intros t _ Ht. apply gerar_miss_chamadas. by rewrite Hcb.
Qed.

(** ** When the cache is written to disk *)

Lemma processar_ok (pend : list (nat * string)) (data : list vetor)
    (cache : gmap string vetor) (embeddings : list (option vetor)) :
  (processar modelo_embeddings md5 pend data cache embeddings).1.1
  = bool_decide (length data ≤ length pend)%nat.
Proof.
  revert pend cache embeddings.
  induction data as [|e data IH]; intros pend cache embeddings; cbn.
  - symmetry. apply bool_decide_eq_true_2. lia.
  - destruct pend as [|[idx texto] pend]; cbn.
    + symmetry. apply bool_decide_eq_false_2. lia.
    + rewrite IH. apply bool_decide_ext. lia.
Qed.

(** C8, as the code has it: [gerar_embedding] calls [salvar_cache] exactly
    when it has stored a new entry and the cache then holds a multiple of
    10 entries; [gerar_embeddings_batch] calls it once after every batch
    that had a text to request and whose answer was processed without
    error, however many entries that added.  No other path writes. *)
Theorem cadencia_salvar_cache (s : t) (texto : string) (textos : list string) :
  length (salvamentos (gerar s texto).2)
  = (length (salvamentos s)
     + match cache_embeddings s !! chave texto,
             openai (length (chamadas s)) [texto] with
       | None, Some (_ :: _) =>
           if ((Z.of_nat (size (cache_embeddings s)) + 1) mod 10 =? 0)%Z
           then 1 else 0
       | _, _ => 0
       end)%nat
  ∧ length (salvamentos (gerar_batch s textos).2)
    = (length (salvamentos s)
       + match pendentes s textos,
               openai (length (chamadas s)) (pendentes s textos).*2 with
         | _ :: _, Some data =>
             if bool_decide (length data ≤ length (pendentes s textos))%nat
             then 1 else 0
         | _, _ => 0
         end)%nat.
Proof.
  split.
  - unfold gerar_embedding.
    destruct (cache_embeddings s !! chave texto) as [e|] eqn:Ec; [cbn; lia|].
    destruct (openai (length (chamadas s)) [texto]) as [[|e es]|];
      [cbn; lia| |cbn; lia].
    cbn [snd cache_embeddings set_cache registrar_chamada].
    rewrite map_size_insert_None by exact Ec.
    replace (Z.of_nat (S (size (cache_embeddings s))))
      with (Z.of_nat (size (cache_embeddings s)) + 1) by lia.
    destruct (_ =? 0); cbn; [rewrite length_app; cbn|]; lia.
  - unfold gerar_embeddings_batch.
    destruct (pendentes s textos) as [|p pend] eqn:Ep; [cbn; lia|].
    cbn [fmap list_fmap].
    destruct (openai (length (chamadas s)) (p.2 :: pend.*2)) as [data|];
      [|cbn; lia].
    pose proof (processar_ok (p :: pend) data
                  (cache_embeddings (registrar_chamada s (p.2 :: pend.*2)))
                  (map (λ texto, cache_embeddings s !! chave texto) textos)) as Hok.
    destruct (processar modelo_embeddings md5 (p :: pend) data _ _)
      as [[ok cache] embeddings].
    cbn [fst] in Hok. rewrite Hok.
    destruct (bool_decide _); cbn; [rewrite length_app; cbn|]; lia.
Qed.

End servico.

(** The first half with an API that is down; the second with one that
    answers a request for one text and refuses a batch of two. *)
Lemma falha_do_provedor_preserva_cache_witness :
  let fora := λ (_ : nat) (_ : list string), @None (list vetor) in
  let so_um := λ (_ : nat) (entrada : list string),
                 match entrada with
                 | [_] => Some (Exemplos.linhas [[1; 2; 3]])
                 | _ => None
                 end in
  let r := gerar_embedding "m" 3 Exemplos.md5 fora novo "fatura" in
  let rb := gerar_embeddings_batch "m" 3 Exemplos.md5 so_um novo
              ["fatura"; "cliente"] in
  (r.1 = zeros 3
   ∧ cache_embeddings r.2 = cache_embeddings novo
   ∧ salvamentos r.2 = salvamentos novo
   ∧ chamadas (gerar_embedding "m" 3 Exemplos.md5 fora r.2 "fatura").2
     = chamadas r.2 ++ [["fatura"]])
  ∧ (cache_embeddings rb.2 = cache_embeddings novo
     ∧ salvamentos rb.2 = salvamentos novo
     ∧ (∀ t, t ∈ ["fatura"; "cliente"] →
             cache_embeddings novo !! chave_cache "m" Exemplos.md5 t = None →
             chamadas (gerar_embedding "m" 3 Exemplos.md5 so_um rb.2 t).2
             = chamadas rb.2 ++ [[t]])
     ∧ rb.1 = map (λ t, Some (default (zeros 3)
                                (cache_embeddings novo
                                   !! chave_cache "m" Exemplos.md5 t)))
                ["fatura"; "cliente"]).
Proof.
  intros fora so_um.
  destruct (falha_do_provedor_preserva_cache "m" 3 Exemplos.md5 fora
              novo "fatura" ["fatura"; "cliente"]) as [H1 _].
  destruct (falha_do_provedor_preserva_cache "m" 3 Exemplos.md5 so_um
              novo "fatura" ["fatura"; "cliente"]) as [_ H2].
  split; [apply H1; reflexivity|apply H2; reflexivity].
Defined.

(** C8 fails as stated: a batch with one text that is not in the cache
    writes the cache to disk after that single new entry. *)
Lemma lote_salva_a_cada_chamada :
  let openai := λ (_ : nat) (_ : list string),
                  Some (Exemplos.linhas [[1; 2; 3]]) in
  let rb := gerar_embeddings_batch "m" 3 Exemplos.md5 openai novo ["fatura"] in
  size (cache_embeddings rb.2) = 1%nat
  ∧ length (salvamentos novo) = 0%nat
  ∧ length (salvamentos rb.2) = 1%nat.
Proof. vm_compute. repeat split. Qed.

Lemma gerar_embedding_duas_vezes_witness :
  let openai := λ (_ : nat) (_ : list string),
                  Some (Exemplos.linhas [[1; 2; 3]]) in
  let r1 := gerar_embedding "m" 3 Exemplos.md5 openai novo "conta de luz" in
  let r2 := gerar_embedding "m" 3 Exemplos.md5 openai r1.2 "conta de luz" in
  r1.1 = r2.1
  ∧ chamadas r2.2 = chamadas r1.2
  ∧ (length (chamadas r2.2) ≤ length (chamadas novo) + 1)%nat.
Proof.
  apply (gerar_embedding_duas_vezes "m" 3 Exemplos.md5
           (λ _ _, Some (Exemplos.linhas [[1; 2; 3]])) novo "conta de luz").
  right. exists (Exemplos.vec [1; 2; 3]), []. reflexivity.
Defined.

(** C4 fails as stated: when the API fails on the first request and answers
    the second, the two calls send two requests and return different
    vectors. *)
Lemma gerar_embedding_repete_chamada :
  let openai := λ (n : nat) (_ : list string),
                  if (n =? 0)%nat then None
                  else Some (Exemplos.linhas [[1; 2; 3]]) in
  let r1 := gerar_embedding "m" 3 Exemplos.md5 openai novo "conta de luz" in
  let r2 := gerar_embedding "m" 3 Exemplos.md5 openai r1.2 "conta de luz" in
  r1.1 = Exemplos.vec [0; 0; 0] ∧ r2.1 = Exemplos.vec [1; 2; 3]
  ∧ chamadas r2.2 = [["conta de luz"]; ["conta de luz"]].
Proof. vm_compute. repeat split. Qed.

(** ** Filtered search *)

Section busca.
Variable modelo_embeddings : string.
Variable dimensao_embeddings : Z.
Variable md5 : string → string.
Variable openai : nat → list string → option (list vetor).
Variable faiss : Faiss.biblioteca.
Variable atributo_dict : string → option atributo.
Variable atributo_modelo : string → option atributo.

Local Abbreviation buscar :=
  (buscar modelo_embeddings dimensao_embeddings md5 openai faiss
     atributo_dict atributo_modelo).
Local Abbreviation atende := (atende atributo_dict atributo_modelo).
Local Abbreviation atende_filtro := (atende_filtro atributo_dict atributo_modelo).
Local Abbreviation resultado := (resultado atributo_dict atributo_modelo).
Local Abbreviation entrada := (entrada atributo_dict atributo_modelo).

Lemma atende_valor (doc : documento) (chave : string) (valor : valor) :
  atende doc (chave, valor) = true →
  ∃ v, valor_sob atributo_dict atributo_modelo doc chave = Some v
       ∧ py_eq v valor = true
       ∧ (da_classe atributo_dict atributo_modelo doc chave = None →
          campo doc chave = Some v).
Proof.
  unfold EmbeddingsService.atende, valor_sob, getattr, getitem, da_classe, campo.
  destruct doc as [campos|itens].
  - destruct (campos !! chave) as [v|]; [eauto|].
    destruct (atributo_modelo chave) as [[v|]|]; [|discriminate..].
    intros H. exists v. by repeat split.
  - destruct (atributo_dict chave) as [[v|]|].
    + intros H. exists v. by repeat split.
    + discriminate.
    + destruct (itens !! chave) as [v|]; [eauto|discriminate].
Qed.

Lemma atende_filtro_satisfaz (doc : documento)
    (filtro : option (list (string * valor))) :
  atende_filtro doc filtro = true →
  satisfaz atributo_dict atributo_modelo doc filtro.
Proof.
  intros H chave valor Hin.
  destruct filtro as [[|par pares]|]; cbn in Hin;
    try (by apply elem_of_nil in Hin).
  unfold EmbeddingsService.atende_filtro in H.
  rewrite forallb_forall in H.
  apply atende_valor, H, list_elem_of_In, Hin.
Qed.

Lemma resultados_por_entrada (docs : gmap Z documento)
    (filtro : option (list (string * valor)))
    (r : list (Z * float32)) :
  omap (λ c, c) (imap (resultado docs filtro r.*2) r.*1)
  = omap (entrada docs filtro) r.
Proof.
  induction r as [|[idx dist] r IH]; [reflexivity|].
  cbn [fmap list_fmap fst snd]. rewrite imap_cons. cbn [omap list_omap].
  assert (Hresto : imap (resultado docs filtro (dist :: r.*2) ∘ S) r.*1
                   = imap (resultado docs filtro r.*2) r.*1).
  { apply imap_ext. intros i x _. reflexivity. }
  rewrite Hresto.
  rewrite IH. reflexivity.
Qed.

Lemma entrada_sem_filtro (docs : gmap Z documento)
    (filtro : option (list (string * valor)))
    (e : Z * float32) (x : documento * pontuacao) :
  entrada docs filtro e = Some x →
  entrada docs None e = Some x
  ∧ satisfaz atributo_dict atributo_modelo x.1 filtro
  ∧ e.1 ≠ -1 ∧ x.2 = score_de e.2.
Proof.
  unfold EmbeddingsService.entrada, EmbeddingsService.resultado.
  cbn [lookup list_lookup].
  destruct (bool_decide (e.1 = -1)) eqn:E1; [discriminate|].
  apply bool_decide_eq_false in E1.
  destruct (docs !! e.1) as [doc|]; [|discriminate].
  cbn [mbind option_bind].
  destruct (atende_filtro doc filtro) eqn:Ef; [|discriminate].
  intros [= <-]. cbn. repeat split; [|exact E1].
  by apply atende_filtro_satisfaz.
Qed.

Lemma omap_sublist {A B} (f g : A → option B) (l : list A) :
  (∀ x y, f x = Some y → g x = Some y) →
  omap f l `sublist_of` omap g l.
Proof.
  intros Hfg. induction l as [|x l IH]; cbn; [constructor|].
  destruct (f x) as [y|] eqn:Ef.
  - rewrite (Hfg x y Ef). by apply sublist_skip.
  - destruct (g x); [by apply sublist_cons|exact IH].
Qed.

(** The unfiltered results are in the order of the distances. *)
Lemma entradas_ordenadas (docs : gmap Z documento)
    (ix : Faiss.index) (consultas : list vetor) (k : Z) (q : vetor) :
  StronglySorted
    (λ x y : documento * pontuacao,
       Faiss.le (distancia_de x.2) (distancia_de y.2))
    (omap (entrada docs None) (Faiss.search1 faiss ix consultas k q)).
Proof.
  eapply (FaissProps.StronglySorted_omap
            (λ a b : Z * float32, Faiss.le a.2 b.2));
    [|apply FaissProps.search1_sorted].
  intros x y x' y' _ _ Hxy Ex Ey.
  destruct (entrada_sem_filtro docs None x x' Ex) as (_ & _ & _ & ->).
  destruct (entrada_sem_filtro docs None y y' Ey) as (_ & _ & _ & ->).
  exact Hxy.
Qed.

(** C7, as the code has it: every document a filtered search returns has,
    under every key of the filter, as Python looks the key up (the
    attribute of that name when the object has one, the item otherwise),
    a value equal to the one asked for.  For a key that is not the name
    of an attribute of the class of the document, that value is a stored
    field: a document without such a key is not returned.  The results
    are the results of the same search without a filter, with some of
    them left out and the others in the same order, and that unfiltered
    ranking is in non-decreasing distance.  The filter changes nothing
    else: the service ends in the same state. *)
Theorem buscar_filtrado (s : t) (texto_consulta : string) (k : Z)
    (filtro : option (list (string * valor))) :
  let r := buscar s texto_consulta k filtro in
  let ranking := buscar s texto_consulta k None in
  Forall (λ x : documento * pontuacao,
            satisfaz atributo_dict atributo_modelo x.1 filtro) r.1
  ∧ r.1 `sublist_of` ranking.1
  ∧ StronglySorted
      (λ x y : documento * pontuacao,
         Faiss.le (distancia_de x.2) (distancia_de y.2)) ranking.1
  ∧ r.2 = ranking.2.
Proof.
  unfold EmbeddingsService.buscar.
  destruct (index s) as [ix|]; [|cbn; repeat split; constructor].
  destruct (gerar_embedding modelo_embeddings dimensao_embeddings md5 openai
              s texto_consulta) as [q s1].
  unfold Faiss.search.
  destruct (negb (len q =? Faiss.d ix)); [cbn; repeat split; constructor|].
  destruct (negb (0 <? k)); [cbn; repeat split; constructor|].
  destruct (negb (Faiss.aloca faiss _ k)); [cbn; repeat split; constructor|].
  destruct (negb (Faiss.is_trained ix)); [cbn; repeat split; constructor|].
  cbn [map lookup list_lookup fst snd].
  rewrite !resultados_por_entrada.
  split; [|split; [|split]].
  - apply Forall_forall. intros x Hx.
    apply list_elem_of_omap in Hx as (e & _ & He).
    by destruct (entrada_sem_filtro _ _ _ _ He) as (_ & Hs & _).
  - apply omap_sublist. intros e x He.
    by destruct (entrada_sem_filtro _ _ _ _ He) as (Hn & _).
  - apply entradas_ordenadas.
  - reflexivity.
Qed.

End busca.

(** The search for the vector (2, 1, 0) ranks the slots 0, 1, 2; the filter
    on [tipo] keeps the first and the third, in that order. *)
Example buscar_filtrado_exemplo :
  let openai := λ (_ : nat) (_ : list string),
                  Some (Exemplos.linhas [[2; 1; 0]]) in
  let r := buscar "m" 3 Exemplos.md5 openai Exemplos.exata Exemplos.so_keys
             Exemplos.so_keys Exemplos.es1 "faturas" 5
             (Some [("tipo", VStr "fatura")]) in
  r.1.*1 = [ Dict {[ "tipo" := VStr "fatura"; "cliente_id" := VStr "c1" ]};
             Dict {[ "tipo" := VStr "fatura"; "cliente_id" := VStr "c2" ]} ]
  ∧ r.1.*2 = [ UmMenosMetade (Finito 2); UmMenosMetade (Finito 6) ].
Proof. vm_compute. split; reflexivity. Qed.

(** C7 fails as stated: the filter [{"__hash__": None}] names an attribute
    of the class [dict], whose value is [None].  The search with it
    returns the three documents of the index, none of which has a field
    of that name. *)
Lemma buscar_filtrado_sem_o_campo :
  let openai := λ (_ : nat) (_ : list string),
                  Some (Exemplos.linhas [[2; 1; 0]]) in
  let r := buscar "m" 3 Exemplos.md5 openai Exemplos.exata Exemplos.com_hash
             Exemplos.so_keys Exemplos.es_dicts "faturas" 5
             (Some [("__hash__", VNone)]) in
  r.1.*1 = [ Dict {[ "tipo" := VStr "fatura"; "cliente_id" := VStr "c1" ]};
             Dict {[ "tipo" := VStr "cliente_info";
                     "cliente_id" := VStr "c1" ]};
             Dict {[ "tipo" := VStr "fatura"; "cliente_id" := VStr "c2" ]} ]
  ∧ Forall (λ doc, campo doc "__hash__" = None) r.1.*1.
Proof. vm_compute. split; [reflexivity|repeat constructor]. Qed.

End EmbeddingsServiceProps.

(** * Properties of loading an index *)

Module CargaProps.

Lemma converter_acc_None (raw : list (chave_json * gmap string valor)) :
  foldl inserir_convertida None raw = None.
Proof. induction raw as [|e raw IH]; [reflexivity|exact IH]. Qed.

(** The conversion keeps every entry under the integer its key converts
    to, and adds no other key. *)
Lemma converter_acc (raw : list (chave_json * gmap string valor))
    (m0 m : gmap Z documento) :
  foldl inserir_convertida (Some m0) raw = Some m →
  (∀ e, e ∈ raw → ∃ z, int_chave e.1 = Some z ∧ is_Some (m !! z))
  ∧ (∀ z, is_Some (m0 !! z) → is_Some (m !! z))
  ∧ (∀ z, is_Some (m !! z) →
          is_Some (m0 !! z) ∨ ∃ e, e ∈ raw ∧ int_chave e.1 = Some z).
Proof.
  revert m0. induction raw as [|e raw IH]; intros m0 H.
  - cbn in H. injection H as ->. repeat split; auto.
    intros e He. by apply elem_of_nil in He.
  - cbn [foldl] in H. unfold inserir_convertida at 2 in H.
    cbn [mbind option_bind] in H.
    destruct (int_chave e.1) as [z|] eqn:Ez; cbn [mbind option_bind] in H.
    2:{ rewrite converter_acc_None in H. discriminate. }
    destruct (IH _ H) as (Hin & Hmono & Hdom).
    assert (Hz : is_Some (m !! z)).
    { apply Hmono. rewrite lookup_insert_eq. eauto. }
    split; [|split].
    + intros e' [->|He']%elem_of_cons; [eauto|by apply Hin].
    + intros z' Hz'. apply Hmono.
      destruct (decide (z = z')) as [->|Hne];
        [rewrite lookup_insert_eq; eauto|by rewrite lookup_insert_ne].
    + intros z' Hz'. destruct (Hdom z' Hz') as [H0|(e' & He' & Ee')].
      * destruct (decide (z = z')) as [->|Hne].
        -- right. exists e. split; [by left|exact Ez].
        -- rewrite lookup_insert_ne in H0 by exact Hne. by left.
      * right. exists e'. split; [by right|exact Ee'].
Qed.

Lemma converter_chaves_chaves (raw : list (chave_json * gmap string valor))
    (m : gmap Z documento) :
  converter_chaves raw = Some m →
  (∀ e, e ∈ raw → ∃ z, int_chave e.1 = Some z ∧ is_Some (m !! z))
  ∧ (∀ z, is_Some (m !! z) → ∃ e, e ∈ raw ∧ int_chave e.1 = Some z).
Proof.
  intros H. destruct (converter_acc raw ∅ m H) as (Hin & _ & Hdom).
  split; [exact Hin|].
  intros z Hz. destruct (Hdom z Hz) as [H0|He]; [|exact He].
  rewrite lookup_empty in H0. by destruct H0.
Qed.

Section carga.
Variable diretorio : string.
Variable modelo_embeddings : string.
Variable strftime : Z → string → string.

Lemma se_existe_Some (fs : Disco.t) (c : string) (a : arquivo) :
  fs !! c = Some a →
  FaissService.se_existe fs c = Some c ∧ EmbeddingsService.se_existe fs c = Some c.
Proof.
  intros H. unfold FaissService.se_existe, EmbeddingsService.se_existe, Disco.exists_.
  rewrite H, bool_decide_eq_true_2 by eauto. done.
Qed.

(** [FaissService.carregar_indice] on a snapshot whose files can be read. *)
Lemma carregar_indice_legivel (s : FaissService.t) (fs : Disco.t)
    (indice_id : string) (nome_arquivo : option string)
    (nome cm cmeta : string) (ix : Faiss.index) (m : gmap Z documento)
    (meta : IndiceMetadata.t) (agora : Z) :
  FaissService.escolhido diretorio fs indice_id nome_arquivo = Some nome →
  FaissService.caminho_mapeamento diretorio indice_id nome = Some cm →
  FaissService.caminho_metadata diretorio indice_id nome = Some cmeta →
  snapshot_legivel fs (Py.join diretorio nome) cm cmeta ix m meta →
  FaissService.carregar_indice diretorio s fs indice_id nome_arquivo agora
  = (true,
     {| FaissService.indices := <[indice_id := ix]> (FaissService.indices s);
        FaissService.metadados := <[indice_id := meta]> (FaissService.metadados s);
        FaissService.mapeamentos := <[indice_id := m]> (FaissService.mapeamentos s) |}).
Proof.
  intros Hesc Hcm Hcmeta (Hix & (raw & Hraw & Hconv) & Hmeta).
  unfold FaissService.carregar_indice. rewrite Hesc, Hix, Hcm, Hcmeta.
  cbn [mbind option_bind].
  destruct (se_existe_Some fs cm _ Hraw) as [-> _].
  destruct (se_existe_Some fs cmeta _ Hmeta) as [-> _].
  unfold Disco.ler_mapeamento, Disco.ler_metadata. rewrite Hraw, Hmeta.
  cbn [mbind option_bind]. rewrite Hconv. cbn [mbind option_bind].
  unfold FaissService.set_metadados, FaissService.set_mapeamentos,
    FaissService.set_indices.
  cbn [FaissService.indices FaissService.metadados FaissService.mapeamentos].
  by rewrite insert_insert_eq.
Qed.

(** [EmbeddingsService.carregar_indice_faiss] on such a snapshot. *)
Lemma carregar_indice_faiss_legivel (s : EmbeddingsService.t) (fs : Disco.t)
    (caminho_indice : option string) (ci cm cmeta : string)
    (ix : Faiss.index) (m : gmap Z documento) (meta : IndiceMetadata.t)
    (agora : Z) :
  EmbeddingsService.caminhos diretorio fs caminho_indice
    = Some (ci, Some cm, Some cmeta) →
  snapshot_legivel fs ci cm cmeta ix m meta →
  EmbeddingsService.carregar_indice_faiss modelo_embeddings diretorio strftime
    s fs caminho_indice agora
  = (true, EmbeddingsService.set_indice s (Some ix) (Some meta) m).
Proof.
  intros Hcam (Hix & (raw & Hraw & Hconv) & Hmeta).
  unfold EmbeddingsService.carregar_indice_faiss. rewrite Hcam, Hix.
  cbn [mbind option_bind].
  destruct (se_existe_Some fs cm _ Hraw) as [_ ->].
  destruct (se_existe_Some fs cmeta _ Hmeta) as [_ ->].
  unfold Disco.ler_mapeamento, Disco.ler_metadata. rewrite Hraw, Hmeta.
  cbn [mbind option_bind]. rewrite Hconv. reflexivity.
Qed.

(** C3, as the code has it: neither loader compares the dimension of the
    index file, the dimension in the metadata file and the keys of the
    mapping file.  For each loader on its own: whenever the three files it
    settles on can be read (the index by FAISS, every key of the mapping
    by [int], the metadata by [IndiceMetadata]) the load returns true and
    adopts the index, the converted mapping and the metadata exactly as
    read, whatever they say about dimensions and slots; and whenever the
    index file it settles on cannot be read, the load returns false and
    the service is unchanged. *)
Theorem carga_sem_validacao (fs : Disco.t)
    (s : FaissService.t) (indice_id : string) (nome_arquivo : option string)
    (es : EmbeddingsService.t) (caminho_indice : option string) (agora : Z) :
  (∀ (nome cm cmeta : string) (ix : Faiss.index) (m : gmap Z documento)
     (meta : IndiceMetadata.t),
     FaissService.escolhido diretorio fs indice_id nome_arquivo = Some nome →
     FaissService.caminho_mapeamento diretorio indice_id nome = Some cm →
     FaissService.caminho_metadata diretorio indice_id nome = Some cmeta →
     snapshot_legivel fs (Py.join diretorio nome) cm cmeta ix m meta →
     FaissService.carregar_indice diretorio s fs indice_id nome_arquivo agora
     = (true,
        {| FaissService.indices := <[indice_id := ix]> (FaissService.indices s);
           FaissService.metadados :=
             <[indice_id := meta]> (FaissService.metadados s);
           FaissService.mapeamentos :=
             <[indice_id := m]> (FaissService.mapeamentos s) |}))
  ∧ (∀ (ci cm cmeta : string) (ix : Faiss.index) (m : gmap Z documento)
       (meta : IndiceMetadata.t),
       EmbeddingsService.caminhos diretorio fs caminho_indice
         = Some (ci, Some cm, Some cmeta) →
       snapshot_legivel fs ci cm cmeta ix m meta →
       EmbeddingsService.carregar_indice_faiss modelo_embeddings diretorio
         strftime es fs caminho_indice agora
       = (true, EmbeddingsService.set_indice es (Some ix) (Some meta) m))
  ∧ (∀ nome : string,
       FaissService.escolhido diretorio fs indice_id nome_arquivo = Some nome →
       Disco.read_index fs (Py.join diretorio nome) = None →
       FaissService.carregar_indice diretorio s fs indice_id nome_arquivo agora
       = (false, s))
  ∧ (∀ (ci : string) (cm cmeta : option string),
       EmbeddingsService.caminhos diretorio fs caminho_indice
         = Some (ci, cm, cmeta) →
       Disco.read_index fs ci = None →
       EmbeddingsService.carregar_indice_faiss modelo_embeddings diretorio
         strftime es fs caminho_indice agora
       = (false, es)).
Proof.
  split; [|split; [|split]].
  - intros nome cm cmeta ix m meta Hesc Hcm Hcmeta Hsnap.
    by eapply carregar_indice_legivel.
  - intros ci cm cmeta ix m meta Hcam Hsnap.
    by eapply carregar_indice_faiss_legivel.
  - intros nome Hesc Hnone. unfold FaissService.carregar_indice.
    by rewrite Hesc, Hnone.
  - intros ci cm cmeta Hcam Hnone.
    unfold EmbeddingsService.carregar_indice_faiss. by rewrite Hcam, Hnone.
Qed.

(** What a successful load leaves as the slot mapping. *)
Lemma carregar_indice_mapeamento (s : FaissService.t) (fs : Disco.t)
    (indice_id : string) (nome_arquivo : option string) (nome cm : string)
    (raw : list (chave_json * gmap string valor)) (agora : Z) :
  FaissService.escolhido diretorio fs indice_id nome_arquivo = Some nome →
  FaissService.caminho_mapeamento diretorio indice_id nome = Some cm →
  fs !! cm = Some (ArqMapeamento raw) →
  (FaissService.carregar_indice diretorio s fs indice_id nome_arquivo agora).1 = true →
  converter_chaves raw
  = Some (FaissService.slots
            (FaissService.carregar_indice diretorio s fs indice_id nome_arquivo agora).2
            indice_id).
Proof.
  intros Hesc Hcm Hraw. unfold FaissService.carregar_indice.
  rewrite Hesc, Hcm. cbn [mbind option_bind].
  destruct (se_existe_Some fs cm _ Hraw) as [-> _].
  unfold Disco.ler_mapeamento. rewrite Hraw. cbn [mbind option_bind].
  destruct (Disco.read_index fs (Py.join diretorio nome)) as [ix|];
    [|discriminate].
  destruct (converter_chaves raw) as [m|]; cbn [mbind option_bind];
    [|discriminate].
  assert (Hslots : ∀ metas,
    FaissService.slots
      (FaissService.set_metadados
         (FaissService.set_mapeamentos
            (FaissService.set_mapeamentos
               (FaissService.set_indices s (<[indice_id:=ix]> (FaissService.indices s)))
               (<[indice_id:=∅]> (FaissService.mapeamentos s)))
            (<[indice_id:=m]> (<[indice_id:=∅]> (FaissService.mapeamentos s))))
         metas) indice_id = m).
  { intros metas. unfold FaissService.slots. cbn.
    by rewrite lookup_insert_eq. }
  destruct (FaissService.caminho_metadata diretorio indice_id nome ≫=
            FaissService.se_existe fs) as [c|].
  - destruct (Disco.ler_metadata fs c); [|discriminate].
    intros _. cbn [snd]. cbn. by rewrite Hslots.
  - intros _. cbn [snd]. cbn. by rewrite Hslots.
Qed.

Lemma carregar_indice_faiss_mapeamento (s : EmbeddingsService.t) (fs : Disco.t)
    (caminho_indice : option string) (ci cm : string) (cmeta : option string)
    (raw : list (chave_json * gmap string valor)) (agora : Z) :
  EmbeddingsService.caminhos diretorio fs caminho_indice = Some (ci, Some cm, cmeta) →
  fs !! cm = Some (ArqMapeamento raw) →
  (EmbeddingsService.carregar_indice_faiss modelo_embeddings diretorio strftime
     s fs caminho_indice agora).1 = true →
  converter_chaves raw
  = Some (EmbeddingsService.id_para_documento
            (EmbeddingsService.carregar_indice_faiss modelo_embeddings diretorio
               strftime s fs caminho_indice agora).2).
Proof.
  intros Hcam Hraw. unfold EmbeddingsService.carregar_indice_faiss.
  rewrite Hcam. cbn [mbind option_bind].
  destruct (se_existe_Some fs cm _ Hraw) as [_ ->].
  unfold Disco.ler_mapeamento. rewrite Hraw. cbn [mbind option_bind].
  destruct (Disco.read_index fs ci) as [ix|]; [|discriminate].
  destruct (converter_chaves raw) as [m|]; cbn [mbind option_bind];
    [|discriminate].
  destruct (cmeta ≫= EmbeddingsService.se_existe fs) as [c|].
  - destruct (Disco.ler_metadata fs c); [|discriminate]. reflexivity.
  - reflexivity.
Qed.


End carga.

Lemma carga_sem_validacao_witness :
  FaissService.carregar_indice "faiss" FaissService.novo Exemplos.disco "idx" None 0
  = (true,
     {| FaissService.indices := <["idx" := Exemplos.ix_um]> ∅;
        FaissService.metadados := <["idx" := Exemplos.meta_outra]> ∅;
        FaissService.mapeamentos :=
          <["idx" := {[ 0 := Dict {[ "id" := VStr "A" ]};
                        7 := Dict {[ "id" := VStr "B" ]} ]}]> ∅ |})
  ∧ EmbeddingsService.carregar_indice_faiss "m" "faiss" Exemplos.sem_relogio
      EmbeddingsService.novo Exemplos.disco None 0
    = (true,
       EmbeddingsService.set_indice EmbeddingsService.novo
         (Some Exemplos.ix_um) (Some Exemplos.meta_outra)
         {[ 0 := Dict {[ "id" := VStr "A" ]}; 7 := Dict {[ "id" := VStr "B" ]} ]})
  ∧ FaissService.carregar_indice "faiss" FaissService.novo Exemplos.disco "x"
      (Some "x.index") 0
    = (false, FaissService.novo)
  ∧ EmbeddingsService.carregar_indice_faiss "m" "faiss" Exemplos.sem_relogio
      EmbeddingsService.novo Exemplos.disco (Some "faiss/x.index") 0
    = (false, EmbeddingsService.novo).
Proof.
  assert (Hsnap : snapshot_legivel Exemplos.disco "faiss/idx_20240101.index"
                    "faiss/idx_20240101_mapping.json"
                    "faiss/idx_20240101_metadata.json" Exemplos.ix_um
                    {[ 0 := Dict {[ "id" := VStr "A" ]};
                       7 := Dict {[ "id" := VStr "B" ]} ]}
                    Exemplos.meta_outra).
  { split; [vm_compute; reflexivity|].
    split; [exists Exemplos.raw_7; split; vm_compute; reflexivity|].
    vm_compute; reflexivity. }
  destruct (carga_sem_validacao "faiss" "m" Exemplos.sem_relogio Exemplos.disco
              FaissService.novo "idx" None EmbeddingsService.novo None 0)
    as (H1 & H2 & _ & _).
  destruct (carga_sem_validacao "faiss" "m" Exemplos.sem_relogio Exemplos.disco
              FaissService.novo "x" (Some "x.index") EmbeddingsService.novo
              (Some "faiss/x.index") 0)
    as (_ & _ & H3 & H4).
  split; [|split; [|split]].
  - apply (H1 "idx_20240101.index" "faiss/idx_20240101_mapping.json"
             "faiss/idx_20240101_metadata.json");
      [vm_compute; reflexivity..|exact Hsnap].
  - apply (H2 "faiss/idx_20240101.index" "faiss/idx_20240101_mapping.json"
             "faiss/idx_20240101_metadata.json");
      [vm_compute; reflexivity|exact Hsnap].
  - apply (H3 "x.index"); vm_compute; reflexivity.
  - apply (H4 "faiss/x.index" None None); vm_compute; reflexivity.
Defined.

(** C3 fails as stated: the load of a snapshot whose index file has
    dimension 3 and one vector, whose metadata says dimension 5 and whose
    mapping has slot 7 returns true and adopts all three. *)
Lemma carga_aceita_inconsistente :
  let r := FaissService.carregar_indice "faiss" FaissService.novo
             Exemplos.disco "idx" None 0 in
  r.1 = true
  ∧ (Faiss.d <$> FaissService.indices r.2 !! "idx") = Some 3
  ∧ (IndiceMetadata.dimensao <$> FaissService.metadados r.2 !! "idx") = Some 5
  ∧ FaissService.contagem r.2 "idx" = 1
  ∧ FaissService.slots r.2 "idx" !! 7 = Some (Dict {[ "id" := VStr "B" ]}).
Proof. vm_compute. repeat split. Qed.

(** The snapshot with a mapping key that does not convert: the load returns
    false, with the index of the file already in the store. *)
Lemma carga_recusada_deixa_indice :
  let r := FaissService.carregar_indice "faiss" FaissService.novo
             Exemplos.disco_chave_ruim "idx" None 0 in
  r.1 = false
  ∧ FaissService.indices r.2 !! "idx" = Some Exemplos.ix_um
  ∧ FaissService.metadados r.2 !! "idx" = None.
Proof. vm_compute. repeat split. Qed.



End CargaProps.

(** * More properties: Python's [str] and [int] *)

Module PyProps.

Lemma digito_casos (d : Z) :
  0 ≤ d < 10 →
  Ascii.is_nat (Py.digito d) = Some (Z.to_nat d)
  ∧ Py.is_space (Py.digito d) = false
  ∧ Py.digito d ≠ "-"%char ∧ Py.digito d ≠ "+"%char.
Proof.
  intros H.
  assert (Hd : d = 0 ∨ d = 1 ∨ d = 2 ∨ d = 3 ∨ d = 4 ∨ d = 5 ∨ d = 6
               ∨ d = 7 ∨ d = 8 ∨ d = 9) by lia.
  repeat (destruct Hd as [->|Hd]; [by repeat split|]). subst d. by repeat split.
Qed.

(** Reading back the digits [str_digitos] wrote gives the number. *)
Lemma digitos_str_digitos (voltas : nat) (n : Z) (acc : string) (b : bool) :
  0 ≤ n < 2 ^ Z.of_nat (S voltas) →
  Py.digitos (Py.str_digitos (S voltas) n acc) 0 b = Py.digitos acc n true.
Proof.
  revert n acc b. induction voltas as [|voltas IH]; intros n acc b Hn.
  - assert (Hlt : (n <? 10) = true) by (apply Z.ltb_lt; cbn in Hn; lia).
    cbn [Py.str_digitos]. rewrite Hlt. cbn [Py.digitos].
    rewrite Z.mod_small by (cbn in Hn; lia).
    destruct (digito_casos n) as (-> & _); [cbn in Hn; lia|].
    f_equal. lia.
  - cbn [Py.str_digitos]. fold (Py.str_digitos (S voltas)).
    destruct (n <? 10) eqn:Hlt.
    + apply Z.ltb_lt in Hlt. cbn [Py.digitos].
      rewrite Z.mod_small by lia.
      destruct (digito_casos n) as (-> & _); [lia|]. f_equal. lia.
    + apply Z.ltb_ge in Hlt.
      change (if n / 10 <? 10 then _ else _)
        with (Py.str_digitos (S voltas) (n / 10)
                (String (Py.digito (n mod 10)) acc)).
      rewrite IH.
      * cbn [Py.digitos].
        destruct (digito_casos (n mod 10)) as (-> & _);
          [apply Z.mod_pos_bound; lia|].
        f_equal. pose proof (Z.div_mod n 10). pose proof (Z.mod_pos_bound n 10).
        lia.
      * split; [apply Z.div_pos; lia|].
        apply Z.div_lt_upper_bound; [lia|].
        replace (Z.of_nat (S (S voltas))) with (Z.succ (Z.of_nat (S voltas)))
          in Hn by lia.
        rewrite Z.pow_succ_r in Hn by lia. lia.
Qed.

Local Abbreviation sem_espacos := Py.sem_espacos.

Lemma sem_espacos_lstrip (s : string) : sem_espacos s → Py.lstrip s = s.
Proof.
  destruct s as [|c s]; [reflexivity|].
  intros H. apply Forall_cons in H as [Hc _]. cbn. by rewrite Hc.
Qed.

Lemma sem_espacos_rev_app (s acc : string) :
  sem_espacos s → sem_espacos acc → sem_espacos (String.rev_app s acc).
Proof.
  revert acc. induction s as [|c s IH]; intros acc Hs Hacc; [exact Hacc|].
  apply Forall_cons in Hs as [Hc Hs]. cbn. apply IH; [exact Hs|].
  by apply Forall_cons.
Qed.

Lemma rev_app_rev_app (s a b : string) :
  String.rev_app (String.rev_app s a) b = String.rev_app a (s +:+ b).
Proof.
  revert a. induction s as [|c s IH]; intros a; [reflexivity|].
  cbn. by rewrite IH.
Qed.

Lemma append_vazio (s : string) : s +:+ "" = s.
Proof.
  induction s as [|c s IH]; [reflexivity|].
  change (String c (s +:+ "") = String c s). by rewrite IH.
Qed.

Lemma rev_rev (s : string) : String.rev (String.rev s) = s.
Proof.
  unfold String.rev. rewrite rev_app_rev_app. apply append_vazio.
Qed.

Lemma sem_espacos_strip (s : string) : sem_espacos s → Py.strip s = s.
Proof.
  intros H. unfold Py.strip. rewrite (sem_espacos_lstrip s H).
  rewrite sem_espacos_lstrip; [apply rev_rev|].
  apply sem_espacos_rev_app; [exact H|constructor].
Qed.

Lemma str_digitos_forma (voltas : nat) (n : Z) (acc : string) :
  0 ≤ n → sem_espacos acc →
  sem_espacos (Py.str_digitos voltas n acc)
  ∧ ∃ d r, 0 ≤ d < 10 ∧ Py.str_digitos (S voltas) n acc = String (Py.digito d) r.
Proof.
  revert n acc. induction voltas as [|voltas IH]; intros n acc Hn Hacc.
  - split; [exact Hacc|]. exists (n mod 10), acc.
    split; [apply Z.mod_pos_bound; lia|]. cbn. by destruct (n <? 10).
  - assert (Hd : 0 ≤ n mod 10 < 10) by (apply Z.mod_pos_bound; lia).
    assert (Hacc' : sem_espacos (String (Py.digito (n mod 10)) acc)).
    { apply Forall_cons. split; [|exact Hacc].
      by destruct (digito_casos (n mod 10) Hd) as (_ & ? & _). }
    destruct (IH (n / 10) _ (Z.div_pos n 10 Hn ltac:(lia)) Hacc')
      as [Hsem (d & r & Hdr & Heq)].
    split.
    + cbn [Py.str_digitos]. destruct (n <? 10); [exact Hacc'|exact Hsem].
    + change (Py.str_digitos (S (S voltas)) n acc)
        with (if n <? 10 then String (Py.digito (n mod 10)) acc
              else Py.str_digitos (S voltas) (n / 10)
                     (String (Py.digito (n mod 10)) acc)).
      destruct (n <? 10); [by exists (n mod 10), acc|by exists d, r].
Qed.

Lemma int_digito (d : Z) (r : string) :
  0 ≤ d < 10 → sem_espacos (String (Py.digito d) r) →
  Py.int (String (Py.digito d) r) = Py.digitos (String (Py.digito d) r) 0 false.
Proof.
  intros Hd Hsem. unfold Py.int. rewrite (sem_espacos_strip _ Hsem).
  assert (Hc : d = 0 ∨ d = 1 ∨ d = 2 ∨ d = 3 ∨ d = 4 ∨ d = 5 ∨ d = 6
               ∨ d = 7 ∨ d = 8 ∨ d = 9) by lia.
  repeat (destruct Hc as [->|Hc]; [reflexivity|]). subst d. reflexivity.
Qed.

Lemma log2_voltas (n : Z) : 0 ≤ n → 0 ≤ n < 2 ^ Z.of_nat (S (Z.to_nat (Z.log2 n))).
Proof.
  intros Hn. split; [exact Hn|].
  rewrite Nat2Z.inj_succ, Z2Nat.id by apply Z.log2_nonneg.
  destruct (decide (n = 0)) as [->|Hne]; [by cbn|].
  apply Z.log2_spec. lia.
Qed.

(** [int(str(z)) == z] for every integer. *)
Lemma int_str (z : Z) : Py.int (Py.str z) = Some z.
Proof.
  unfold Py.str. destruct (z <? 0) eqn:Hneg.
  - apply Z.ltb_lt in Hneg.
    destruct (str_digitos_forma (S (Z.to_nat (Z.log2 (- z)))) (- z) "")
      as [Hsem _]; [lia|constructor|].
    unfold Py.int. rewrite sem_espacos_strip by (by apply Forall_cons).
    rewrite digitos_str_digitos by (apply log2_voltas; lia).
    cbn. f_equal. lia.
  - apply Z.ltb_ge in Hneg.
    destruct (str_digitos_forma (Z.to_nat (Z.log2 z)) z "")
      as [_ (d & r & Hd & Heq)]; [lia|constructor|].
    destruct (str_digitos_forma (S (Z.to_nat (Z.log2 z))) z "")
      as [Hsem _]; [lia|constructor|].
    rewrite Heq in Hsem |- *. rewrite (int_digito d r Hd Hsem), <- Heq.
    by rewrite digitos_str_digitos by (apply log2_voltas; lia).
Qed.

(** [int] on some keys: white space around the digits is dropped, the
    separators FS to US (28 to 31) are not white space for a string of
    ASCII characters, an underscore may stand between two digits. *)
Example int_exemplos :
  Py.int " 7 " = Some 7
  ∧ Py.int (String (ascii_of_nat 9) "-12") = Some (-12)
  ∧ Py.int (String (ascii_of_nat 28) "7") = None
  ∧ Py.int ("7" +:+ String (ascii_of_nat 31) "") = None
  ∧ Py.int "1_000" = Some 1000
  ∧ Py.int "1__0" = None
  ∧ Py.int "- 7" = None
  ∧ Py.int "" = None.
Proof. vm_compute. repeat split. Qed.

End PyProps.

(** * Dictionaries filled by a loop *)

Module MapaProps.

Section foldl_insert.
Context `{Countable K} {A B : Type}.
Variable f : B → A.

Lemma foldl_insert_fora (l : list (K * B)) (acc : gmap K A) (k : K) :
  k ∉ l.*1 →
  foldl (λ m e, <[e.1 := f e.2]> m) acc l !! k = acc !! k.
Proof.
  revert acc. induction l as [|e l IH]; intros acc Hk; [reflexivity|].
  cbn [foldl]. rewrite IH.
  - apply lookup_insert_ne. intros Heq. apply Hk. cbn. rewrite <- Heq. by left.
  - intros Hin. apply Hk. cbn. by right.
Qed.

Lemma foldl_insert_dentro (l : list (K * B)) (acc : gmap K A) (k : K) (x : B) :
  NoDup l.*1 → (k, x) ∈ l →
  foldl (λ m e, <[e.1 := f e.2]> m) acc l !! k = Some (f x).
Proof.
  revert acc. induction l as [|e l IH]; intros acc Hnd Hin.
  - by apply elem_of_nil in Hin.
  - cbn in Hnd. apply NoDup_cons in Hnd as [Hfora Hnd].
    cbn [foldl]. apply elem_of_cons in Hin as [<-|Hin].
    + rewrite foldl_insert_fora by exact Hfora. cbn. apply lookup_insert_eq.
    + by apply IH.
Qed.

(** Writing the items of a dictionary into another one, whatever the
    order, gives the union in which the items written win. *)
Lemma foldl_insert_map_to_list (c : gmap K B) (acc : gmap K A) :
  foldl (λ m e, <[e.1 := f e.2]> m) acc (map_to_list c) = (f <$> c) ∪ acc.
Proof.
  apply map_eq. intros k. rewrite lookup_union, lookup_fmap.
  destruct (c !! k) as [x|] eqn:Hk; cbn.
  - rewrite (foldl_insert_dentro _ _ k x);
      [by destruct (acc !! k)|apply NoDup_fst_map_to_list|].
    by apply elem_of_map_to_list.
  - rewrite foldl_insert_fora; [by destruct (acc !! k)|].
    intros Hin. apply list_elem_of_fmap in Hin as ([k' x] & -> & Hin).
    apply elem_of_map_to_list in Hin. cbn in Hk. congruence.
Qed.
End foldl_insert.

(** Two dictionaries that are part of a third one agree where both have
    a key: their union has both and is part of the third. *)
Lemma uniao_compativel `{Countable K} {A} (c acc total : gmap K A) :
  c ⊆ total → acc ⊆ total →
  c ∪ acc ⊆ total ∧ c ⊆ c ∪ acc ∧ acc ⊆ c ∪ acc.
Proof.
  intros Hc Hacc. split; [by apply map_union_least|].
  split; [apply map_union_subseteq_l|].
  apply map_subseteq_spec. intros k x Hk.
  apply lookup_union_Some_raw.
  destruct (c !! k) as [y|] eqn:Ec; [left|right; by split].
  rewrite map_subseteq_spec in Hc, Hacc.
  specialize (Hc k y Ec). specialize (Hacc k x Hk). congruence.
Qed.

End MapaProps.

(** * More properties of [FaissService] *)

Module FaissServiceExtras.
Import FaissService.

(** ** Creating and removing *)

(** [criar_indice] refuses an id that is in use and changes nothing. *)
Lemma criar_indice_id_em_uso (s : t) (indice_id tipo : string)
    (dimensao : Z) (extra : option extras) (agora : Z) :
  is_Some (indices s !! indice_id) →
  criar_indice s indice_id dimensao tipo extra agora = (false, s).
Proof.
  intros H. unfold criar_indice. by rewrite bool_decide_eq_true_2.
Qed.

(** What [criar_indice] does with a free id: nothing when the constructor
    of FAISS raises; the index and an empty mapping, without metadata,
    when [IndiceMetadata] refuses the extra metadata; all three
    otherwise. *)
Lemma criar_indice_casos (s : t) (indice_id tipo : string)
    (dimensao : Z) (extra : option extras) (agora : Z) :
  indices s !! indice_id = None →
  let r := criar_indice s indice_id dimensao tipo extra agora in
  (r = (false, s) ∧ construir tipo dimensao = None)
  ∨ (∃ ix,
       r = (false,
            {| indices := <[indice_id := ix]> (indices s);
               metadados := metadados s;
               mapeamentos := <[indice_id := ∅]> (mapeamentos s) |})
       ∧ validar_metadados indice_id dimensao extra agora = None)
  ∨ (∃ ix meta,
       r = (true,
            {| indices := <[indice_id := ix]> (indices s);
               metadados := <[indice_id := meta]> (metadados s);
               mapeamentos := <[indice_id := ∅]> (mapeamentos s) |})
       ∧ construir tipo dimensao = Some ix
       ∧ validar_metadados indice_id dimensao extra agora = Some meta).
Proof.
  intros H. cbn zeta. unfold criar_indice. rewrite H.
  rewrite (bool_decide_eq_false_2 (is_Some None)) by (intros [? ?]; discriminate).
  destruct (construir tipo dimensao) as [ix|]; [|by left].
  destruct (validar_metadados indice_id dimensao extra agora) as [meta|].
  - right; right. by exists ix, meta.
  - right; left. by exists ix.
Qed.

Lemma criar_indice_livre (s : t) (indice_id tipo : string)
    (dimensao : Z) (extra : option extras) (agora : Z) :
  indices s !! indice_id = None →
  0 < dimensao < 2 ^ 31 →
  aceitos extra = true →
  ∃ ix meta,
    criar_indice s indice_id dimensao tipo extra agora
    = (true,
       {| indices := <[indice_id := ix]> (indices s);
          metadados := <[indice_id := meta]> (metadados s);
          mapeamentos := <[indice_id := ∅]> (mapeamentos s) |})
    ∧ Faiss.d ix = dimensao ∧ Faiss.xb ix = []
    ∧ IndiceMetadata.id meta = indice_id
    ∧ IndiceMetadata.dimensao meta = dimensao
    ∧ validado 0 (extra ≫= ex_num_vetores)
      = Some (IndiceMetadata.num_vetores meta).
Proof.
  intros H Hdim Hextra.
  destruct (FaissServiceProps.construir_faixa tipo dimensao Hdim) as [ix Hix].
  destruct (FaissServiceProps.validar_metadados_aceitos indice_id dimensao
              extra agora Hextra) as [meta Hmeta].
  destruct (FaissServiceProps.construir_Some _ _ _ Hix) as [Hxb Hd].
  destruct (FaissServiceProps.validar_metadados_Some _ _ _ _ _ Hmeta)
    as (Hid & Hdm & Hn).
  exists ix, meta. unfold criar_indice. rewrite H, Hix, Hmeta.
  rewrite (bool_decide_eq_false_2 (is_Some None)) by (intros [? ?]; discriminate).
  repeat split; try done. apply Hd. lia.
Qed.

(** X1: Removing an id after [criar_indice] was called with it, free, gives
    back the state before the call: whether the creation succeeded, failed
    with nothing stored, or failed with the index and its mapping stored.
    When the creation returned true, the removal returns true. *)
Theorem criar_remover (s : t) (indice_id tipo : string)
    (dimensao : Z) (extra : option extras) (agora : Z) :
  ausente s indice_id →
  let r := criar_indice s indice_id dimensao tipo extra agora in
  (remover_indice r.2 indice_id).2 = s
  ∧ (r.1 = true → remover_indice r.2 indice_id = (true, s)).
Proof.
  intros (Hi & Hm & Hp). cbn zeta.
  destruct (criar_indice_casos s indice_id tipo dimensao extra agora Hi)
    as [[-> _]|[(ix & -> & _)|(ix & meta & -> & _)]];
    unfold remover_indice; cbn [fst snd indices metadados mapeamentos].
  - rewrite Hi. by split.
  - rewrite lookup_insert_eq. cbn [snd]. split; [|discriminate].
    rewrite !delete_insert_id by assumption.
    rewrite (delete_id (metadados s)) by assumption. by destruct s.
  - rewrite lookup_insert_eq. cbn [snd].
    rewrite !delete_insert_id by assumption. by destruct s.
Qed.

Lemma criar_remover_witness :
  let r := criar_indice Exemplos.s1 "outro" 4 "ivf" None 9 in
  (remover_indice r.2 "outro").2 = Exemplos.s1
  ∧ (r.1 = true → remover_indice r.2 "outro" = (true, Exemplos.s1)).
Proof.
  apply (criar_remover Exemplos.s1 "outro" "ivf" 4 None 9).
  repeat split; vm_compute; reflexivity.
Defined.

(** X2: [remover_indice] returns false and changes nothing for an id that is
    not in the store; otherwise it returns true, the id is gone from the
    indices, the metadata and the mappings, and every other id keeps what
    it had. *)
Theorem remover_indice_efeito (s : t) (indice_id : string) :
  let r := remover_indice s indice_id in
  (indices s !! indice_id = None → r = (false, s))
  ∧ (is_Some (indices s !! indice_id) →
     r.1 = true ∧ ausente r.2 indice_id ∧ iguais_fora s r.2 indice_id).
Proof.
  unfold remover_indice. split.
  - by intros ->.
  - intros [ix ->]. cbn. split; [reflexivity|]. split.
    + repeat split; apply lookup_delete_eq.
    + intros outro Hne. repeat split; by apply lookup_delete_ne.
Qed.

(** ** What [adicionar_vetores] can do to the store *)

Lemma adicionar_vetores_casos (s : t) (indice_id : string) (vetores : ndarray)
    (mapeamento : option (gmap Z documento)) (agora : Z) :
  let r := adicionar_vetores s indice_id vetores mapeamento agora in
  r = (false, s)
  ∨ ∃ ix linhas,
      indices s !! indice_id = Some ix
      ∧ vetores = Arr2 (Faiss.d ix) linhas
      ∧ Faiss.is_trained ix = true
      ∧ indices r.2
        = <[indice_id := {| Faiss.cls := Faiss.cls ix; Faiss.d := Faiss.d ix;
                            Faiss.is_trained := Faiss.is_trained ix;
                            Faiss.xb := Faiss.xb ix ++ linhas |}]> (indices s)
      ∧ (mapeamentos r.2 = mapeamentos s
         ∨ ∃ anterior m,
             mapeamentos s !! indice_id = Some anterior
             ∧ mapeamento = Some m
             ∧ mapeamentos r.2
               = <[indice_id := deslocar (Faiss.ntotal ix) m anterior]>
                   (mapeamentos s))
      ∧ (metadados r.2 = metadados s ∧ r.1 = false
           ∧ (metadados s !! indice_id = None
              ∨ fornecido mapeamento = true
                ∧ mapeamentos s !! indice_id = None)
         ∨ ∃ meta,
             metadados s !! indice_id = Some meta
             ∧ r.1 = true
             ∧ (fornecido mapeamento = true → is_Some (mapeamentos s !! indice_id))
             ∧ metadados r.2
               = <[indice_id :=
                     IndiceMetadata.set_ultima_atualizacao
                       (IndiceMetadata.set_num_vetores meta
                          (Faiss.ntotal ix + len linhas)) agora]> (metadados s)).
Proof.
  unfold adicionar_vetores.
  destruct (indices s !! indice_id) as [[c d0 tr xb0]|] eqn:Hix; [|by left].
  destruct vetores as [v|ncols linhas|sh]; [by left| |by left].
  cbn [Faiss.d].
  destruct (ncols =? d0) eqn:Hd; [|by left].
  apply Z.eqb_eq in Hd. subst ncols. cbn [negb].
  unfold Faiss.add. cbn [Faiss.d Faiss.is_trained Faiss.cls Faiss.xb].
  rewrite Z.eqb_refl. cbn [negb].
  destruct tr; [|by left]. cbn [negb].
  right. eexists _, linhas.
  assert (Hn : Faiss.ntotal
                 {| Faiss.cls := c; Faiss.d := d0;
                    Faiss.is_trained := true; Faiss.xb := xb0 ++ linhas |}
               = Faiss.ntotal
                   {| Faiss.cls := c; Faiss.d := d0;
                      Faiss.is_trained := true; Faiss.xb := xb0 |}
                 + len linhas).
  { unfold Faiss.ntotal, len. cbn. rewrite length_app. lia. }
  rewrite Hn. clear Hn.
  split; [reflexivity|]. split; [reflexivity|]. split; [reflexivity|].
  cbn [mapeamentos set_indices].
  destruct (fornecido mapeamento) eqn:Hforn.
  - destruct mapeamento as [m|]; [|discriminate]. cbn [default].
    destruct (mapeamentos s !! indice_id) as [anterior|] eqn:Hant.
    + cbn [metadados set_mapeamentos set_indices].
      destruct (metadados s !! indice_id) as [meta|] eqn:Hmeta; cbn.
      * split; [reflexivity|]. split; [right; by exists anterior, m|].
        right. exists meta. by repeat split.
      * split; [reflexivity|]. split; [right; by exists anterior, m|].
        left. repeat split. by left.
    + cbn. split; [reflexivity|]. split; [by left|].
      left. repeat split. by right.
  - cbn [metadados set_indices].
    destruct (metadados s !! indice_id) as [meta|] eqn:Hmeta; cbn.
    + split; [reflexivity|]. split; [by left|].
      right. exists meta. by repeat split.
    + split; [reflexivity|]. split; [by left|]. left. repeat split. by left.
Qed.

(** The keys of the mapping after the loop of [adicionar_vetores]. *)
Lemma deslocar_chaves (offset : Z) (mapeamento anterior : gmap Z documento)
    (k : Z) :
  is_Some (deslocar offset mapeamento anterior !! k) →
  is_Some (anterior !! k)
  ∨ ∃ slot, is_Some (mapeamento !! slot) ∧ k = offset + slot.
Proof.
  unfold deslocar.
  apply (map_fold_weak_ind
           (λ acc m, is_Some (acc !! k) →
                     is_Some (anterior !! k)
                     ∨ ∃ slot, is_Some (m !! slot) ∧ k = offset + slot)).
  - by left.
  - intros i x m acc Hi IH Hk.
    destruct (decide (offset + i = k)) as [<-|Hne].
    + right. exists i. by rewrite lookup_insert_eq.
    + rewrite lookup_insert_ne in Hk by exact Hne.
      destruct (IH Hk) as [?|(slot & Hs & ->)]; [by left|].
      right. exists slot. split; [|reflexivity].
      destruct (decide (i = slot)) as [->|?];
        [by rewrite lookup_insert_eq|by rewrite lookup_insert_ne].
Qed.

Lemma deslocar_outros (offset : Z) (mapeamento anterior : gmap Z documento)
    (k : Z) :
  (∀ slot, is_Some (mapeamento !! slot) → k ≠ offset + slot) →
  deslocar offset mapeamento anterior !! k = anterior !! k.
Proof.
  unfold deslocar.
  apply (map_fold_weak_ind
           (λ acc m, (∀ slot, is_Some (m !! slot) → k ≠ offset + slot) →
                     acc !! k = anterior !! k)).
  - done.
  - intros i x m acc Hi IH Hk.
    rewrite lookup_insert_ne.
    + apply IH. intros slot Hs. apply Hk.
      destruct (decide (i = slot)) as [->|?];
        [by rewrite lookup_insert_eq|by rewrite lookup_insert_ne].
    + intros Heq. apply (Hk i); [by rewrite lookup_insert_eq|done].
Qed.

(** ** Every operation is local to the id it is given *)

Ltac so_este_id :=
  let outro := fresh "outro" in
  let Hne := fresh "Hne" in
  intros outro Hne; cbn;
  rewrite ?lookup_insert_ne by (intros ?; by apply Hne);
  rewrite ?lookup_delete_ne by (intros ?; by apply Hne);
  done.

Lemma iguais_fora_refl (s : t) (indice_id : string) : iguais_fora s s indice_id.
Proof. by intros outro _. Qed.

Lemma adicionar_vetores_local (s : t) (indice_id : string) (vetores : ndarray)
    (mapeamento : option (gmap Z documento)) (agora : Z) :
  iguais_fora s (adicionar_vetores s indice_id vetores mapeamento agora).2
    indice_id.
Proof.
  destruct (adicionar_vetores_casos s indice_id vetores mapeamento agora)
    as [->|(ix & linhas & _ & _ & _ & Hi & Hm & Hmeta)];
    [apply iguais_fora_refl|].
  intros outro Hne. rewrite Hi, lookup_insert_ne by done.
  split; [reflexivity|]. split.
  - destruct Hmeta as [[-> _]|(meta & _ & _ & _ & ->)];
      [reflexivity|by rewrite lookup_insert_ne].
  - destruct Hm as [->|(anterior & m & _ & _ & ->)];
      [reflexivity|by rewrite lookup_insert_ne].
Qed.

Section locais.
Variable diretorio_indices : string.
Variable strftime : Z → string → string.
Variable pode_gravar : Disco.t → string → bool.

Lemma carregar_indice_local (s : t) (fs : Disco.t) (indice_id : string)
    (nome_arquivo : option string) (agora : Z) :
  iguais_fora s
    (carregar_indice diretorio_indices s fs indice_id nome_arquivo agora).2
    indice_id.
Proof.
  unfold carregar_indice.
  repeat (case_match; try apply iguais_fora_refl);
    simplify_option_eq; so_este_id.
Qed.

Lemma salvar_indice_local (s : t) (fs : Disco.t) (indice_id : string)
    (agora : Z) :
  iguais_fora s
    (salvar_indice diretorio_indices strftime pode_gravar s fs indice_id agora).1.2
    indice_id.
Proof.
  unfold salvar_indice, Disco.gravar.
  repeat (case_match; simplify_eq; try apply iguais_fora_refl); so_este_id.
Qed.

(** X3: No operation of the service touches an id other than the one it is
    called with: in the state that [criar_indice], [adicionar_vetores],
    [carregar_indice], [salvar_indice] and [remover_indice] leave, whatever
    they return, every other id has the index, the metadata and the slot
    mapping it had. *)
Theorem operacoes_locais (s : t) (fs : Disco.t) (indice_id tipo : string)
    (dimensao : Z) (extra : option extras) (vetores : ndarray)
    (mapeamento : option (gmap Z documento)) (nome_arquivo : option string)
    (agora : Z) :
  iguais_fora s (criar_indice s indice_id dimensao tipo extra agora).2 indice_id
  ∧ iguais_fora s (adicionar_vetores s indice_id vetores mapeamento agora).2
      indice_id
  ∧ iguais_fora s
      (carregar_indice diretorio_indices s fs indice_id nome_arquivo agora).2
      indice_id
  ∧ iguais_fora s
      (salvar_indice diretorio_indices strftime pode_gravar s fs indice_id agora).1.2
      indice_id
  ∧ iguais_fora s (remover_indice s indice_id).2 indice_id.
Proof.
  split; [|split; [|split; [|split]]].
  - unfold criar_indice.
    repeat (case_match; try apply iguais_fora_refl); so_este_id.
  - apply adicionar_vetores_local.
  - apply carregar_indice_local.
  - apply salvar_indice_local.
  - unfold remover_indice. case_match; [so_este_id|apply iguais_fora_refl].
Qed.

(** ** Loading what the directory has *)

Lemma anexar_chaves (indice_id arquivo : string)
    (grupos : list (string * list string)) (g : string * list string) :
  g ∈ anexar indice_id arquivo grupos → g.1 = indice_id ∨ g.1 ∈ grupos.*1.
Proof.
  induction grupos as [|[i arquivos] grupos IH]; cbn [anexar].
  - intros ->%list_elem_of_singleton. by left.
  - case_bool_decide as Hi.
    + intros [->|Hin]%elem_of_cons; [by left|].
      right. cbn. right. apply list_elem_of_fmap. by exists g.
    + intros [->|Hin]%elem_of_cons; [right; cbn; by left|].
      destruct (IH Hin) as [?|?]; [by left|right; cbn; by right].
Qed.

Lemma agrupar_chaves_desde (arquivos : list string)
    (grupos : list (string * list string)) (g : string * list string) :
  g ∈ foldl (λ grupos arquivo,
               match Py.split "_" arquivo with
               | indice_id :: _ :: _ => anexar indice_id arquivo grupos
               | _ => grupos
               end) grupos arquivos →
  g.1 ∈ grupos.*1
  ∨ ∃ arquivo, arquivo ∈ arquivos ∧ head (Py.split "_" arquivo) = Some g.1.
Proof.
  revert grupos. induction arquivos as [|a arquivos IH]; intros grupos Hg.
  - left. apply list_elem_of_fmap. by exists g.
  - cbn [foldl] in Hg. apply IH in Hg as [Hg|(a' & Ha' & Hh)].
    + destruct (Py.split "_" a) as [|i [|p partes]] eqn:Es; try by left.
      apply list_elem_of_fmap in Hg as (g' & Heq & Hg').
      apply anexar_chaves in Hg' as [Hi|Hin].
      * right. exists a. split; [by left|]. rewrite Es. cbn. congruence.
      * left. by rewrite Heq.
    + right. exists a'. split; [by right|exact Hh].
Qed.

Lemma carregar_grupo_local (s : t) (fs : Disco.t) (agora : Z)
    (grupo : string * list string) :
  iguais_fora s (carregar_grupo diretorio_indices fs agora s grupo) grupo.1.
Proof.
  unfold carregar_grupo.
  destruct (Py.sort_reverse grupo.2); [apply iguais_fora_refl|].
  apply carregar_indice_local.
Qed.

(** X11: [inicializar] only touches the ids that name an index file of the
    directory: an id that is not the part before the first ["_"] of the
    name of a [.index] file keeps the index, the metadata and the slot
    mapping it had, or stays out of the store.  A service that is
    initialised is left as it is. *)
Theorem inicializar_local (inicializado : bool) (s : t) (fs : Disco.t)
    (agora : Z) (indice_id : string) :
  (∀ arquivo, arquivo ∈ Disco.listdir fs diretorio_indices →
     Py.endswith ".index" arquivo = true →
     head (Py.split "_" arquivo) ≠ Some indice_id) →
  let r := inicializar diretorio_indices inicializado s fs agora in
  r.1 = true
  ∧ (inicializado = true → r.2 = s)
  ∧ indices r.2 !! indice_id = indices s !! indice_id
  ∧ metadados r.2 !! indice_id = metadados s !! indice_id
  ∧ mapeamentos r.2 !! indice_id = mapeamentos s !! indice_id.
Proof.
  intros Hfora. cbn zeta. unfold inicializar.
  destruct inicializado; [by repeat split|].
  cbn [fst snd]. split; [reflexivity|]. split; [discriminate|].
  set (arquivos := filter (λ f, Py.endswith ".index" f = true)
                     (Disco.listdir fs diretorio_indices)).
  assert (Hgrupos : ∀ g, g ∈ agrupar arquivos → g.1 ≠ indice_id).
  { intros g Hg Heq. unfold agrupar in Hg.
    apply agrupar_chaves_desde in Hg as [Hg|(a & Ha & Hh)];
      [by apply elem_of_nil in Hg|].
    apply list_elem_of_filter in Ha as [Hindex Ha].
    apply (Hfora a Ha Hindex). by rewrite Hh, Heq. }
  revert Hgrupos. generalize (agrupar arquivos). clear arquivos.
  intros grupos. revert s.
  induction grupos as [|g grupos IH]; intros s Hgrupos; [done|].
  cbn [foldl].
  destruct (carregar_grupo_local s fs agora g indice_id) as (Hi & Hm & Hp).
  { intros Heq. apply (Hgrupos g); [by left|done]. }
  destruct (IH (carregar_grupo diretorio_indices fs agora s g)) as (Hi' & Hm' & Hp').
  { intros g' Hg'. apply Hgrupos. by right. }
  rewrite Hi', Hm', Hp'. by repeat split.
Qed.

End locais.

Lemma inicializar_local_witness :
  let r := inicializar "faiss" false Exemplos.s1 Exemplos.disco 5 in
  r.1 = true
  ∧ (false = true → r.2 = Exemplos.s1)
  ∧ indices r.2 !! "contas" = indices Exemplos.s1 !! "contas"
  ∧ metadados r.2 !! "contas" = metadados Exemplos.s1 !! "contas"
  ∧ mapeamentos r.2 !! "contas" = mapeamentos Exemplos.s1 !! "contas".
Proof.
  apply (inicializar_local "faiss" false Exemplos.s1 Exemplos.disco 5 "contas").
  intros arquivo Hin _. vm_compute in Hin.
  repeat (apply elem_of_cons in Hin as [->|Hin]; [vm_compute; discriminate|]).
  by apply elem_of_nil in Hin.
Defined.

(** ** Invariants of the store *)

(** X4: With a free id, a positive dimension that fits a C [int] and extra
    metadata that [IndiceMetadata] accepts and that do not set
    [num_vetores] to something else than 0, [criar_indice] returns true
    and leaves the id with an empty index, metadata that describe it and
    an empty slot mapping, whatever the kind. *)
Theorem criar_indice_estado_inicial (s : t) (indice_id tipo : string)
    (dimensao : Z) (extra : option extras) (agora : Z) :
  indices s !! indice_id = None →
  0 < dimensao < 2 ^ 31 →
  aceitos extra = true →
  validado 0 (extra ≫= ex_num_vetores) = Some 0 →
  let r := criar_indice s indice_id dimensao tipo extra agora in
  r.1 = true
  ∧ integro r.2 indice_id
  ∧ slots_validos r.2 indice_id
  ∧ vetores r.2 indice_id = [].
Proof.
  intros Hlivre Hdim Hextra Hnum.
  destruct (criar_indice_livre s indice_id tipo dimensao extra agora Hlivre
              Hdim Hextra)
    as (ix & meta & -> & Hd & Hxb & Hid & Hdm & Hn).
  cbn [fst snd]. split; [reflexivity|].
  split; [|split].
  - split.
    + exists ix, meta. cbn. rewrite !lookup_insert_eq.
      repeat split; [exact Hid|congruence|].
      unfold Faiss.ntotal. rewrite Hxb. cbn. rewrite Hnum in Hn.
      by injection Hn.
    + cbn. rewrite lookup_insert_eq. by eexists.
  - intros slot [doc Hdoc]. unfold slots in Hdoc. cbn in Hdoc.
    rewrite lookup_insert_eq in Hdoc. cbn in Hdoc.
    by rewrite lookup_empty in Hdoc.
  - unfold vetores. cbn. rewrite lookup_insert_eq. exact Hxb.
Qed.

Lemma criar_indice_estado_inicial_witness :
  let r := criar_indice Exemplos.s1 "outro" 4 "hnsw" None 9 in
  r.1 = true
  ∧ integro r.2 "outro"
  ∧ slots_validos r.2 "outro"
  ∧ vetores r.2 "outro" = [].
Proof.
  apply (criar_indice_estado_inicial Exemplos.s1 "outro" "hnsw" 4 None 9);
    [vm_compute; reflexivity|lia|reflexivity..].
Defined.

(** X5: Where the metadata describe the index and the id has a slot mapping,
    they still do after [adicionar_vetores], whatever it was given and
    whatever it returns. *)
Theorem adicionar_vetores_integro (s : t) (indice_id : string)
    (vetores : ndarray) (mapeamento : option (gmap Z documento)) (agora : Z) :
  integro s indice_id →
  integro (adicionar_vetores s indice_id vetores mapeamento agora).2 indice_id.
Proof.
  intros Hint.
  destruct (adicionar_vetores_casos s indice_id vetores mapeamento agora)
    as [->|(ix & linhas & Hix & _ & _ & Hi & Hm & Hmeta)]; [exact Hint|].
  destruct Hint as [(ix0 & meta & Hix0 & Hmeta0 & Hid & Hdim & Hn) [ant Hant]].
  rewrite Hix in Hix0. injection Hix0 as <-.
  destruct Hmeta as [(_ & _ & [Hsem|[_ Hsem]])|(meta' & Hmeta' & _ & _ & Hmetas)].
  - congruence.
  - congruence.
  - rewrite Hmeta0 in Hmeta'. injection Hmeta' as <-.
    split.
    + eexists _, _. rewrite Hi, Hmetas, !lookup_insert_eq.
      split; [reflexivity|]. split; [reflexivity|].
      cbn. repeat split; [exact Hid|exact Hdim|].
      unfold Faiss.ntotal, len. cbn. rewrite length_app. lia.
    + destruct Hm as [->|(anterior & m & _ & _ & ->)];
        [by exists ant|rewrite lookup_insert_eq; by eexists].
Qed.

Lemma integro_s1 : integro Exemplos.s1 "idx".
Proof.
  split.
  - eexists _, _. split; [vm_compute; reflexivity|].
    split; [vm_compute; reflexivity|]. vm_compute. by repeat split.
  - eexists. vm_compute. reflexivity.
Defined.

Lemma adicionar_vetores_integro_witness :
  integro
    (adicionar_vetores Exemplos.s1 "idx" (Arr2 3 (Exemplos.linhas [[5; 5; 5]]))
       (Some {[ 0 := Exemplos.doc "D" ]}) 7).2 "idx".
Proof.
  apply (adicionar_vetores_integro Exemplos.s1 "idx"
           (Arr2 3 (Exemplos.linhas [[5; 5; 5]]))
           (Some {[ 0 := Exemplos.doc "D" ]}) 7).
  exact integro_s1.
Defined.

Lemma contagem_lookup (s : t) (indice_id : string) (ix : Faiss.index) :
  indices s !! indice_id = Some ix → contagem s indice_id = Faiss.ntotal ix.
Proof. intros H. unfold contagem. by rewrite H. Qed.

(** X6: The keys of the slot mapping stay slots of the index when each batch
    numbers its documents with positions of its own rows: from 0 up to, and
    not including, [vetores.shape[0]]. *)
Theorem adicionar_vetores_slots_validos (s : t) (indice_id : string)
    (vetores : ndarray) (mapeamento : option (gmap Z documento)) (agora : Z) :
  slots_validos s indice_id →
  (∀ m slot, mapeamento = Some m → is_Some (m !! slot) →
             0 ≤ slot < default 0 (head (shape vetores))) →
  slots_validos (adicionar_vetores s indice_id vetores mapeamento agora).2
    indice_id.
Proof.
  intros Hval Hlocal.
  destruct (adicionar_vetores_casos s indice_id vetores mapeamento agora)
    as [->|(ix & linhas & Hix & -> & _ & Hi & Hm & _)]; [exact Hval|].
  cbn in Hlocal.
  intros slot Hslot. unfold slots_validos in Hval.
  rewrite (contagem_lookup s indice_id ix Hix) in Hval.
  unfold contagem. rewrite Hi, lookup_insert_eq. cbn.
  assert (Hn : Faiss.ntotal
                 {| Faiss.cls := Faiss.cls ix; Faiss.d := Faiss.d ix;
                    Faiss.is_trained := Faiss.is_trained ix;
                    Faiss.xb := Faiss.xb ix ++ linhas |}
               = Faiss.ntotal ix + len linhas).
  { unfold Faiss.ntotal, len. cbn. rewrite length_app. lia. }
  rewrite Hn. unfold slots in Hslot.
  destruct Hm as [Hm|(anterior & m & Hant & -> & Hm)]; rewrite Hm in Hslot.
  - specialize (Hval slot Hslot). unfold len. lia.
  - rewrite lookup_insert_eq in Hslot. cbn in Hslot.
    apply deslocar_chaves in Hslot as [Hvelho|(local & Hl & ->)].
    + assert (Hs : is_Some (slots s indice_id !! slot))
        by (unfold slots; by rewrite Hant).
      specialize (Hval slot Hs). unfold len. lia.
    + specialize (Hlocal m local eq_refl Hl).
      unfold Faiss.ntotal, len in *. lia.
Qed.

Lemma slots_validos_s1 : slots_validos Exemplos.s1 "idx".
Proof.
  intros slot [doc Hdoc]. change (contagem Exemplos.s1 "idx") with 3.
  destruct (decide (0 ≤ slot < 3)) as [?|Hfora]; [assumption|].
  exfalso. revert Hdoc.
  change (slots Exemplos.s1 "idx")
    with (<[0 := Exemplos.doc "A"]>
            (<[1 := Exemplos.doc "B"]>
               (<[2 := Exemplos.doc "C"]> (∅ : gmap Z documento)))).
  rewrite !lookup_insert_ne by lia. by rewrite lookup_empty.
Defined.

Lemma adicionar_vetores_slots_validos_witness :
  slots_validos
    (adicionar_vetores Exemplos.s1 "idx" (Arr2 3 (Exemplos.linhas [[5; 5; 5]]))
       (Some {[ 0 := Exemplos.doc "D" ]}) 7).2 "idx".
Proof.
  apply (adicionar_vetores_slots_validos Exemplos.s1 "idx"
           (Arr2 3 (Exemplos.linhas [[5; 5; 5]]))
           (Some {[ 0 := Exemplos.doc "D" ]}) 7).
  - exact slots_validos_s1.
  - intros m slot Hm [doc Hdoc]. injection Hm as <-.
    apply lookup_singleton_Some in Hdoc as [<- _].
    change (default 0 (head (shape (Arr2 3 (Exemplos.linhas [[5; 5; 5]])))))
      with 1.
    lia.
Defined.

(** X7: [adicionar_vetores] only appends: the vectors stored before the call
    are, in their slots, the first ones stored after it, whatever the call
    returns.  And it returns true only if the id was in the store with a
    trained index and with metadata, the array was 2-D with the row length
    of the index, and its rows are what was appended. *)
Theorem adicionar_vetores_so_acrescenta (s : t) (indice_id : string)
    (vetores : ndarray) (mapeamento : option (gmap Z documento)) (agora : Z) :
  let r := adicionar_vetores s indice_id vetores mapeamento agora in
  FaissService.vetores s indice_id `prefix_of` FaissService.vetores r.2 indice_id
  ∧ (r.1 = true →
     ∃ ix linhas,
       indices s !! indice_id = Some ix
       ∧ Faiss.is_trained ix = true
       ∧ vetores = Arr2 (Faiss.d ix) linhas
       ∧ is_Some (metadados s !! indice_id)
       ∧ (fornecido mapeamento = true → is_Some (mapeamentos s !! indice_id))
       ∧ FaissService.vetores r.2 indice_id
         = FaissService.vetores s indice_id ++ linhas).
Proof.
  cbn zeta.
  destruct (adicionar_vetores_casos s indice_id vetores mapeamento agora)
    as [->|(ix & linhas & Hix & Hv & Htr & Hi & Hm & Hmeta)].
  - split; [reflexivity|discriminate].
  - assert (Hvs : FaissService.vetores
                    (adicionar_vetores s indice_id vetores mapeamento agora).2
                    indice_id
                  = FaissService.vetores s indice_id ++ linhas).
    { unfold FaissService.vetores. by rewrite Hi, Hix, lookup_insert_eq. }
    split; [rewrite Hvs; by apply prefix_app_r|].
    intros Hok. exists ix, linhas.
    destruct Hmeta as [(_ & Hfalso & _)|(meta & Hmeta & _ & Hmap & _)];
      [congruence|].
    repeat split; try assumption. by exists meta.
Qed.

(** X8: Documents already in the slot mapping stay where they are when the
    slots of the mapping are slots of the index and the batch numbers its
    documents from 0 on. *)
Theorem adicionar_vetores_preserva_documentos (s : t) (indice_id : string)
    (vetores : ndarray) (mapeamento : option (gmap Z documento)) (agora : Z)
    (slot : Z) (doc : documento) :
  slots_validos s indice_id →
  (∀ m local, mapeamento = Some m → is_Some (m !! local) → 0 ≤ local) →
  slots s indice_id !! slot = Some doc →
  slots (adicionar_vetores s indice_id vetores mapeamento agora).2 indice_id
    !! slot = Some doc.
Proof.
  intros Hval Hlocal Hdoc.
  destruct (adicionar_vetores_casos s indice_id vetores mapeamento agora)
    as [->|(ix & linhas & Hix & _ & _ & _ & Hm & _)]; [exact Hdoc|].
  unfold slots in *.
  destruct Hm as [->|(anterior & m & Hant & -> & ->)]; [exact Hdoc|].
  rewrite lookup_insert_eq. cbn. rewrite Hant in Hdoc. cbn in Hdoc.
  rewrite deslocar_outros; [exact Hdoc|].
  intros local Hl.
  assert (Hs : is_Some (FaissService.slots s indice_id !! slot))
    by (unfold FaissService.slots; rewrite Hant; by exists doc).
  specialize (Hval slot Hs).
  rewrite (contagem_lookup s indice_id ix Hix) in Hval.
  specialize (Hlocal m local eq_refl Hl).
  unfold Faiss.ntotal, len in *. lia.
Qed.

Lemma adicionar_vetores_preserva_documentos_witness :
  slots
    (adicionar_vetores Exemplos.s1 "idx" (Arr2 3 (Exemplos.linhas [[5; 5; 5]]))
       (Some {[ 0 := Exemplos.doc "D" ]}) 7).2 "idx" !! 1
  = Some (Exemplos.doc "B").
Proof.
  apply (adicionar_vetores_preserva_documentos Exemplos.s1 "idx"
           (Arr2 3 (Exemplos.linhas [[5; 5; 5]]))
           (Some {[ 0 := Exemplos.doc "D" ]}) 7 1
           (Exemplos.doc "B")).
  - exact slots_validos_s1.
  - intros m local Hm [d Hd]. injection Hm as <-.
    apply lookup_singleton_Some in Hd as [<- _]. lia.
  - vm_compute. reflexivity.
Defined.

(** ** Describing the indices *)

(** X9: Where the metadata describe the index, [obter_info_indice] reports
    the id it was asked for, and the dimension and the number of vectors
    of the index itself. *)
Theorem obter_info_indice_integro (s : t) (indice_id : string) :
  integro s indice_id →
  ∃ ix i,
    indices s !! indice_id = Some ix
    ∧ obter_info_indice s indice_id = Some i
    ∧ info_id i = indice_id
    ∧ info_tipo i = nome_da_classe ix
    ∧ info_dimensao i = Faiss.d ix
    ∧ info_num_vetores i = len (FaissService.vetores s indice_id)
    ∧ info_num_documentos i = Z.of_nat (size (slots s indice_id)).
Proof.
  intros [(ix & meta & Hix & Hmeta & Hid & Hdim & Hn) _].
  exists ix. eexists. split; [exact Hix|].
  unfold obter_info_indice. rewrite Hix, Hmeta.
  split; [reflexivity|]. cbn.
  repeat split; try assumption.
  rewrite Hn. unfold FaissService.vetores. by rewrite Hix.
Qed.

Lemma obter_info_indice_integro_witness :
  ∃ ix i,
    indices Exemplos.s1 !! "idx" = Some ix
    ∧ obter_info_indice Exemplos.s1 "idx" = Some i
    ∧ info_id i = "idx"
    ∧ info_tipo i = nome_da_classe ix
    ∧ info_dimensao i = Faiss.d ix
    ∧ info_num_vetores i = len (FaissService.vetores Exemplos.s1 "idx")
    ∧ info_num_documentos i = Z.of_nat (size (slots Exemplos.s1 "idx")).
Proof.
  apply (obter_info_indice_integro Exemplos.s1 "idx"). exact integro_s1.
Defined.

(** X10: [listar_indices] has one entry for each index of the store, and none
    of them is [None]. *)
Theorem listar_indices_completa (s : t) :
  length (listar_indices s) = size (indices s)
  ∧ Forall is_Some (listar_indices s).
Proof.
  unfold listar_indices. split.
  - by rewrite length_fmap, length_map_to_list.
  - apply Forall_fmap, Forall_forall. intros [indice_id ix] Hin.
    apply elem_of_map_to_list in Hin. cbn.
    unfold obter_info_indice. rewrite Hin. by eexists.
Qed.

(** ** Searching *)

Section busca.
Variable faiss : Faiss.biblioteca.

(** X12: The array is no query for the index: a vector of another length, a
    matrix of another row length or with no row, an array of another
    rank.  Then [buscar] returns two empty lists and [buscar_documentos]
    no document. *)
Theorem buscar_sem_consulta (s : t) (indice_id : string) (ix : Faiss.index)
    (a : ndarray) (k : Z) :
  indices s !! indice_id = Some ix →
  (∀ q, ¬ consulta_de a q (Faiss.d ix)) →
  buscar faiss s indice_id a k = ([], [])
  ∧ buscar_documentos faiss s indice_id a k = [].
Proof.
  intros Hix Hnao.
  assert (Hb : buscar faiss s indice_id a k = ([], [])).
  { unfold buscar. rewrite Hix. destruct a as [v|ncols qs|sh]; [| |reflexivity].
    - destruct (len v =? Faiss.d ix) eqn:E; [|reflexivity].
      apply Z.eqb_eq in E. destruct (Hnao v). by left.
    - destruct (ncols =? Faiss.d ix) eqn:E; [|reflexivity].
      apply Z.eqb_eq in E. subst ncols.
      destruct qs as [|q resto].
      + cbn [negb]. unfold Faiss.search. rewrite Z.eqb_refl. cbn [negb].
        destruct (0 <? k); [|reflexivity].
        destruct (Faiss.aloca faiss _ k); [|reflexivity].
        by destruct (Faiss.is_trained ix).
      + destruct (Hnao q). right. by exists resto. }
  split; [exact Hb|].
  unfold buscar_documentos. rewrite Hix, Hb.
  destruct (mapeamentos s !! indice_id) as [m|]; [|reflexivity].
  by destruct (bool_decide (m = ∅)).
Qed.

End busca.

Lemma buscar_sem_consulta_witness :
  buscar Exemplos.exata Exemplos.s1 "idx" (Arr1 (Exemplos.vec [1; 0])) 5
  = ([], [])
  ∧ buscar_documentos Exemplos.exata Exemplos.s1 "idx"
      (Arr1 (Exemplos.vec [1; 0])) 5 = [].
Proof.
  apply (buscar_sem_consulta Exemplos.exata Exemplos.s1 "idx" Exemplos.ix1
           (Arr1 (Exemplos.vec [1; 0])) 5).
  - vm_compute. reflexivity.
  - intros q [[Hq Hlen]|[resto Hq]]; [|discriminate].
    injection Hq as <-. vm_compute in Hlen. discriminate.
Defined.

End FaissServiceExtras.

(** * Saving an index and loading it back *)

Module PersistenciaExtras.
Import FaissService.

(** ** The names of the files *)

Lemma join_inj (a b1 b2 : string) :
  Py.startswith "/" b1 = Py.startswith "/" b2 →
  Py.join a b1 = Py.join a b2 → b1 = b2.
Proof.
  unfold Py.join. intros <-.
  destruct (Py.startswith "/" b1); [done|].
  destruct (bool_decide (a = "") || Py.endswith "/" a); intros H.
  - by apply (inj (String.app a)) in H.
  - apply (inj (String.app a)) in H. by apply (inj (String.app "/")) in H.
Qed.

Lemma startswith_barra (c : ascii) (p x y : string) :
  Py.startswith "/" (String c p +:+ x) = Py.startswith "/" (String c p +:+ y).
Proof.
  unfold Py.startswith.
  change (String c p +:+ x) with (String c (p +:+ x)).
  change (String c p +:+ y) with (String c (p +:+ y)).
  cbn [String.prefix]. destruct (ascii_dec "/" c); [|reflexivity].
  by destruct (p +:+ x), (p +:+ y).
Qed.

Lemma arquivo_de_inj (dir indice_id timestamp x y : string) :
  arquivo_de dir indice_id timestamp x = arquivo_de dir indice_id timestamp y →
  x = y.
Proof.
  unfold arquivo_de. intros H. apply join_inj in H.
  - apply (inj (String.app indice_id)) in H.
    apply (inj (String.app "_")) in H.
    by apply (inj (String.app timestamp)) in H.
  - destruct indice_id; [reflexivity|apply startswith_barra].
Qed.

(** ** The mapping file *)

Lemma converter_serializados (l : list (Z * documento))
    (acc : gmap Z documento) :
  foldl inserir_convertida (Some acc)
    ((λ e, (ChaveAscii (Py.str e.1), a_dict e.2)) <$> l)
  = Some (foldl (λ m e, <[e.1 := como_dict e.2]> m) acc l).
Proof.
  revert acc. induction l as [|e l IH]; intros acc; [reflexivity|].
  cbn [fmap list_fmap foldl]. unfold inserir_convertida at 2.
  cbn [mbind option_bind fst snd int_chave]. rewrite PyProps.int_str.
  cbn [mbind option_bind]. apply IH.
Qed.

Lemma converter_serializar_sobre (m acc : gmap Z documento) :
  foldl inserir_convertida (Some acc) (serializar m)
  = Some ((como_dict <$> m) ∪ acc).
Proof.
  unfold serializar. rewrite converter_serializados.
  by rewrite (MapaProps.foldl_insert_map_to_list como_dict).
Qed.

(** X16: The mapping file that [salvar_indice] writes is one that
    [carregar_indice] reads: every key [str(idx)] converts back to [idx],
    and the mapping read has the keys of the one saved, each with its
    document as a dictionary. *)
Theorem serializar_converter (m : gmap Z documento) :
  converter_chaves (serializar m) = Some (como_dict <$> m).
Proof.
  unfold converter_chaves. rewrite converter_serializar_sobre.
  f_equal. apply map_eq. intros k.
  rewrite lookup_union, lookup_empty.
  by destruct ((como_dict <$> m) !! k).
Qed.

(** ** [salvar_indice] *)

Section persistencia.
Variable diretorio_indices : string.
Variable strftime : Z → string → string.
Variable pode_gravar : Disco.t → string → bool.

Local Abbreviation salvar :=
  (salvar_indice diretorio_indices strftime pode_gravar).
Local Abbreviation arq := (arquivo_de diretorio_indices).
Local Abbreviation carregar := (carregar_indice diretorio_indices).
Local Abbreviation gravavel := (gravavel diretorio_indices pode_gravar).

Lemma arquivos_distintos (indice_id timestamp : string) :
  arq indice_id timestamp ".index" ≠ arq indice_id timestamp "_mapping.json"
  ∧ arq indice_id timestamp ".index" ≠ arq indice_id timestamp "_metadata.json"
  ∧ arq indice_id timestamp "_mapping.json"
    ≠ arq indice_id timestamp "_metadata.json".
Proof.
  repeat split; intros H; apply arquivo_de_inj in H; discriminate.
Qed.

Lemma gravar_gravavel (indice_id timestamp sufixo : string) (fs : Disco.t)
    (a : arquivo) :
  gravavel indice_id timestamp →
  Disco.gravar pode_gravar fs (arq indice_id timestamp sufixo) a
  = Some (<[arq indice_id timestamp sufixo := a]> fs).
Proof. intros H. unfold Disco.gravar. by rewrite H. Qed.

(** What is on the disk after [salvar_indice] on an id that is in the
    store, when its files can be created: the index file with the index;
    the mapping file with the serialised mapping when that is not empty,
    and as it was otherwise; the metadata file unreadable when the id has
    metadata, and as it was otherwise.  The call returns true exactly
    when the id has no metadata. *)
Lemma salvar_indice_disco (s : t) (fs : Disco.t) (indice_id : string)
    (ix : Faiss.index) (agora : Z) :
  indices s !! indice_id = Some ix →
  let ts := strftime agora "%Y%m%d%H%M%S" in
  let r := salvar s fs indice_id agora in
  gravavel indice_id ts →
  r.2 !! arq indice_id ts ".index" = Some (ArqIndice ix)
  ∧ r.2 !! arq indice_id ts "_mapping.json"
    = (if bool_decide (slots s indice_id = ∅)
       then fs !! arq indice_id ts "_mapping.json"
       else Some (ArqMapeamento (serializar (slots s indice_id))))
  ∧ r.2 !! arq indice_id ts "_metadata.json"
    = match metadados s !! indice_id with
      | Some _ => Some ArqOutro
      | None => fs !! arq indice_id ts "_metadata.json"
      end
  ∧ r.1.1 = bool_decide (metadados s !! indice_id = None)
  ∧ r.1.2
    = match metadados s !! indice_id with
      | Some meta =>
          set_metadados s
            (<[indice_id := IndiceMetadata.set_ultima_atualizacao meta agora]>
               (metadados s))
      | None => s
      end.
Proof.
  intros Hix ts r Hg. unfold r, salvar_indice. rewrite Hix. fold ts.
  destruct (arquivos_distintos indice_id ts) as (H1 & H2 & H3).
  unfold slots. rewrite !gravar_gravavel by exact Hg.
  destruct (mapeamentos s !! indice_id) as [m|]; cbn [default from_option id].
  - destruct (bool_decide (m = ∅)) eqn:Em;
      rewrite ?gravar_gravavel by exact Hg;
      destruct (metadados s !! indice_id) as [meta|];
      rewrite ?gravar_gravavel by exact Hg; cbn [fst snd];
      repeat split;
      repeat first [rewrite lookup_insert_eq | rewrite lookup_insert_ne by done];
      reflexivity.
  - rewrite (bool_decide_eq_true_2 (∅ = ∅)) by reflexivity.
    destruct (metadados s !! indice_id) as [meta|];
      rewrite ?gravar_gravavel by exact Hg; cbn [fst snd];
      repeat split;
      repeat first [rewrite lookup_insert_eq | rewrite lookup_insert_ne by done];
      reflexivity.
Qed.



End persistencia.



End PersistenciaExtras.

(** * More properties of [EmbeddingsService] *)

Module EmbeddingsServiceExtras.
Import EmbeddingsService.

Section servico.
Variable modelo_embeddings : string.
Variable dimensao_embeddings : Z.
Variable md5 : string → string.
Variable openai : nat → list string → option (list vetor).

Local Abbreviation chave := (chave_cache modelo_embeddings md5).
Local Abbreviation gerar :=
  (gerar_embedding modelo_embeddings dimensao_embeddings md5 openai).
Local Abbreviation gerar_batch :=
  (gerar_embeddings_batch modelo_embeddings dimensao_embeddings md5 openai).
Local Abbreviation pendentes := (pendentes modelo_embeddings md5).
Local Abbreviation processar := (processar modelo_embeddings md5).

(** ** The texts a batch asks the API for *)

Lemma pendentes_elem (s : t) (textos : list string) (p : nat * string) :
  p ∈ pendentes s textos →
  textos !! p.1 = Some p.2 ∧ cache_embeddings s !! chave p.2 = None.
Proof.
  unfold EmbeddingsService.pendentes. intros H.
  apply list_elem_of_omap in H as (o & Ho & Heq).
  apply elem_of_lookup_imap in Ho as (i & texto & Ho & Hi).
  destruct (cache_embeddings s !! chave texto) eqn:Ec; [congruence|].
  rewrite Ho in Heq. injection Heq as <-. by split.
Qed.

Lemma pendentes_textos_desde (s : t) (textos : list string) (g : nat → nat) :
  (omap (λ c, c)
     (imap (λ i texto,
              match cache_embeddings s !! chave texto with
              | Some _ => None
              | None => Some (g i, texto)
              end) textos)).*2
  = filter (λ texto, cache_embeddings s !! chave texto = None) textos.
Proof.
  revert g. induction textos as [|texto textos IH]; intros g; [reflexivity|].
  rewrite imap_cons, filter_cons. cbn [omap list_omap].
  specialize (IH (g ∘ S)). unfold compose in IH.
  destruct (cache_embeddings s !! chave texto) as [e|] eqn:Ec.
  - rewrite decide_False by discriminate. exact IH.
  - rewrite decide_True by reflexivity. cbn. f_equal. exact IH.
Qed.

(** The texts of a batch that go to the API are those that are not in
    the cache, in the order of the batch, a repeated text as often as it
    occurs. *)
Lemma pendentes_textos (s : t) (textos : list string) :
  (pendentes s textos).*2
  = filter (λ texto, cache_embeddings s !! chave texto = None) textos.
Proof. apply (pendentes_textos_desde s textos (λ i, i)). Qed.

(** ** What the loop over the answer of the API does *)

Lemma processar_cache_fora (pend : list (nat * string)) (data : list vetor)
    (cache : gmap string vetor) (embeddings : list (option vetor)) (k : string) :
  (∀ p, p ∈ pend → chave p.2 ≠ k) →
  (processar pend data cache embeddings).1.2 !! k = cache !! k.
Proof.
  revert pend cache embeddings.
  induction data as [|e data IH]; intros pend cache embeddings Hk;
    [reflexivity|].
  destruct pend as [|[idx texto] pend]; [reflexivity|].
  cbn [EmbeddingsService.processar]. rewrite IH.
  - apply lookup_insert_ne. apply (Hk (idx, texto)). by left.
  - intros p Hp. apply Hk. by right.
Qed.

Lemma processar_cache_mantem (pend : list (nat * string)) (data : list vetor)
    (cache : gmap string vetor) (embeddings : list (option vetor)) (k : string) :
  is_Some (cache !! k) →
  is_Some ((processar pend data cache embeddings).1.2 !! k).
Proof.
  revert pend cache embeddings.
  induction data as [|e data IH]; intros pend cache embeddings Hk;
    [exact Hk|].
  destruct pend as [|[idx texto] pend]; [exact Hk|].
  cbn [EmbeddingsService.processar]. apply IH.
  destruct (decide (chave texto = k)) as [->|Hne];
    [rewrite lookup_insert_eq; by eexists|by rewrite lookup_insert_ne].
Qed.

Lemma processar_length (pend : list (nat * string)) (data : list vetor)
    (cache : gmap string vetor) (embeddings : list (option vetor)) :
  length (processar pend data cache embeddings).2 = length embeddings.
Proof.
  revert pend cache embeddings.
  induction data as [|e data IH]; intros pend cache embeddings; [reflexivity|].
  destruct pend as [|[idx texto] pend]; [reflexivity|].
  cbn [EmbeddingsService.processar]. by rewrite IH, length_insert.
Qed.

Lemma processar_fora (pend : list (nat * string)) (data : list vetor)
    (cache : gmap string vetor) (embeddings : list (option vetor)) (i : nat) :
  i ∉ pend.*1 →
  (processar pend data cache embeddings).2 !! i = embeddings !! i.
Proof.
  revert pend cache embeddings.
  induction data as [|e data IH]; intros pend cache embeddings Hi;
    [reflexivity|].
  destruct pend as [|[idx texto] pend]; [reflexivity|].
  cbn [EmbeddingsService.processar]. rewrite IH.
  - apply list_lookup_insert_ne. intros ->. apply Hi. cbn. by left.
  - intros H. apply Hi. cbn. by right.
Qed.

(** A position that holds a vector. *)
Local Abbreviation cheia embeddings i :=
  (∃ v : vetor, embeddings !! i = Some (Some v)).

Lemma processar_cheia (pend : list (nat * string)) (data : list vetor)
    (cache : gmap string vetor) (embeddings : list (option vetor)) (i : nat) :
  cheia embeddings i → cheia (processar pend data cache embeddings).2 i.
Proof.
  revert pend cache embeddings.
  induction data as [|e data IH]; intros pend cache embeddings Hi;
    [exact Hi|].
  destruct pend as [|[idx texto] pend]; [exact Hi|].
  cbn [EmbeddingsService.processar]. apply IH.
  destruct Hi as [v Hv]. destruct (decide (idx = i)) as [->|Hne].
  - exists e. apply list_lookup_insert_eq. by eapply lookup_lt_Some.
  - exists v. by rewrite list_lookup_insert_ne.
Qed.

Lemma processar_preenche (pend : list (nat * string)) (data : list vetor)
    (cache : gmap string vetor) (embeddings : list (option vetor))
    (p : nat * string) :
  (length pend ≤ length data)%nat →
  p ∈ pend → (p.1 < length embeddings)%nat →
  cheia (processar pend data cache embeddings).2 p.1
  ∧ is_Some ((processar pend data cache embeddings).1.2 !! chave p.2).
Proof.
  revert pend cache embeddings.
  induction data as [|e data IH]; intros pend cache embeddings Hlen Hp Hlt.
  - destruct pend; [by apply elem_of_nil in Hp|cbn in Hlen; lia].
  - destruct pend as [|[idx texto] pend]; [by apply elem_of_nil in Hp|].
    cbn [EmbeddingsService.processar]. cbn in Hlen.
    apply elem_of_cons in Hp as [->|Hp].
    + cbn [fst snd]. split.
      * apply processar_cheia. exists e. by apply list_lookup_insert_eq.
      * apply processar_cache_mantem. rewrite lookup_insert_eq. by eexists.
    + apply IH; [lia|exact Hp|by rewrite length_insert].
Qed.

Lemma preencher_zeros_length (idxs : list nat)
    (embeddings : list (option vetor)) :
  length (preencher_zeros dimensao_embeddings idxs embeddings)
  = length embeddings.
Proof.
  unfold preencher_zeros. revert embeddings.
  induction idxs as [|idx idxs IH]; intros embeddings; [reflexivity|].
  cbn [foldl]. rewrite IH.
  destruct (embeddings !! idx) as [[?|]|]; try reflexivity.
  apply length_insert.
Qed.

(** ** The cache only grows *)

Lemma gerar_casos (s : t) (texto : string) :
  let r := gerar s texto in
  (∃ e, cache_embeddings s !! chave texto = Some e ∧ r = (e, s))
  ∨ cache_embeddings s !! chave texto = None
    ∧ chamadas r.2 = chamadas s ++ [[texto]]
    ∧ (cache_embeddings r.2 = cache_embeddings s
       ∧ salvamentos r.2 = salvamentos s
       ∧ r.1 = zeros dimensao_embeddings
       ∨ cache_embeddings r.2 = <[chave texto := r.1]> (cache_embeddings s)
         ∧ (salvamentos r.2 = salvamentos s
            ∨ salvamentos r.2 = salvamentos s ++ [cache_embeddings r.2])).
Proof.
  cbn zeta. unfold gerar_embedding.
  destruct (cache_embeddings s !! chave texto) as [e|] eqn:Ec;
    [left; by exists e|right].
  split; [reflexivity|].
  destruct (openai (length (chamadas s)) [texto]) as [[|e es]|];
    [split; [reflexivity|]; left; by repeat split| |
     split; [reflexivity|]; left; by repeat split].
  cbn [fst snd].
  destruct (_ =? 0); cbn; (split; [reflexivity|]); right;
    (split; [reflexivity|]); [by right|by left].
Qed.

Lemma gerar_batch_casos (s : t) (textos : list string) :
  let r := gerar_batch s textos in
  let embeddings := map (λ texto, cache_embeddings s !! chave texto) textos in
  let pend := pendentes s textos in
  (pend = [] ∧ r = (embeddings, s))
  ∨ pend ≠ []
    ∧ chamadas r.2 = chamadas s ++ [pend.*2]
    ∧ index r.2 = index s
    ∧ indice_metadata r.2 = indice_metadata s
    ∧ id_para_documento r.2 = id_para_documento s
    ∧ ((∀ data, openai (length (chamadas s)) pend.*2 = Some data →
                (length pend < length data)%nat)
       ∧ r.1 = preencher_zeros dimensao_embeddings pend.*1
                 (if openai (length (chamadas s)) pend.*2 is Some data
                  then (processar pend data (cache_embeddings s) embeddings).2
                  else embeddings)
       ∧ cache_embeddings r.2
         = (if openai (length (chamadas s)) pend.*2 is Some data
            then (processar pend data (cache_embeddings s) embeddings).1.2
            else cache_embeddings s)
       ∧ salvamentos r.2 = salvamentos s
       ∨ ∃ data,
           openai (length (chamadas s)) pend.*2 = Some data
           ∧ (length data ≤ length pend)%nat
           ∧ r.1 = (processar pend data (cache_embeddings s) embeddings).2
           ∧ cache_embeddings r.2
             = (processar pend data (cache_embeddings s) embeddings).1.2
           ∧ salvamentos r.2 = salvamentos s ++ [cache_embeddings r.2]).
Proof.
  cbn zeta. unfold gerar_embeddings_batch.
  destruct (pendentes s textos) as [|p pend] eqn:Ep; [by left|right].
  split; [discriminate|].
  cbn [fmap list_fmap].
  destruct (openai (length (chamadas s)) (p.2 :: pend.*2)) as [data|] eqn:Eo.
  - pose proof (EmbeddingsServiceProps.processar_ok modelo_embeddings md5
                  (p :: pend) data
                  (cache_embeddings (registrar_chamada s (p.2 :: pend.*2)))
                  (map (λ texto, cache_embeddings s !! chave texto) textos))
      as Hok.
    cbn [cache_embeddings registrar_chamada] in Hok |- *.
    destruct (processar (p :: pend) data _ _) as [[ok cache] embeddings] eqn:Er.
    cbn [fst snd] in Hok |- *. subst ok.
    destruct (bool_decide (length data ≤ length (p :: pend))%nat) eqn:Eb.
    + apply bool_decide_eq_true in Eb. cbn.
      repeat split. right. exists data. rewrite Er. by repeat split.
    + apply bool_decide_eq_false in Eb. cbn.
      repeat split. left. repeat split; rewrite ?Er; try reflexivity.
      intros data' [= <-]. cbn [length] in *. lia.
  - cbn. repeat split. left. repeat split. discriminate.
Qed.

Lemma processar_subseteq (s : t) (textos : list string) (data : list vetor)
    (embeddings : list (option vetor)) :
  cache_embeddings s
  ⊆ (processar (pendentes s textos) data (cache_embeddings s) embeddings).1.2.
Proof.
  apply map_subseteq_spec. intros k v Hk.
  rewrite processar_cache_fora; [exact Hk|].
  intros p Hp Heq. apply pendentes_elem in Hp as [_ Hp]. congruence.
Qed.

(** X19: Neither [gerar_embedding] nor [gerar_embeddings_batch] removes an
    entry of the cache or changes its vector, whatever the API answers.
    So what [salvar_cache] has written stays true of the cache: if every
    file written so far holds only entries of the cache in memory, that
    is so after the call, for the files written by the call too. *)
Theorem cache_so_cresce (s : t) (texto : string) (textos : list string) :
  let r := gerar s texto in
  let rb := gerar_batch s textos in
  cache_embeddings s ⊆ cache_embeddings r.2
  ∧ cache_embeddings s ⊆ cache_embeddings rb.2
  ∧ (salvos_no_cache s → salvos_no_cache r.2 ∧ salvos_no_cache rb.2).
Proof.
  cbn zeta.
  assert (H1 : cache_embeddings s ⊆ cache_embeddings (gerar s texto).2).
  { destruct (gerar_casos s texto)
      as [(e & _ & ->)|(Hmiss & _ & [(-> & _)|[-> _]])]; try reflexivity.
    by apply insert_subseteq. }
  assert (H2 : cache_embeddings s ⊆ cache_embeddings (gerar_batch s textos).2).
  { destruct (gerar_batch_casos s textos)
      as [[_ ->]|(_ & _ & _ & _ & _ & [(_ & _ & -> & _)|(data & _ & _ & _ & -> & _)])];
      try reflexivity.
    - destruct (openai _ _); [apply processar_subseteq|reflexivity].
    - apply processar_subseteq. }
  split; [exact H1|]. split; [exact H2|].
  unfold salvos_no_cache. intros Hs. split.
  - assert (Hvelhos : Forall (λ c, c ⊆ cache_embeddings (gerar s texto).2)
                        (salvamentos s)).
    { eapply Forall_impl; [exact Hs|]. intros c Hc. cbn in Hc.
      by trans (cache_embeddings s). }
    destruct (gerar_casos s texto)
      as [(e & _ & ->)|(_ & _ & [(_ & -> & _)|[_ [->| ->]]])];
      try assumption.
    apply Forall_app. split; [exact Hvelhos|]. by constructor.
  - assert (Hvelhos : Forall (λ c, c ⊆ cache_embeddings (gerar_batch s textos).2)
                        (salvamentos s)).
    { eapply Forall_impl; [exact Hs|]. intros c Hc. cbn in Hc.
      by trans (cache_embeddings s). }
    destruct (gerar_batch_casos s textos)
      as [[_ ->]|(_ & _ & _ & _ & _ & [(_ & _ & _ & ->)|(data & _ & _ & _ & _ & ->)])];
      try assumption.
    apply Forall_app. split; [exact Hvelhos|]. by constructor.
Qed.

(** ** What a batch returns *)

Lemma pendentes_nao_em_cache (s : t) (textos : list string) (i : nat)
    (texto : string) (v : vetor) :
  textos !! i = Some texto →
  cache_embeddings s !! chave texto = Some v →
  i ∉ (pendentes s textos).*1.
Proof.
  intros Hi Hv Hin. apply list_elem_of_fmap in Hin as (p & -> & Hp).
  apply pendentes_elem in Hp as [Hp1 Hp2]. congruence.
Qed.

(** X20: The result of [gerar_embeddings_batch] has one entry for each text of
    the batch, and the entry of a text that was in the cache is the vector
    of the cache, whatever the API answers. *)
Theorem gerar_embeddings_batch_forma (s : t) (textos : list string) :
  let r := gerar_batch s textos in
  length r.1 = length textos
  ∧ ∀ i texto v, textos !! i = Some texto →
      cache_embeddings s !! chave texto = Some v →
      r.1 !! i = Some (Some v).
Proof.
  cbn zeta.
  set (embeddings := map (λ texto, cache_embeddings s !! chave texto) textos).
  assert (Hlen : length embeddings = length textos)
    by (unfold embeddings; apply length_map).
  assert (Hcache : ∀ i texto v, textos !! i = Some texto →
            cache_embeddings s !! chave texto = Some v →
            embeddings !! i = Some (Some v)).
  { intros i texto v Hi Hv. unfold embeddings.
    change (map ?f textos) with (f <$> textos).
    by rewrite list_lookup_fmap, Hi; cbn; rewrite Hv. }
  destruct (gerar_batch_casos s textos)
    as [[_ ->]|(_ & _ & _ & _ & _ & [(_ & -> & _)|(data & _ & _ & -> & _)])];
    fold embeddings.
  - split; [exact Hlen|exact Hcache].
  - split.
    + rewrite preencher_zeros_length.
      destruct (openai _ _); [by rewrite processar_length|exact Hlen].
    + intros i texto v Hi Hv.
      rewrite (EmbeddingsServiceProps.preencher_zeros_lookup dimensao_embeddings).
      assert (Hantes :
        (if openai (length (chamadas s)) (pendentes s textos).*2 is Some data
         then (processar (pendentes s textos) data (cache_embeddings s)
                 embeddings).2
         else embeddings) !! i = Some (Some v)).
      { destruct (openai _ _); [|by eapply Hcache].
        rewrite processar_fora; [by eapply Hcache|].
        by eapply pendentes_nao_em_cache. }
      by rewrite Hantes.
  - split; [by rewrite processar_length|].
    intros i texto v Hi Hv.
    rewrite processar_fora; [by eapply Hcache|].
    by eapply pendentes_nao_em_cache.
Qed.

Lemma pendentes_vazio (s : t) (textos : list string) :
  (∀ texto, texto ∈ textos → is_Some (cache_embeddings s !! chave texto)) →
  pendentes s textos = [].
Proof.
  intros Htodos.
  destruct (pendentes s textos) as [|p pend] eqn:Ep; [reflexivity|].
  assert (Hp : p ∈ pendentes s textos) by (rewrite Ep; by left).
  apply pendentes_elem in Hp as [Hp1 Hp2].
  apply list_elem_of_lookup_2, Htodos in Hp1 as [v Hv]. congruence.
Qed.

(** X21: A batch whose texts are all in the cache sends no request and writes
    nothing: the service is left as it was and the result is read from
    the cache. *)
Theorem gerar_embeddings_batch_em_cache (s : t) (textos : list string) :
  (∀ texto, texto ∈ textos → is_Some (cache_embeddings s !! chave texto)) →
  gerar_batch s textos
  = (map (λ texto, cache_embeddings s !! chave texto) textos, s).
Proof.
  intros Htodos. unfold gerar_embeddings_batch.
  by rewrite (pendentes_vazio s textos Htodos).
Qed.

(** X22: When the API answers a batch with one embedding for each text it was
    sent, every entry of the result is a vector, every text of the batch is
    in the cache afterwards, and the same batch again sends no request and
    changes nothing. *)
Theorem gerar_embeddings_batch_sucesso (s : t) (textos : list string)
    (data : list vetor) :
  openai (length (chamadas s)) (pendentes s textos).*2 = Some data →
  length data = length (pendentes s textos) →
  let r := gerar_batch s textos in
  Forall is_Some r.1
  ∧ (∀ texto, texto ∈ textos →
       is_Some (cache_embeddings r.2 !! chave texto))
  ∧ (gerar_batch r.2 textos).2 = r.2.
Proof.
  intros Ho Hdata. cbn zeta.
  set (embeddings := map (λ texto, cache_embeddings s !! chave texto) textos).
  assert (Hcheias : Forall is_Some (gerar_batch s textos).1
            ∧ ∀ texto, texto ∈ textos →
                is_Some (cache_embeddings (gerar_batch s textos).2 !! chave texto)).
  { pose proof (gerar_batch_casos s textos) as Hcasos.
    cbn zeta in Hcasos. fold embeddings in Hcasos.
    destruct Hcasos
      as [[Hpend Hr]|(_ & _ & _ & _ & _ & [(Hlongo & _)|(data' & Ho' & _ & Hr & Hc & _)])].
    - rewrite Hr. cbn [fst snd].
      assert (Hem : ∀ texto, texto ∈ textos →
                is_Some (cache_embeddings s !! chave texto)).
      { intros texto Hin. apply list_elem_of_lookup_1 in Hin as [i Hi].
        destruct (cache_embeddings s !! chave texto) eqn:Ec; [by eexists|].
        pose proof (EmbeddingsServiceProps.pendentes_indices modelo_embeddings
                      md5 s textos i texto Hi Ec) as Hin.
        rewrite Hpend in Hin. by apply elem_of_nil in Hin. }
      split; [|exact Hem].
      unfold embeddings. change (map ?f textos) with (f <$> textos).
      apply Forall_fmap, Forall_forall. intros texto Hin. by apply Hem.
    - specialize (Hlongo data Ho). lia.
    - rewrite Ho in Ho'. injection Ho' as <-. rewrite Hr, Hc.
      assert (Hpos : ∀ i texto, textos !! i = Some texto →
                cheia (processar (pendentes s textos) data (cache_embeddings s)
                         embeddings).2 i
                ∧ is_Some ((processar (pendentes s textos) data
                              (cache_embeddings s) embeddings).1.2 !! chave texto)).
      { intros i texto Hi.
        destruct (cache_embeddings s !! chave texto) as [v|] eqn:Ec.
        - split.
          + apply processar_cheia. exists v. unfold embeddings.
            change (map ?f textos) with (f <$> textos).
            by rewrite list_lookup_fmap, Hi; cbn; rewrite Ec.
          + apply processar_cache_mantem. by exists v.
        - assert (Hp : (i, texto) ∈ pendentes s textos).
          { unfold EmbeddingsService.pendentes. apply list_elem_of_omap.
            exists (Some (i, texto)). split; [|done].
            apply elem_of_lookup_imap. exists i, texto. by rewrite Ec. }
          apply (processar_preenche _ data (cache_embeddings s) embeddings
                   (i, texto)); [lia|exact Hp|].
          cbn. unfold embeddings. rewrite length_map.
          by eapply lookup_lt_Some. }
      split.
      + apply Forall_forall. intros o Ho'.
        apply list_elem_of_lookup_1 in Ho' as [i Hi].
        assert (Hlt : (i < length textos)%nat).
        { apply lookup_lt_Some in Hi. rewrite processar_length in Hi.
          unfold embeddings in Hi. by rewrite length_map in Hi. }
        apply lookup_lt_is_Some in Hlt as [texto Htexto].
        destruct (Hpos i texto Htexto) as [[v Hv] _].
        rewrite Hv in Hi. injection Hi as <-. by eexists.
      + intros texto Hin. apply list_elem_of_lookup_1 in Hin as [i Hi].
        by destruct (Hpos i texto Hi). }
  destruct Hcheias as [Hres Hcache].
  split; [exact Hres|]. split; [exact Hcache|].
  unfold gerar_embeddings_batch at 1.
  by rewrite (pendentes_vazio _ textos Hcache).
Qed.

(** ** The requests *)

(** X23: Each call sends at most one request.  [gerar_embedding] sends one,
    with its text, exactly when the text is not in the cache;
    [gerar_embeddings_batch] sends one exactly when some text of the batch
    is not in the cache, with those texts in the order of the batch. *)
Theorem uma_chamada_por_vez (s : t) (texto : string) (textos : list string) :
  chamadas (gerar s texto).2
  = chamadas s
    ++ (if cache_embeddings s !! chave texto is Some _ then [] else [[texto]])
  ∧ chamadas (gerar_batch s textos).2
    = chamadas s
      ++ match filter (λ texto, cache_embeddings s !! chave texto = None)
                 textos with
         | [] => []
         | pedidos => [pedidos]
         end.
Proof.
  split.
  - destruct (gerar_casos s texto) as [(e & -> & ->)|(-> & -> & _)];
      [cbn; by rewrite app_nil_r|reflexivity].
  - rewrite <- pendentes_textos.
    destruct (gerar_batch_casos s textos) as [[-> ->]|(Hpend & -> & _)];
      [cbn; by rewrite app_nil_r|].
    destruct (pendentes s textos); [by destruct Hpend|reflexivity].
Qed.

End servico.

Lemma gerar_embeddings_batch_em_cache_witness :
  let openai := λ (_ : nat) (_ : list string),
                  Some (Exemplos.linhas [[1; 2; 3]]) in
  let s := (gerar_embedding "m" 3 Exemplos.md5 openai novo "conta").2 in
  gerar_embeddings_batch "m" 3 Exemplos.md5 openai s ["conta"; "conta"]
  = (map (λ texto, cache_embeddings s !! chave_cache "m" Exemplos.md5 texto)
       ["conta"; "conta"], s).
Proof.
  apply (gerar_embeddings_batch_em_cache "m" 3 Exemplos.md5
           (λ _ _, Some (Exemplos.linhas [[1; 2; 3]]))
           (gerar_embedding "m" 3 Exemplos.md5
              (λ _ _, Some (Exemplos.linhas [[1; 2; 3]]))
              novo "conta").2 ["conta"; "conta"]).
  intros texto Hin.
  repeat (apply elem_of_cons in Hin as [->|Hin]);
    [eexists; vm_compute; reflexivity..|by apply elem_of_nil in Hin].
Defined.

Lemma gerar_embeddings_batch_sucesso_witness :
  let openai := λ (_ : nat) (entrada : list string),
                  Some (map (λ _, Exemplos.vec [1; 2; 3]) entrada) in
  let r := gerar_embeddings_batch "m" 3 Exemplos.md5 openai novo
             ["conta"; "fatura"] in
  Forall is_Some r.1
  ∧ (∀ texto, texto ∈ ["conta"; "fatura"] →
       is_Some (cache_embeddings r.2 !! chave_cache "m" Exemplos.md5 texto))
  ∧ (gerar_embeddings_batch "m" 3 Exemplos.md5 openai r.2
       ["conta"; "fatura"]).2 = r.2.
Proof.
  apply (gerar_embeddings_batch_sucesso "m" 3 Exemplos.md5
           (λ _ entrada, Some (map (λ _, Exemplos.vec [1; 2; 3]) entrada)) novo
           ["conta"; "fatura"] (Exemplos.linhas [[1; 2; 3]; [1; 2; 3]])).
  - vm_compute. reflexivity.
  - vm_compute. reflexivity.
Defined.

(** ** Reading the cache files *)

Lemma carregar_entradas_salvas (l : list (string * vetor))
    (cache : gmap string vetor) :
  carregar_entradas ((λ e, (e.1, Some e.2)) <$> l) cache
  = foldl (λ m e, <[e.1 := e.2]> m) cache l.
Proof.
  revert cache. induction l as [|[k v] l IH]; intros cache; [reflexivity|].
  cbn. apply IH.
Qed.

Lemma carregar_arquivo_salvo (c cache : gmap string vetor) :
  carregar_arquivo cache (arquivo_salvo c) = c ∪ cache.
Proof.
  unfold carregar_arquivo, arquivo_salvo. rewrite carregar_entradas_salvas.
  rewrite (MapaProps.foldl_insert_map_to_list (λ v : vetor, v)).
  by rewrite map_fmap_id.
Qed.

(** [carregar_cache] reads back what [salvar_cache] wrote: after loading
    the file written for a cache, the service has every entry of that
    cache with its vector, and of the entries it had before those under
    other keys. *)
Lemma carregar_cache_salvo (s : t) (c : gmap string vetor) :
  cache_embeddings (carregar_cache s [arquivo_salvo c])
  = c ∪ cache_embeddings s.
Proof. unfold carregar_cache. cbn. apply carregar_arquivo_salvo. Qed.

Lemma carregar_salvos (salvos : list (gmap string vetor))
    (cache total : gmap string vetor) :
  (∀ c, c ∈ salvos → c ⊆ total) → cache ⊆ total →
  let r := foldl carregar_arquivo cache (arquivo_salvo <$> salvos) in
  cache ⊆ r ∧ r ⊆ total ∧ ∀ c, c ∈ salvos → c ⊆ r.
Proof.
  revert cache. induction salvos as [|c salvos IH]; intros cache Hs Hc.
  - cbn. repeat split; [done..|]. intros c Hin. by apply elem_of_nil in Hin.
  - cbn [fmap list_fmap foldl]. rewrite carregar_arquivo_salvo.
    destruct (MapaProps.uniao_compativel c cache total) as (Hu & Hl & Hr);
      [apply Hs; by left|exact Hc|].
    destruct (IH (c ∪ cache)) as (H1 & H2 & H3);
      [intros c' Hin; apply Hs; by right|exact Hu|].
    split; [by trans (c ∪ cache)|]. split; [exact H2|].
    intros c' [->|Hin]%elem_of_cons; [by trans (c ∪ cache)|by apply H3].
Qed.

(** X24: A restart finds what the service had saved.  Let every cache file
    that a service has written hold only entries of its cache, as
    [gerar_embedding] and [gerar_embeddings_batch] keep it.  Loading any of
    those files, in any order, into a service whose cache is part of that
    cache (an empty one, say) gives a cache that has every entry of the
    files loaded and no entry that the first service does not have. *)
Theorem recarga_do_cache (s s0 : t) (salvos : list (gmap string vetor)) :
  salvos_no_cache s →
  (∀ c, c ∈ salvos → c ∈ salvamentos s) →
  cache_embeddings s0 ⊆ cache_embeddings s →
  let r := carregar_cache s0 (arquivo_salvo <$> salvos) in
  cache_embeddings s0 ⊆ cache_embeddings r
  ∧ cache_embeddings r ⊆ cache_embeddings s
  ∧ ∀ c, c ∈ salvos → c ⊆ cache_embeddings r.
Proof.
  intros Hinv Hsalvos Hs0. unfold carregar_cache. cbn [cache_embeddings set_cache].
  apply carregar_salvos; [|exact Hs0].
  intros c Hin. unfold salvos_no_cache in Hinv. rewrite Forall_forall in Hinv.
  by apply Hinv, Hsalvos.
Qed.

Lemma recarga_do_cache_witness :
  let openai := λ (_ : nat) (entrada : list string),
                  Some (map (λ _, Exemplos.vec [1; 2; 3]) entrada) in
  let s := (gerar_embeddings_batch "m" 3 Exemplos.md5 openai novo
              ["conta"; "fatura"]).2 in
  let r := carregar_cache novo (arquivo_salvo <$> salvamentos s) in
  cache_embeddings novo ⊆ cache_embeddings r
  ∧ cache_embeddings r ⊆ cache_embeddings s
  ∧ ∀ c, c ∈ salvamentos s → c ⊆ cache_embeddings r.
Proof.
  set (openai := λ (_ : nat) (entrada : list string),
                   Some (map (λ _, Exemplos.vec [1; 2; 3]) entrada)).
  set (s := (gerar_embeddings_batch "m" 3 Exemplos.md5 openai novo
               ["conta"; "fatura"]).2).
  apply (recarga_do_cache s novo (salvamentos s)).
  - unfold salvos_no_cache.
    change (salvamentos s) with [cache_embeddings s].
    by repeat constructor.
  - done.
  - apply map_empty_subseteq.
Defined.

(** ** Building the index *)

Local Abbreviation passo_extrair :=
  (λ (acc : list vetor * gmap Z documento) (p : nat * DocumentoEmbedding.t),
     match DocumentoEmbedding.embedding p.2 with
     | Some e =>
         (acc.1 ++ [e],
          <[Z.of_nat p.1 := DocumentoEmbedding.documento p.2]> acc.2)
     | None => acc
     end).

Lemma extrair_desde_1 (docs : list DocumentoEmbedding.t) (off : nat)
    (acc : list vetor * gmap Z documento) :
  (foldl passo_extrair acc (imap (λ i d, ((off + i)%nat, d)) docs)).1
  = acc.1 ++ omap DocumentoEmbedding.embedding docs.
Proof.
  revert off acc. induction docs as [|d docs IH]; intros off acc.
  - cbn. by rewrite app_nil_r.
  - rewrite imap_cons. cbn [foldl omap list_omap].
    rewrite (imap_ext _ (λ i d, ((S off + i)%nat, d)))
      by (intros i x _; cbn; f_equal; lia).
    rewrite IH. cbn [fst snd].
    destruct (DocumentoEmbedding.embedding d) as [e|]; [|reflexivity].
    cbn. by rewrite <- app_assoc.
Qed.

Lemma extrair_desde_fora (docs : list DocumentoEmbedding.t) (off : nat)
    (acc : list vetor * gmap Z documento) (k : Z) :
  (∀ i d, docs !! i = Some d → is_Some (DocumentoEmbedding.embedding d) →
          k ≠ Z.of_nat (off + i)) →
  (foldl passo_extrair acc (imap (λ i d, ((off + i)%nat, d)) docs)).2 !! k
  = acc.2 !! k.
Proof.
  revert off acc. induction docs as [|d docs IH]; intros off acc Hk;
    [reflexivity|].
  rewrite imap_cons. cbn [foldl].
  rewrite (imap_ext _ (λ i d, ((S off + i)%nat, d)))
    by (intros i x _; cbn; f_equal; lia).
  rewrite IH.
  - cbn [fst snd].
    destruct (DocumentoEmbedding.embedding d) as [e|] eqn:Ee; [|reflexivity].
    cbn. apply lookup_insert_ne. intros Heq.
    apply (Hk 0%nat d); [reflexivity|by rewrite Ee|by rewrite <- Heq].
  - intros i d' Hi He. replace (S off + i)%nat with (off + S i)%nat by lia.
    by apply (Hk (S i) d').
Qed.

Lemma extrair_desde_dentro (docs : list DocumentoEmbedding.t) (off : nat)
    (acc : list vetor * gmap Z documento) (i : nat)
    (d : DocumentoEmbedding.t) :
  docs !! i = Some d → is_Some (DocumentoEmbedding.embedding d) →
  (foldl passo_extrair acc (imap (λ i d, ((off + i)%nat, d)) docs)).2
    !! Z.of_nat (off + i)
  = Some (DocumentoEmbedding.documento d).
Proof.
  revert off acc i. induction docs as [|d0 docs IH]; intros off acc i Hi He;
    [discriminate|].
  rewrite imap_cons. cbn [foldl].
  rewrite (imap_ext _ (λ i d, ((S off + i)%nat, d)))
    by (intros j x _; cbn; f_equal; lia).
  destruct i as [|i].
  - injection Hi as ->. rewrite extrair_desde_fora by (intros; lia).
    cbn [fst snd]. destruct He as [e ->]. cbn.
    rewrite Nat.add_0_r. apply lookup_insert_eq.
  - replace (off + S i)%nat with (S off + i)%nat by lia.
    by apply IH.
Qed.

Lemma extrair_embeddings (documentos : list DocumentoEmbedding.t) :
  (extrair documentos).1 = omap DocumentoEmbedding.embedding documentos.
Proof. apply (extrair_desde_1 documentos 0 ([], ∅)). Qed.

Lemma extrair_ids (documentos : list DocumentoEmbedding.t) (k : Z) :
  (extrair documentos).2 !! k
  = if decide (0 ≤ k)
    then d ← documentos !! Z.to_nat k;
         _ ← DocumentoEmbedding.embedding d;
         Some (DocumentoEmbedding.documento d)
    else None.
Proof.
  unfold extrair.
  change (imap pair documentos)
    with (imap (λ i d, ((0 + i)%nat, d)) documentos).
  destruct (decide (0 ≤ k)) as [Hk|Hk].
  - destruct (documentos !! Z.to_nat k) as [d|] eqn:Ed; cbn [mbind option_bind].
    + destruct (DocumentoEmbedding.embedding d) as [e|] eqn:Ee;
        cbn [mbind option_bind].
      * replace k with (Z.of_nat (0 + Z.to_nat k)) at 1 by lia.
        apply extrair_desde_dentro; [exact Ed|by rewrite Ee].
      * rewrite extrair_desde_fora; [apply lookup_empty|].
        intros i d' Hi [e He] ->. cbn in Ed. rewrite Nat2Z.id in Ed.
        congruence.
    + rewrite extrair_desde_fora; [apply lookup_empty|].
      intros i d' Hi _ ->. cbn in Ed. rewrite Nat2Z.id in Ed. congruence.
  - rewrite extrair_desde_fora; [apply lookup_empty|]. intros; lia.
Qed.

Section indice.
Variable modelo_embeddings : string.
Variable diretorio_faiss : string.
Variable strftime : Z → string → string.
Variable pode_gravar : Disco.t → string → bool.

Local Abbreviation salvar :=
  (salvar_indice_faiss diretorio_faiss strftime pode_gravar).
Local Abbreviation construir :=
  (construir_indice_faiss modelo_embeddings diretorio_faiss strftime
     pode_gravar).
Local Abbreviation arq := (FaissService.arquivo_de diretorio_faiss).
Local Abbreviation gravavel :=
  (FaissService.gravavel diretorio_faiss pode_gravar).

(** The service after [salvar_indice_faiss]: as it was, or with the new
    [ultima_atualizacao] when the index file and the mapping file were
    written. *)
Lemma salvar_indice_faiss_estado (s : t) (fs : Disco.t) (agora : Z)
    (ix : Faiss.index) (meta : IndiceMetadata.t) :
  index s = Some ix → indice_metadata s = Some meta →
  let r := salvar s fs agora in
  r.1.1 = false
  ∧ (r.1.2 = s
     ∨ r.1.2 = set_indice s (Some ix)
                 (Some (IndiceMetadata.set_ultima_atualizacao meta agora))
                 (id_para_documento s)).
Proof.
  intros Hix Hmeta. cbn zeta. unfold salvar_indice_faiss.
  rewrite Hix, Hmeta.
  repeat case_match; cbn [fst snd]; (split; [reflexivity|]); auto.
Qed.

Lemma salvar_indice_faiss_disco (s : t) (fs : Disco.t) (agora : Z)
    (ix : Faiss.index) (meta : IndiceMetadata.t) :
  index s = Some ix → indice_metadata s = Some meta →
  let ts := strftime agora "%Y%m%d%H%M%S" in
  let r := salvar s fs agora in
  gravavel (IndiceMetadata.id meta) ts →
  r.1 = (false,
         set_indice s (Some ix)
           (Some (IndiceMetadata.set_ultima_atualizacao meta agora))
           (id_para_documento s))
  ∧ r.2 !! arq (IndiceMetadata.id meta) ts ".index" = Some (ArqIndice ix)
  ∧ r.2 !! arq (IndiceMetadata.id meta) ts "_mapping.json"
    = Some (ArqMapeamento (serializar (id_para_documento s)))
  ∧ r.2 !! arq (IndiceMetadata.id meta) ts "_metadata.json" = Some ArqOutro.
Proof.
  intros Hix Hmeta ts r Hg. unfold r, salvar_indice_faiss.
  rewrite Hix, Hmeta. fold ts.
  destruct (PersistenciaExtras.arquivos_distintos diretorio_faiss
              (IndiceMetadata.id meta) ts) as (H1 & H2 & H3).
  pose proof (PersistenciaExtras.gravar_gravavel diretorio_faiss pode_gravar
                (IndiceMetadata.id meta) ts) as Hgr.
  unfold FaissService.arquivo_de in *.
  rewrite !Hgr by exact Hg. cbn [fst snd].
  split; [reflexivity|].
  repeat split;
    repeat first [rewrite lookup_insert_eq | rewrite lookup_insert_ne by done];
    reflexivity.
Qed.


(** The index that [construir_indice_faiss] makes of the documents. *)
Local Abbreviation embeddings_de documentos :=
  (omap DocumentoEmbedding.embedding documentos).

Local Abbreviation indice_de e documentos :=
  {| Faiss.cls := Faiss.IndexFlatL2; Faiss.d := len e;
     Faiss.is_trained := true; Faiss.xb := embeddings_de documentos |}.

Lemma construir_casos (s : t) (fs : Disco.t)
    (documentos : list DocumentoEmbedding.t) (nome_indice : option string)
    (agora : Z) :
  let r := construir s fs documentos nome_indice agora in
  r = (false, s, fs)
  ∧ (∀ e, head (embeddings_de documentos) = Some e →
          ¬ Forall (λ v, len v = len e) (embeddings_de documentos))
  ∨ ∃ e meta,
      head (embeddings_de documentos) = Some e
      ∧ Forall (λ v, len v = len e) (embeddings_de documentos)
      ∧ IndiceMetadata.dimensao meta = len e
      ∧ IndiceMetadata.num_vetores meta = len (embeddings_de documentos)
      ∧ IndiceMetadata.modelo_embeddings meta = modelo_embeddings
      ∧ IndiceMetadata.id meta
        = nome_ou nome_indice ("indice_" +:+ strftime agora "%Y%m%d%H%M%S")
      ∧ r = (true,
             set_indice s (Some (indice_de e documentos))
               (Some (IndiceMetadata.set_ultima_atualizacao meta agora))
               (extrair documentos).2,
             (salvar
                (set_indice s (Some (indice_de e documentos)) (Some meta)
                   (extrair documentos).2) fs agora).2).
Proof.
  cbn zeta. unfold construir_indice_faiss.
  destruct documentos as [|d0 resto]; [left; split; [reflexivity|discriminate]|].
  set (documentos := d0 :: resto).
  pose proof (extrair_embeddings documentos) as Hemb.
  destruct (extrair documentos) as [embeddings ids]. cbn [fst snd] in *.
  subst embeddings.
  destruct (embeddings_de documentos) as [|e es] eqn:Ee;
    [left; split; [reflexivity|discriminate]|].
  destruct (forallb (λ v, len v =? len e) (e :: es)) eqn:Ef; cbn [negb].
  - right.
    assert (Hf : Forall (λ v, len v = len e) (e :: es)).
    { apply Forall_forall. intros v Hv. apply Z.eqb_eq.
      rewrite forallb_forall in Ef. by apply Ef, list_elem_of_In. }
    unfold Faiss.add, Faiss.novo_IndexFlatL2.
    cbn [Faiss.d Faiss.is_trained Faiss.cls Faiss.xb].
    rewrite Z.eqb_refl. cbn [negb app].
    exists e,
      {| IndiceMetadata.id :=
           nome_ou nome_indice ("indice_" +:+ strftime agora "%Y%m%d%H%M%S");
         IndiceMetadata.nome :=
           nome_ou nome_indice
             ("Índice FAISS " +:+ strftime agora "%d/%m/%Y %H:%M");
         IndiceMetadata.dimensao := len e;
         IndiceMetadata.modelo_embeddings := modelo_embeddings;
         IndiceMetadata.num_vetores := len (e :: es);
         IndiceMetadata.data_criacao := agora;
         IndiceMetadata.ultima_atualizacao := agora;
         IndiceMetadata.tem_mapeamento_ids := true |}.
    split; [reflexivity|]. split; [exact Hf|].
    split; [reflexivity|]. split; [reflexivity|]. split; [reflexivity|].
    split; [reflexivity|].
    match goal with
    | |- (_, (salvar ?s1 fs agora).1.2, _) = _ =>
        destruct (salvar_indice_faiss_estado s1 fs agora _ _ eq_refl eq_refl)
          as [_ [-> | ->]]
    end; reflexivity.
  - left. split; [reflexivity|]. intros e' [= <-] Hf.
    assert (forallb (λ v, len v =? len e) (e :: es) = true); [|congruence].
    apply forallb_forall. intros v Hv. apply Z.eqb_eq.
    rewrite Forall_forall in Hf. by apply Hf, list_elem_of_In.
Qed.

(** X26: [construir_indice_faiss] returns true exactly when some document has
    an embedding and all the embeddings have the length of the first one.
    Otherwise it returns false and leaves the service and the disk as
    they were. *)
Theorem construir_indice_faiss_criterio (s : t) (fs : Disco.t)
    (documentos : list DocumentoEmbedding.t) (nome_indice : option string)
    (agora : Z) :
  let r := construir s fs documentos nome_indice agora in
  (r.1.1 = true
   ↔ ∃ e, head (embeddings_de documentos) = Some e
          ∧ Forall (λ v, len v = len e) (embeddings_de documentos))
  ∧ (r.1.1 = false → r = (false, s, fs)).
Proof.
  cbn zeta.
  destruct (construir_casos s fs documentos nome_indice agora)
    as [[-> Hnao]|(e & meta & He & Hf & _ & _ & _ & _ & ->)]; cbn [fst snd].
  - split; [|reflexivity]. split; [discriminate|].
    intros (e & He & Hf). by destruct (Hnao e He).
  - split; [|discriminate]. split; [|reflexivity]. intros _. by exists e.
Qed.

(** X27: After a successful [construir_indice_faiss] the service has an exact
    (flat) index with the embeddings of the documents that have one, in
    the order of the list, and metadata with its dimension and its number
    of vectors.  The vector of a document sits in the slot that counts the
    documents with an embedding before it, and the document itself under
    its position in the list: the two differ as soon as an earlier
    document has no embedding.  No other key is in the mapping. *)
Theorem construir_indice_faiss_posicoes (s : t) (fs : Disco.t)
    (documentos : list DocumentoEmbedding.t) (nome_indice : option string)
    (agora : Z) :
  let r := construir s fs documentos nome_indice agora in
  r.1.1 = true →
  ∃ ix meta,
    index r.1.2 = Some ix
    ∧ indice_metadata r.1.2 = Some meta
    ∧ Faiss.cls ix = Faiss.IndexFlatL2
    ∧ Faiss.xb ix = embeddings_de documentos
    ∧ IndiceMetadata.dimensao meta = Faiss.d ix
    ∧ IndiceMetadata.num_vetores meta = Faiss.ntotal ix
    ∧ (∀ i d v,
         documentos !! i = Some d → DocumentoEmbedding.embedding d = Some v →
         Faiss.xb ix !! length (embeddings_de (take i documentos)) = Some v
         ∧ id_para_documento r.1.2 !! Z.of_nat i
           = Some (DocumentoEmbedding.documento d))
    ∧ (∀ k, is_Some (id_para_documento r.1.2 !! k) →
         ∃ d, 0 ≤ k ∧ documentos !! Z.to_nat k = Some d
              ∧ is_Some (DocumentoEmbedding.embedding d)).
Proof.
  cbn zeta.
  destruct (construir_casos s fs documentos nome_indice agora)
    as [[-> _]|(e & meta & He & Hf & Hdim & Hnum & _ & _ & ->)]; cbn [fst snd];
    [discriminate|].
  intros _. eexists _, _. cbn [index indice_metadata id_para_documento set_indice].
  split; [reflexivity|]. split; [reflexivity|].
  split; [reflexivity|]. split; [reflexivity|].
  split; [exact Hdim|]. split; [exact Hnum|]. split.
  - intros i d v Hi Hv. split.
    + cbn [Faiss.xb].
      assert (Hpartes : embeddings_de documentos
                = embeddings_de (take i documentos)
                  ++ v :: embeddings_de (drop (S i) documentos)).
      { rewrite <- (take_drop_middle documentos i d Hi) at 1.
        rewrite omap_app. cbn [omap list_omap]. by rewrite Hv. }
      rewrite Hpartes. apply list_lookup_middle. reflexivity.
    + rewrite extrair_ids. rewrite decide_True by lia.
      rewrite Nat2Z.id, Hi. cbn. by rewrite Hv.
  - intros k [doc Hk]. rewrite extrair_ids in Hk.
    destruct (decide (0 ≤ k)) as [Hpos|]; [|discriminate].
    destruct (documentos !! Z.to_nat k) as [d|]; [|discriminate].
    exists d. cbn in Hk.
    destruct (DocumentoEmbedding.embedding d) as [v|]; [|discriminate].
    repeat split; [exact Hpos|by eexists].
Qed.

Lemma app_nao_vazia (a b : string) : b ≠ "" → a +:+ b ≠ "".
Proof. intros Hb. destruct a; [exact Hb|discriminate]. Qed.

Lemma arquivo_de_nao_vazio (indice_id timestamp sufixo : string) :
  arq indice_id timestamp sufixo ≠ "".
Proof.
  unfold FaissService.arquivo_de, Py.join.
  assert (Hb : indice_id +:+ "_" +:+ timestamp +:+ sufixo ≠ "")
    by (apply app_nao_vazia; discriminate).
  destruct (Py.startswith _ _); [exact Hb|].
  destruct (_ || _); [by apply app_nao_vazia|].
  apply app_nao_vazia. discriminate.
Qed.


End indice.

Lemma construir_indice_faiss_posicoes_witness :
  let documentos :=
    [ {| DocumentoEmbedding.documento := Exemplos.doc "A";
         DocumentoEmbedding.embedding := None |};
      {| DocumentoEmbedding.documento := Exemplos.doc "B";
         DocumentoEmbedding.embedding := Some (Exemplos.vec [1; 0; 0]) |} ] in
  let r := construir_indice_faiss "m" "faiss" Exemplos.relogio_fixo
             Exemplos.sempre_grava novo ∅ documentos None 0 in
  ∃ ix meta,
    index r.1.2 = Some ix
    ∧ indice_metadata r.1.2 = Some meta
    ∧ Faiss.cls ix = Faiss.IndexFlatL2
    ∧ Faiss.xb ix = omap DocumentoEmbedding.embedding documentos
    ∧ IndiceMetadata.dimensao meta = Faiss.d ix
    ∧ IndiceMetadata.num_vetores meta = Faiss.ntotal ix
    ∧ (∀ i d v,
         documentos !! i = Some d → DocumentoEmbedding.embedding d = Some v →
         Faiss.xb ix
           !! length (omap DocumentoEmbedding.embedding (take i documentos))
         = Some v
         ∧ id_para_documento r.1.2 !! Z.of_nat i
           = Some (DocumentoEmbedding.documento d))
    ∧ (∀ k, is_Some (id_para_documento r.1.2 !! k) →
         ∃ d, 0 ≤ k ∧ documentos !! Z.to_nat k = Some d
              ∧ is_Some (DocumentoEmbedding.embedding d)).
Proof.
  apply (construir_indice_faiss_posicoes "m" "faiss" Exemplos.relogio_fixo
           Exemplos.sempre_grava novo ∅
           [ {| DocumentoEmbedding.documento := Exemplos.doc "A";
                DocumentoEmbedding.embedding := None |};
             {| DocumentoEmbedding.documento := Exemplos.doc "B";
                DocumentoEmbedding.embedding :=
                  Some (Exemplos.vec [1; 0; 0]) |} ] None 0).
  vm_compute. reflexivity.
Defined.


(** ** Looking up a client and its invoices *)

Section consultas.
Variable modelo_embeddings : string.
Variable dimensao_embeddings : Z.
Variable md5 : string → string.
Variable openai : nat → list string → option (list vetor).
Variable faiss : Faiss.biblioteca.
Variable atributo_dict : string → option atributo.
Variable atributo_modelo : string → option atributo.

Local Abbreviation gerar :=
  (gerar_embedding modelo_embeddings dimensao_embeddings md5 openai).
Local Abbreviation buscar :=
  (buscar modelo_embeddings dimensao_embeddings md5 openai faiss
     atributo_dict atributo_modelo).
Local Abbreviation entrada := (entrada atributo_dict atributo_modelo).
Local Abbreviation satisfaz := (satisfaz atributo_dict atributo_modelo).
Local Abbreviation e_o_cliente := (e_o_cliente atributo_dict atributo_modelo).
Local Abbreviation por_matricula :=
  (buscar_cliente_por_matricula modelo_embeddings dimensao_embeddings md5
     openai faiss atributo_dict atributo_modelo).
Local Abbreviation faturas_cliente :=
  (buscar_faturas_cliente modelo_embeddings dimensao_embeddings md5
     openai faiss atributo_dict atributo_modelo).

Lemma gerar_indice (s : t) (texto : string) :
  index (gerar s texto).2 = index s
  ∧ id_para_documento (gerar s texto).2 = id_para_documento s
  ∧ indice_metadata (gerar s texto).2 = indice_metadata s.
Proof.
  unfold gerar_embedding.
  destruct (cache_embeddings s !! _); [done|].
  destruct (openai _ _) as [[|e es]|]; [done| |done].
  cbn [snd]. by destruct (_ =? 0).
Qed.

Lemma buscar_casos (s : t) (texto_consulta : string) (k : Z)
    (filtro : option (list (string * valor))) :
  let r := buscar s texto_consulta k filtro in
  (index s = None → r = ([], s))
  ∧ (is_Some (index s) → r.2 = (gerar s texto_consulta).2)
  ∧ (r.1 = []
     ∨ ∃ ix q, r.1 = omap (entrada (id_para_documento s) filtro)
                       (Faiss.search1 faiss ix [q] k q)).
Proof.
  cbn zeta. unfold EmbeddingsService.buscar.
  destruct (index s) as [ix|];
    [|split; [done|]; split; [by intros [? ?]|by left]].
  split; [discriminate|].
  pose proof (gerar_indice s texto_consulta) as (_ & Hdocs & _).
  destruct (gerar s texto_consulta) as [q s1]. cbn [snd] in Hdocs.
  unfold Faiss.search.
  destruct (negb (len q =? Faiss.d ix)); [split; [done|by left]|].
  destruct (negb (0 <? k)); [split; [done|by left]|].
  destruct (negb (Faiss.aloca faiss _ k)); [split; [done|by left]|].
  destruct (negb (Faiss.is_trained ix)); [split; [done|by left]|].
  cbn [map lookup list_lookup fst snd].
  split; [done|]. right. exists ix, q.
  rewrite Hdocs.
  apply (EmbeddingsServiceProps.resultados_por_entrada atributo_dict
           atributo_modelo).
Qed.

Lemma buscar_resultados (s : t) (texto_consulta : string) (k : Z)
    (filtro : option (list (string * valor))) :
  let r := buscar s texto_consulta k filtro in
  (length r.1 ≤ Z.to_nat k)%nat
  ∧ Forall (λ x : documento * pontuacao,
              satisfaz x.1 filtro
              ∧ ∃ slot, id_para_documento s !! slot = Some x.1) r.1.
Proof.
  cbn zeta.
  destruct (buscar_casos s texto_consulta k filtro)
    as (_ & _ & [-> |(ix & q & ->)]); [split; [cbn; lia|constructor]|].
  split.
  - etrans; [apply FaissProps.length_omap_le|].
    by rewrite FaissProps.search1_length.
  - apply Forall_forall. intros x Hx.
    apply list_elem_of_omap in Hx as (e & _ & He).
    destruct (EmbeddingsServiceProps.entrada_sem_filtro atributo_dict
                atributo_modelo _ _ _ _ He) as (_ & Hs & _).
    split; [exact Hs|]. exists e.1.
    revert He. unfold EmbeddingsService.entrada, EmbeddingsService.resultado.
    destruct (bool_decide (e.1 = -1)); [discriminate|].
    destruct (id_para_documento s !! e.1) as [doc|]; [|discriminate].
    cbn. destruct (atende_filtro _ _ doc filtro); [|discriminate].
    by intros [= <-].
Qed.

(** X29: [buscar_cliente_por_matricula] answers from the database when it can:
    with a client found there it returns the first one, sends no request
    and leaves the service as it was.  A client that it returns otherwise
    is a document of the slot mapping whose [tipo] is "cliente_info" and
    whose [matricula] is the one asked for.  With nothing in the database
    and no index it returns nothing. *)
Theorem buscar_cliente_por_matricula_camadas (s : t)
    (clientes : list documento) (matricula : string) :
  let r := por_matricula s clientes matricula in
  (∀ cliente, head clientes = Some cliente → r = (Some cliente, s))
  ∧ (clientes = [] → index s = None → r = (None, s))
  ∧ (clientes = [] → ∀ doc, r.1 = Some doc →
       e_o_cliente doc matricula = true
       ∧ satisfaz doc (Some [("tipo", VStr "cliente_info")])
       ∧ ∃ slot, id_para_documento s !! slot = Some doc).
Proof.
  cbn zeta. unfold buscar_cliente_por_matricula.
  split; [|split].
  - intros cliente Hc. destruct clientes; [discriminate|].
    by injection Hc as ->.
  - by intros -> ->.
  - intros -> doc. destruct (index s); [|discriminate].
    pose proof (buscar_resultados s
                  ("Informações do cliente com matrícula " +:+ matricula) 5
                  (Some [("tipo", VStr "cliente_info")])) as [_ Hres].
    cbn zeta in Hres.
    destruct (buscar s _ 5 _) as [resultados s1]. cbn [fst snd] in *.
    intros Hdoc. apply head_Some_elem_of in Hdoc.
    apply list_elem_of_filter in Hdoc as [He Hin].
    apply list_elem_of_fmap in Hin as (x & -> & Hx).
    rewrite Forall_forall in Hres. destruct (Hres x Hx) as [Hs Hslot].
    by repeat split.
Qed.

(** X30: [buscar_faturas_cliente] returns what the database found when that is
    not empty, sends no request then and leaves the service as it was.
    Otherwise it returns at most 20 documents of the slot mapping, each
    with [tipo] "fatura" and the [cliente_id] asked for, and nothing when
    there is no index. *)
Theorem buscar_faturas_cliente_camadas (s : t) (faturas : list documento)
    (cliente_id : string) :
  let r := faturas_cliente s faturas cliente_id in
  (faturas ≠ [] → r = (faturas, s))
  ∧ (faturas = [] → index s = None → r = ([], s))
  ∧ (faturas = [] →
       (length r.1 ≤ 20)%nat
       ∧ Forall (λ doc,
                   satisfaz doc
                     (Some [("tipo", VStr "fatura");
                            ("cliente_id", VStr cliente_id)])
                   ∧ ∃ slot, id_para_documento s !! slot = Some doc) r.1).
Proof.
  cbn zeta. unfold buscar_faturas_cliente.
  split; [|split].
  - intros Hne. by destruct faturas.
  - by intros -> ->.
  - intros ->. destruct (index s); [|split; [cbn; lia|constructor]].
    pose proof (buscar_resultados s ("Faturas do cliente " +:+ cliente_id) 20
                  (Some [("tipo", VStr "fatura");
                         ("cliente_id", VStr cliente_id)])) as [Hlen Hres].
    cbn zeta in Hlen, Hres.
    destruct (buscar s _ 20 _) as [resultados s1]. cbn [fst snd] in *.
    split; [by rewrite length_fmap|].
    apply Forall_fmap. exact Hres.
Qed.

End consultas.

End EmbeddingsServiceExtras.
